(** * Aldrin SDK: pool and staking clients

    A shallow embedding of [PoolClient] (pools client), [StakingClient]
    (staking client) and the static pool tables of [src/types.ts].

    Conventions of the embedding.
    - A [BN] (bn.js big number, and its subclass [u64]) is an integer of [Z].
      [mul], [sub], the comparisons and the divisions by a non-zero integer
      are the exact operations; [div] and [divn] truncate towards zero and
      [div] asserts a non-zero divisor.  [muln] is embedded limb by limb, as
      bn.js implements it, because the clients call it with fractions.
    - A JavaScript [number] that may be a fraction (a slippage, a referral
      percent) is a rational of [Q]: the arithmetic the clients do on it is
      taken exact.  The rounding of binary64 can move the whole part of a
      product by one, so the properties give the amounts that depend on such
      a number exactly where binary64 is exact too (whole factors), and
      within bounds that the rounding keeps elsewhere.  [Binary64] has
      [muln] on the floats of the kernel, to check the examples against.
      A [number] that is whole by construction ([parseInt] of a [BN], and
      such a number plus a whole constant) is the integer of [Z] that
      binary64 holds: the nearest one with 53 significant bits
      ([Binary64.whole]).
    - A [PublicKey] is its base58 text.
    - An [async] method is a computation over the [World]: the answers of the
      RPC node and of the Aldrin API, the clock, the key generator, and the
      log of the transactions handed to [sendTransaction].  The node and the
      API answer every query; only [sendTransaction] may be rejected. *)

From Stdlib Require Import ZArith QArith Qround Lia Lqa List String Permutation.
From Corelib Require Import PrimFloat FloatOps SpecFloat.
From Stdlib Require Import Uint63.
From stdpp Require Import base list strings gmap.

Local Open Scope Z_scope.

(** ** Exceptions *)

(** What a rejected promise carries: an [Error] made by [throw new Error(msg)]
    (bn.js's [assert] throws [Error "Assertion failed"]), the [TypeError] of
    reading a property of [undefined], or the rejection of [sendTransaction]. *)
Inductive Exception :=
| Error (message : string)
| TypeError_undefined (property : string)
| SendTransactionError.

Inductive Result (A : Type) :=
| Ok (value : A)
| Throw (e : Exception).
Arguments Ok {A} value.
Arguments Throw {A} e.

(** ** bn.js *)

Module BN.

(** bn.js keeps the magnitude in 26-bit words, least significant first. *)
Definition word_bits : Z := 26.
Definition word_base : Z := 0x4000000.
Definition word_mask : Z := 0x3ffffff.

Fixpoint words_aux (fuel : nat) (x : Z) : list Z :=
  match fuel with
  | O => []
  | S fuel' =>
      if x <? word_base then [x]
      else (x mod word_base) :: words_aux fuel' (x / word_base)
  end.

(** The words of a magnitude [x >= 0]; zero is the single word [0]. *)
Definition words (x : Z) : list Z := words_aux (S (Z.to_nat (Z.log2 x))) x.

Fixpoint of_words (ws : list Z) : Z :=
  match ws with
  | [] => 0
  | w :: ws' => w + word_base * of_words ws'
  end.

(** [ToInt32] of ECMAScript on an integer, and on a number (truncation
    first): what [x | 0], [x & m] and [x >> n] apply to their operands. *)
Definition wrap32 (z : Z) : Z := (z + 2 ^ 31) mod 2 ^ 32 - 2 ^ 31.
Definition trunc (q : Q) : Z := Z.quot (Qnum q) (Z.pos (Qden q)).
Definition ToInt32 (q : Q) : Z := wrap32 (trunc q).

(** The loop of [imuln] (bn.js 5):
<<
    var isNegNum = num < 0;
    if (isNegNum) num = -num;
    assert(typeof num === 'number');
    assert(num < 0x4000000);
    var carry = 0;
    for (var i = 0; i < this.length; i++) {
      var w = (this.words[i] | 0) * num;
      var lo = (w & 0x3ffffff) + (carry & 0x3ffffff);
      carry >>= 26;
      carry += (w / 0x4000000) | 0;
      carry += lo >>> 26;
      this.words[i] = lo & 0x3ffffff;
    }
    if (carry !== 0) { this.words[i] = carry; this.length++; }
    return isNegNum ? this.ineg() : this;
>>
    Each product [w] is a number; [&] and [|] take its whole part, so that
    the fraction of each word's product is dropped where the word stands. *)
Fixpoint imuln_loop (num : Q) (ws : list Z) (carry : Z) : list Z :=
  match ws with
  | [] => if carry =? 0 then [] else [carry]
  | word :: rest =>
      let w := (inject_Z (wrap32 word) * num)%Q in
      let lo := Z.land (ToInt32 w) word_mask + Z.land (wrap32 carry) word_mask in
      let carry := Z.shiftr (wrap32 carry) word_bits in
      let carry := carry + ToInt32 (w / inject_Z word_base)%Q in
      let carry := carry + Z.shiftr lo word_bits in
      Z.land lo word_mask :: imuln_loop num rest carry
  end.

(** [x.muln(num)]: [assert(num < 0x4000000)] on the absolute value of
    [num], the loop on the magnitude of [x], and the signs. *)
Definition muln (x : Z) (num : Q) : Result Z :=
  let isNegNum := Qlt_le_dec num 0 in
  let num := if isNegNum then (- num)%Q else num in
  if Qlt_le_dec num (inject_Z word_base) then
    let magnitude := of_words (imuln_loop num (words (Z.abs x)) 0) in
    Ok (Z.sgn x * magnitude * (if isNegNum then -1 else 1))
  else Throw (Error "Assertion failed").

Definition mul (x y : Z) : Z := x * y.
Definition sub (x y : Z) : Z := x - y.

(** [x.div(y)]: [assert(!y.isZero())], then the truncated quotient. *)
Definition div (x y : Z) : Result Z :=
  if y =? 0 then Throw (Error "Assertion failed") else Ok (Z.quot x y).

(** [x.divn(n)] for the non-zero constants the clients pass. *)
Definition divn (x n : Z) : Z := Z.quot x n.

(** [new BN(number)], and [new u64(number)], of a whole number:
    [_initNumber] takes the magnitude and, past its two short cases, does
    [assert(number < 0x20000000000000)]. *)
Definition of_number (n : Z) : Result Z :=
  if Z.abs n <? 0x20000000000000 then Ok n else Throw (Error "Assertion failed").
Arguments of_number : simpl never.

Definition eq (x y : Z) : bool := x =? y.
Definition lt (x y : Z) : bool := x <? y.
Definition gtn (x n : Z) : bool := x >? n.

(** A word in range, and one word multiplied by the number [n # d]: the
    product is truncated before it is added to the carry. *)
Definition word_ok (w : Z) : Prop := 0 <= w < word_base.
Definition limb_product (n : Z) (d : positive) (word : Z) : Z :=
  word * n / Z.pos d.

End BN.

(** ** [muln] in binary64

    The same loop on the floats of the kernel, which are the numbers of
    JavaScript; a decimal literal is the correctly rounded quotient. *)

Module Binary64.

(** The number that binary64 holds for a whole number [z]: [z] itself up to
    53 significant bits, else the nearest multiple of the power of two that
    leaves 53 bits, a tie going to the even one.  (From 2^1024 on binary64
    has the infinities; no amount of tokens comes near.) *)
Definition whole (z : Z) : Z :=
  let a := Z.abs z in
  if a <? 2 ^ 53 then z
  else
    let e := Z.log2 a - 52 in
    let q := a / 2 ^ e in
    let r := a mod 2 ^ e in
    let half := 2 ^ (e - 1) in
    let q :=
      if r <? half then q
      else if half <? r then q + 1
      else if Z.even q then q else q + 1 in
    Z.sgn z * (q * 2 ^ e).

Definition of_integer (z : Z) : float := PrimFloat.of_uint63 (Uint63.of_Z z).

Definition decimal (numerator denominator : Z) : float :=
  PrimFloat.div (of_integer numerator) (of_integer denominator).

(** The whole part of a float; [ToInt32] takes NaN and the infinities to 0. *)
Definition trunc (f : float) : Z :=
  match Prim2SF f with
  | S754_finite s m e =>
      let v := if 0 <=? e then Z.pos m * 2 ^ e else Z.pos m / 2 ^ (- e) in
      if s then - v else v
  | _ => 0
  end.

Definition ToInt32 (f : float) : Z := BN.wrap32 (trunc f).

Fixpoint imuln_loop (num : float) (ws : list Z) (carry : Z) : list Z :=
  match ws with
  | [] => if carry =? 0 then [] else [carry]
  | word :: rest =>
      let w := PrimFloat.mul (of_integer (BN.wrap32 word)) num in
      let lo :=
        Z.land (ToInt32 w) BN.word_mask + Z.land (BN.wrap32 carry) BN.word_mask in
      let carry := Z.shiftr (BN.wrap32 carry) BN.word_bits in
      let carry := carry + ToInt32 (PrimFloat.div w (of_integer BN.word_base)) in
      let carry := carry + Z.shiftr lo BN.word_bits in
      Z.land lo BN.word_mask :: imuln_loop num rest carry
  end.

Definition muln (x : Z) (num : float) : Result Z :=
  let isNegNum := PrimFloat.ltb num (of_integer 0) in
  let num := if isNegNum then PrimFloat.opp num else num in
  if PrimFloat.ltb num (of_integer BN.word_base) then
    let magnitude := BN.of_words (imuln_loop num (BN.words (Z.abs x)) 0) in
    Ok (Z.sgn x * magnitude * (if isNegNum then -1 else 1))
  else Throw (Error "Assertion failed").

(** [1 - slippage] and [1000 - slippage * 1000], for a slippage written
    [numerator / denominator] in decimal. *)
Definition one_minus (numerator denominator : Z) : float :=
  PrimFloat.sub (of_integer 1) (decimal numerator denominator).

Definition thousand_minus (numerator denominator : Z) : float :=
  PrimFloat.sub (of_integer 1000)
    (PrimFloat.mul (decimal numerator denominator) (of_integer 1000)).

End Binary64.

(** [parseInt(x.toString(), 10)] of a [BN], and [a + b] of two whole
    numbers: the exact value, as binary64 holds it. *)
Definition parseInt (x : Z) : Z := Binary64.whole x.
Definition Number_add (a b : Z) : Z := Binary64.whole (a + b).
Arguments parseInt : simpl never.
Arguments Number_add : simpl never.

(** ** Keys, accounts and layouts *)

(** A public key by its base58 text: [toBase58], [toString] and
    [new PublicKey(text)] are the identity, [equals] compares the texts. *)
Definition PublicKey : Type := string.
Definition Buffer : Type := list Byte.byte.

Record Wallet := { publicKey : PublicKey }.

(** [type PoolVersion = 1 | 2] and [enum SIDE { BID = 1, ASK = -1 }]. *)
Inductive PoolVersion := V1 | V2.
Inductive SIDE := BID | ASK.
Inductive CURVE := PRODUCT | STABLE.

Definition SIDE_eqb (a b : SIDE) : bool :=
  match a, b with BID, BID | ASK, ASK => true | _, _ => false end.

Inductive GetProgramAccountsFilter :=
| dataSize (size : Z)
| memcmp (offset : Z) (bytes : string).

(** An entry of [getProgramAccounts] and of [getParsedTokenAccountsByOwner]
    (of the latter, [account.data.parsed.info.mint]). *)
Record ProgramAccount := { pubkey : PublicKey; data : Buffer }.
Record ParsedTokenAccount := { token_pubkey : PublicKey; mint : string }.

(** A buffer-layout structure: its size, the offsets of its named fields and
    its decoder. *)
Record Layout (T : Type) := {
  span : Z;
  offsetOf : string -> option Z;
  decode : Buffer -> T;
}.
Arguments span {T}.
Arguments offsetOf {T}.
Arguments decode {T}.

(** The pool of the parameters ([PoolCommon & WithPoolPK], with the optional
    version); the entries of the static tables have the same keys. *)
Record Pool := {
  poolPublicKey : PublicKey;
  poolMint : PublicKey;
  baseTokenMint : PublicKey;
  quoteTokenMint : PublicKey;
  baseTokenVault : PublicKey;
  quoteTokenVault : PublicKey;
  poolVersion : option PoolVersion;
}.

(** The Aldrin API's staking pool ([getStakingPoolInfo]); [farming] is absent
    ([None]) or a list, and an empty list is not absent. *)
Record PoolFarmingResponse := {
  tokensTotal : Z;
  tokensUnlocked : Z;
  farmingState : string;
  farmingSnapshots : string;
  farmingTokenVault : string;
}.

Record StakingPoolInfo := {
  swapToken : string;
  poolTokenMint : string;
  stakingVault : string;
  farming : option (list PoolFarmingResponse);
}.

(** ** What the clients import

    The constants, layouts and helpers that the two clients import from the
    rest of the SDK and from the Solana libraries are declared outside the
    files embedded here; the embedding is parametric in them. *)
Class Imports := {
  POOLS_PROGRAM_ADDRESS : PublicKey;
  POOLS_V2_PROGRAM_ADDRESS : PublicKey;
  STAKING_PROGRAM_ADDRESS : PublicKey;
  TOKEN_PROGRAM_ID : PublicKey;
  SOL_MINT : PublicKey;
  PRECISION_NOMINATOR : Z;
  DEFAULT_FARMING_TICKET_END_TIME : Z;
  (* decoded records, with the fields the clients read; of a decoded
     version-2 pool, its [curveType] property if the layout gives one *)
  PoolResponse : Type;
  POOL_LAYOUT : Layout PoolResponse;
  PoolV2Response : Type;
  POOL_V2_LAYOUT : Layout PoolV2Response;
  decoded_curveType : PoolV2Response -> option CURVE;
  StakingTicketData : Type;
  STAKING_TICKET_LAYOUT : Layout StakingTicketData;
  startTime : StakingTicketData -> Z;
  endTime : StakingTicketData -> Z;
  FarmingStateData : Type;
  FARMING_STATE_LAYOUT : Layout FarmingStateData;
  FarmingCalcData : Type;
  FARMING_CALC_LAYOUT : Layout FarmingCalcData;
  calc_farmingState : FarmingCalcData -> PublicKey;
  calc_tokenAmount : FarmingCalcData -> Z;
  (* pure helpers *)
  accountDiscriminator : string -> Buffer;
  base58_encode : Buffer -> string;
  findProgramAddress : list PublicKey -> PublicKey -> PublicKey;
}.

Definition TOKEN_ACCOUNT_RENT_LAMPORTS : Z := 2040000.

(** ** Parameters of the operations

    Each record has the fields its client method reads; a method hands the
    whole record on to the instruction builder ([...params]). *)

Module GetPoolsParams.
Record t := { mint : option PublicKey }.
End GetPoolsParams.

Module DepositLiquidityParams.
Record t := {
  pool : Pool;
  maxBaseTokenAmount : Z;
  wallet : Wallet;
  slippage : option Q;
  userPoolTokenAccount : option PublicKey;
}.
End DepositLiquidityParams.

Module WithdrawLiquidityParams.
Record t := {
  pool : Pool;
  poolTokenAmount : Z;
  slippage : option Q;
  wallet : Wallet;
  baseTokenReturnedMin : option Z;
  quoteTokenReturnedMin : option Z;
  userBaseTokenAccount : option PublicKey;
  userQuoteTokenAccount : option PublicKey;
}.
End WithdrawLiquidityParams.

Module ReferralParams.
(** [createTokenAccounts] is optional: absent is [false]. *)
Record t := {
  referralPercent : Q;
  referralAccount : PublicKey;
  createTokenAccounts : bool;
}.
End ReferralParams.

Module SwapParams.
Record t := {
  pool : Pool;
  referralParams : option ReferralParams.t;
  slippage : option Q;
  side : SIDE;
  wallet : Wallet;
  outcomeAmount : Z;
  minIncomeAmount : Z;
  userBaseTokenAccount : option PublicKey;
  userQuoteTokenAccount : option PublicKey;
}.
End SwapParams.

Module StartStakingParams.
Record t := { wallet : Wallet; tokenAmount : Z }.
End StartStakingParams.

Module EndStakingParams.
Record t := { wallet : Wallet }.
End EndStakingParams.

Module EndStakingTicketParams.
Record t := {
  wallet : Wallet;
  poolPublicKey : PublicKey;
  farmingState : PublicKey;
  stakingSnapshots : PublicKey;
  stakingVault : PublicKey;
  userStakingTokenAccount : PublicKey;
  stakingTicket : PublicKey;
  poolSigner : PublicKey;
}.
End EndStakingTicketParams.

Module GetStakingTicketsParams.
Record t := { userKey : option PublicKey }.
End GetStakingTicketsParams.

Module GetStakingStateParams.
Record t := { poolPublicKey : PublicKey }.
End GetStakingStateParams.

Module ClaimParams.
Record t := { stakingPool : StakingPoolInfo; wallet : Wallet }.
End ClaimParams.

(** ** Instructions and transactions

    An instruction is the call of its builder with the arguments the client
    passes.  The instructions of the transaction that
    [createTokenAccountTransaction] returns are kept as one item. *)
Inductive Instruction :=
| CreateTokenAccount (owner mint : PublicKey) (amount : option Z)
    (payer : option PublicKey) (newAccountPubkey : PublicKey)
| CreateAccount (size : Z) (wallet : Wallet) (programId newAccountPubkey : PublicKey)
| DepositLiquidity (params : DepositLiquidityParams.t)
    (walletAuthority poolSigner userPoolTokenAccount : PublicKey)
    (creationSize : Z) (programId : PublicKey)
| WithdrawLiquidity (params : WithdrawLiquidityParams.t)
    (userBaseTokenAccount userQuoteTokenAccount : PublicKey)
    (baseTokenReturnedMin quoteTokenReturnedMin : Z)
    (poolSigner walletAuthority programId : PublicKey)
| Swap (params : SwapParams.t) (minIncomeAmount : Z)
    (poolSigner walletAuthority userBaseTokenAccount userQuoteTokenAccount : PublicKey)
    (poolVersion : PoolVersion)
| Transfer (programId source destination owner : PublicKey) (amount : Z)
| CloseAccount (programId account destination owner : PublicKey)
| Staking (poolPublicKey farmingState stakingVault userStakingTokenAccount
    userKey : PublicKey) (tokenAmount : Z) (stakingTicket programId : PublicKey)
| Unstaking (poolPublicKey farmingState stakingSnapshots stakingVault
    lpTokenFreezeVault userStakingTokenAccount poolSigner userKey programId
    stakingTicket : PublicKey)
| WithdrawFarmed (poolPublicKey farmingState farmingTokenVault farmingCalc
    userFarmingTokenAccount poolSigner userKey programId : PublicKey).

Definition Transaction : Type := list Instruction.

(** The argument of [sendTransaction]. *)
Record SendTransaction := {
  send_wallet : Wallet;
  send_transaction : Transaction;
  send_partialSigners : list PublicKey;
}.

(** ** The world of an operation *)

Record World := {
  (* the RPC node *)
  programAccounts :
    PublicKey -> option string -> list GetProgramAccountsFilter -> list ProgramAccount;
  parsedTokenAccountsByOwner : PublicKey -> list ParsedTokenAccount;
  mintInfo_supply : PublicKey -> Z;
  tokenAccount_amount : PublicKey -> Z;
  (* the Aldrin API *)
  stakingPoolInfo : StakingPoolInfo;
  (* [Date.now()], in milliseconds *)
  now : Z;
  (* [Keypair.generate()]: the keys to come, and how many were drawn *)
  keypairs : nat -> PublicKey;
  generated : nat;
  (* what the network answers to a submission: a transaction id, or a failure *)
  accepts : SendTransaction -> option string;
  (* how concurrent submissions interleave, see [arrival_order] *)
  schedule : list nat;
  (* the calls of [sendTransaction] so far, oldest first, with their outcome *)
  sent : list (SendTransaction * option string);
  (* the module objects of [types.ts] *)
  AUTHORIZED_POOLS_object : gmap string Pool;
  PERMISSIONLESS_POOLS_object : gmap string Pool;
}.

Definition set_generated (n : nat) (w : World) : World :=
  {| programAccounts := programAccounts w;
     parsedTokenAccountsByOwner := parsedTokenAccountsByOwner w;
     mintInfo_supply := mintInfo_supply w;
     tokenAccount_amount := tokenAccount_amount w;
     stakingPoolInfo := stakingPoolInfo w;
     now := now w;
     keypairs := keypairs w;
     generated := n;
     accepts := accepts w;
     schedule := schedule w;
     sent := sent w;
     AUTHORIZED_POOLS_object := AUTHORIZED_POOLS_object w;
     PERMISSIONLESS_POOLS_object := PERMISSIONLESS_POOLS_object w |}.

Definition set_sent (l : list (SendTransaction * option string)) (w : World) : World :=
  {| programAccounts := programAccounts w;
     parsedTokenAccountsByOwner := parsedTokenAccountsByOwner w;
     mintInfo_supply := mintInfo_supply w;
     tokenAccount_amount := tokenAccount_amount w;
     stakingPoolInfo := stakingPoolInfo w;
     now := now w;
     keypairs := keypairs w;
     generated := generated w;
     accepts := accepts w;
     schedule := schedule w;
     sent := l;
     AUTHORIZED_POOLS_object := AUTHORIZED_POOLS_object w;
     PERMISSIONLESS_POOLS_object := PERMISSIONLESS_POOLS_object w |}.

Definition set_schedule (codes : list nat) (w : World) : World :=
  {| programAccounts := programAccounts w;
     parsedTokenAccountsByOwner := parsedTokenAccountsByOwner w;
     mintInfo_supply := mintInfo_supply w;
     tokenAccount_amount := tokenAccount_amount w;
     stakingPoolInfo := stakingPoolInfo w;
     now := now w;
     keypairs := keypairs w;
     generated := generated w;
     accepts := accepts w;
     schedule := codes;
     sent := sent w;
     AUTHORIZED_POOLS_object := AUTHORIZED_POOLS_object w;
     PERMISSIONLESS_POOLS_object := PERMISSIONLESS_POOLS_object w |}.

(** ** The monad of [async] methods: the world is threaded, an exception
    ends the method. *)
Definition M (A : Type) : Type := World -> Result A * World.

Definition ret {A} (a : A) : M A := fun w => (Ok a, w).
Definition throw {A} (e : Exception) : M A := fun w => (Throw e, w).
Definition bind {A B} (m : M A) (k : A -> M B) : M B :=
  fun w => match m w with
           | (Ok a, w') => k a w'
           | (Throw e, w') => (Throw e, w')
           end.
Definition lift {A} (r : Result A) : M A := fun w => (r, w).

Declare Scope async_scope.
Delimit Scope async_scope with async.
Notation "x <- m ;; k" := (bind m (fun x => k))
  (at level 100, m at next level, right associativity) : async_scope.
Local Open Scope async_scope.

Definition result_bind {A B} (r : Result A) (k : A -> Result B) : Result B :=
  match r with Ok a => k a | Throw e => Throw e end.

(** The calls that reach outside. *)
Definition getProgramAccounts (programId : PublicKey) (commitment : option string)
    (filters : list GetProgramAccountsFilter) : M (list ProgramAccount) :=
  fun w => (Ok (programAccounts w programId commitment filters), w).

Definition getParsedTokenAccountsByOwner (owner : PublicKey)
    : M (list ParsedTokenAccount) :=
  fun w => (Ok (parsedTokenAccountsByOwner w owner), w).

(** [tokenClient.getMintInfo(mint)].supply and
    [tokenClient.getTokenAccount(account)].amount *)
Definition getMintInfo (mint : PublicKey) : M Z :=
  fun w => (Ok (mintInfo_supply w mint), w).
Definition getTokenAccount (account : PublicKey) : M Z :=
  fun w => (Ok (tokenAccount_amount w account), w).

Definition getStakingPoolInfo : M StakingPoolInfo :=
  fun w => (Ok (stakingPoolInfo w), w).

Definition Date_now : M Z := fun w => (Ok (now w), w).

Definition Keypair_generate : M PublicKey :=
  fun w => (Ok (keypairs w (generated w)), set_generated (S (generated w)) w).

(** [sendTransaction]: the call is logged with the network's answer. *)
Definition sendTransaction (wallet : Wallet) (transaction : Transaction)
    (partialSigners : list PublicKey) : M string :=
  fun w =>
    let call := {| send_wallet := wallet; send_transaction := transaction;
                   send_partialSigners := partialSigners |} in
    let outcome := accepts w call in
    let w' := set_sent (sent w ++ [(call, outcome)]) w in
    match outcome with
    | Some txid => (Ok txid, w')
    | None => (Throw SendTransactionError, w')
    end.

(** [createTokenAccountTransaction]: a fresh key and the transaction that
    creates the token account under it. *)
Definition createTokenAccountTransaction (owner mint : PublicKey)
    (amount : option Z) (payer : option PublicKey) : M (Transaction * PublicKey) :=
  newAccountPubkey <- Keypair_generate ;;
  ret ([CreateTokenAccount owner mint amount payer newAccountPubkey], newAccountPubkey).

(** *** [Promise.all] over concurrent tasks

    The tasks are started in the order of the list and each runs on its own;
    the order in which they reach the network is not fixed by the program.
    The world's [schedule] decides it: task [i] of the list is put at
    position [schedule !! i] among the tasks after it.  Every task runs,
    whatever the others did; the promise is rejected with the first failure,
    else it is fulfilled with the results in the order of the list. *)
Fixpoint insert_at {A} (n : nat) (x : A) (l : list A) : list A :=
  match n, l with
  | S n', y :: l' => y :: insert_at n' x l'
  | _, _ => x :: l
  end.

Fixpoint arrival_order {A} (codes : list nat) (l : list A) : list A :=
  match l with
  | [] => []
  | x :: l' => insert_at (hd O codes) x (arrival_order (tl codes) l')
  end.

Fixpoint run_tasks {A} (tasks : list (nat * M A)) (w : World)
    : list (nat * Result A) * World :=
  match tasks with
  | [] => ([], w)
  | (i, task) :: rest =>
      let '(r, w') := task w in
      let '(rs, w'') := run_tasks rest w' in
      ((i, r) :: rs, w'')
  end.

Fixpoint first_failure {A} (outcomes : list (nat * Result A)) : option Exception :=
  match outcomes with
  | [] => None
  | (_, Throw e) :: _ => Some e
  | (_, Ok _) :: rest => first_failure rest
  end.

Definition outcome_of {A} (outcomes : list (nat * Result A)) (i : nat) : option A :=
  match List.find (fun o => Nat.eqb (fst o) i) outcomes with
  | Some (_, Ok a) => Some a
  | _ => None
  end.

Definition Promise_all {A} (tasks : list (M A)) : M (list A) :=
  fun w =>
    let numbered := combine (seq 0 (length tasks)) tasks in
    let '(outcomes, w') := run_tasks (arrival_order (schedule w) numbered) w in
    match first_failure outcomes with
    | Some e => (Throw e, w')
    | None => (Ok (omap (outcome_of outcomes) (seq 0 (length tasks))), w')
    end.

(** ** PoolClient *)

Section Clients.
Context {imports : Imports}.

Record PoolRpcResponse := {
  v1_account : PoolResponse;
  v1_poolPublicKey : PublicKey;
  v1_poolVersion : PoolVersion;
  v1_curveType : CURVE;
}.

(** The object that [getV2Pools] makes: the decoded properties, the two that
    are set, and what its [curveType] property then is. *)
Record PoolRpcV2Response := {
  v2_account : PoolV2Response;
  v2_poolPublicKey : PublicKey;
  v2_poolVersion : PoolVersion;
  v2_curveType : option CURVE;
}.

Definition getPoolAddress (poolVersion : PoolVersion) : PublicKey :=
  match poolVersion with
  | V1 => POOLS_PROGRAM_ADDRESS
  | V2 => POOLS_V2_PROGRAM_ADDRESS
  end.

Definition getPools (filters : GetPoolsParams.t) : M (list PoolRpcResponse) :=
  let searchFilters :=
    [ dataSize (span POOL_LAYOUT);
      memcmp 0 (base58_encode (accountDiscriminator "Pool")) ] in
  let searchFilters :=
    match GetPoolsParams.mint filters with
    | Some mint =>
        searchFilters
        ++ [memcmp (default 0 (offsetOf POOL_LAYOUT "poolMint")) mint]
    | None => searchFilters
    end in
  accounts <- getProgramAccounts POOLS_PROGRAM_ADDRESS None searchFilters ;;
  ret (List.map
         (fun p =>
            let account := decode POOL_LAYOUT (data p) in
            {| v1_account := account;
               v1_poolPublicKey := pubkey p;
               v1_poolVersion := V1;
               v1_curveType := PRODUCT |})
         accounts).

Definition getV2Pools (filters : GetPoolsParams.t) : M (list PoolRpcV2Response) :=
  let searchFilters :=
    [ dataSize (span POOL_V2_LAYOUT);
      memcmp 0 (base58_encode (accountDiscriminator "Pool")) ] in
  let searchFilters :=
    match GetPoolsParams.mint filters with
    | Some mint =>
        searchFilters
        ++ [memcmp (default 0 (offsetOf POOL_V2_LAYOUT "poolMint")) mint]
    | None => searchFilters
    end in
  accounts <- getProgramAccounts POOLS_V2_PROGRAM_ADDRESS None searchFilters ;;
  ret (List.map
         (fun p =>
            let account := decode POOL_V2_LAYOUT (data p) in
            (* [curveType] is not set: the spread leaves what was decoded *)
            {| v2_account := account;
               v2_poolPublicKey := pubkey p;
               v2_poolVersion := V2;
               v2_curveType := decoded_curveType account |})
         accounts).

(** [supply.mul(maxBaseTokenAmount).div(amount).muln(1 - slippage)] *)
Definition deposit_creationSize (supply maxBaseTokenAmount amount : Z)
    (slippage : Q) : Result Z :=
  result_bind (BN.div (BN.mul supply maxBaseTokenAmount) amount)
    (fun q => BN.muln q (1 - slippage)%Q).

Definition depositLiquidity (params : DepositLiquidityParams.t) : M string :=
  let pool := DepositLiquidityParams.pool params in
  let maxBaseTokenAmount := DepositLiquidityParams.maxBaseTokenAmount params in
  let wallet := DepositLiquidityParams.wallet params in
  let slippage := default (1 # 100)%Q (DepositLiquidityParams.slippage params) in
  let userPoolTokenAccount := DepositLiquidityParams.userPoolTokenAccount params in
  let poolVersion := default V1 (poolVersion pool) in
  let transaction : Transaction := [] in
  let programId := getPoolAddress poolVersion in
  let poolSigner := findProgramAddress [poolPublicKey pool] programId in
  supply <- getMintInfo (poolMint pool) ;;
  amount <- getTokenAccount (baseTokenVault pool) ;;
  creationSize <- lift (deposit_creationSize supply maxBaseTokenAmount amount slippage) ;;
  created <-
    match userPoolTokenAccount with
    | None =>
        r <- createTokenAccountTransaction (publicKey wallet) (poolMint pool) None None ;;
        ret (snd r, transaction ++ fst r)
    | Some account => ret (account, transaction)
    end ;;
  let userPoolTokenAccount := fst created in
  let transaction := snd created in
  let instruction :=
    DepositLiquidity params (publicKey wallet) poolSigner userPoolTokenAccount
      creationSize programId in
  let transaction := transaction ++ [instruction] in
  sendTransaction wallet transaction [].

(** [getMaxWithdrawable]: the pair [(withdrawAmountBase, withdrawAmountQuote)].
    The three queries of its [Promise.all] change nothing, so their order
    does not matter. *)
Definition getMaxWithdrawable (params : WithdrawLiquidityParams.t) : M (Z * Z) :=
  let pool := WithdrawLiquidityParams.pool params in
  let poolTokenAmount := WithdrawLiquidityParams.poolTokenAmount params in
  supply <- getMintInfo (poolMint pool) ;;
  baseTokenAmount <- getTokenAccount (baseTokenVault pool) ;;
  quoteTokenAmount <- getTokenAccount (quoteTokenVault pool) ;;
  withdrawAmountBase <- lift (BN.div (BN.mul baseTokenAmount poolTokenAmount) supply) ;;
  withdrawAmountQuote <- lift (BN.div (BN.mul quoteTokenAmount poolTokenAmount) supply) ;;
  ret (withdrawAmountBase, withdrawAmountQuote).

Definition withdrawLiquidity (params : WithdrawLiquidityParams.t) : M string :=
  let pool := WithdrawLiquidityParams.pool params in
  let slippage := default (1 # 1000)%Q (WithdrawLiquidityParams.slippage params) in
  let wallet := WithdrawLiquidityParams.wallet params in
  let baseTokenReturnedMin := WithdrawLiquidityParams.baseTokenReturnedMin params in
  let quoteTokenReturnedMin := WithdrawLiquidityParams.quoteTokenReturnedMin params in
  let poolVersion := default V1 (poolVersion pool) in
  let programId := getPoolAddress poolVersion in
  let poolSigner := findProgramAddress [poolPublicKey pool] programId in
  let transaction : Transaction := [] in
  created <-
    match WithdrawLiquidityParams.userBaseTokenAccount params with
    | None =>
        r <- createTokenAccountTransaction (publicKey wallet) (baseTokenMint pool) None None ;;
        ret (snd r, transaction ++ fst r)
    | Some account => ret (account, transaction)
    end ;;
  let userBaseTokenAccount := fst created in
  let transaction := snd created in
  created <-
    match WithdrawLiquidityParams.userQuoteTokenAccount params with
    | None =>
        r <- createTokenAccountTransaction (publicKey wallet) (quoteTokenMint pool) None None ;;
        ret (snd r, transaction ++ fst r)
    | Some account => ret (account, transaction)
    end ;;
  let userQuoteTokenAccount := fst created in
  let transaction := snd created in
  mins <-
    match baseTokenReturnedMin, quoteTokenReturnedMin with
    | Some b, Some q => ret (b, q)
    | _, _ =>
        maxWithdraw <- getMaxWithdrawable params ;;
        ret (default (fst maxWithdraw) baseTokenReturnedMin,
             default (snd maxWithdraw) quoteTokenReturnedMin)
    end ;;
  baseTokenReturnedMin <- lift (BN.muln (fst mins) (1 - slippage)%Q) ;;
  quoteTokenReturnedMin <- lift (BN.muln (snd mins) (1 - slippage)%Q) ;;
  let instruction :=
    WithdrawLiquidity params userBaseTokenAccount userQuoteTokenAccount
      baseTokenReturnedMin quoteTokenReturnedMin poolSigner (publicKey wallet)
      programId in
  let transaction := transaction ++ [instruction] in
  sendTransaction wallet transaction [].

(** [params.minIncomeAmount.muln(1000 - slippage * 1000).divn(1000)] *)
Definition swap_minIncomeAmount (minIncomeAmount : Z) (slippage : Q) : Result Z :=
  result_bind (BN.muln minIncomeAmount (1000 - slippage * 1000)%Q)
    (fun x => Ok (BN.divn x 1000)).

(** [minIncomeAmount.mul(PRECISION_NOMINATOR.muln(referralPercent).divn(100))
      .div(PRECISION_NOMINATOR)] *)
Definition swap_refFeeAmount (minIncomeAmount : Z) (referralPercent : Q) : Result Z :=
  result_bind (BN.muln PRECISION_NOMINATOR referralPercent)
    (fun x => BN.div (BN.mul minIncomeAmount (BN.divn x 100)) PRECISION_NOMINATOR).

Definition swap (params : SwapParams.t) : M string :=
  let pool := SwapParams.pool params in
  let poolVersion := default V1 (poolVersion pool) in
  let referralParams := SwapParams.referralParams params in
  let slippage := default (1 # 1000)%Q (SwapParams.slippage params) in
  let side := SwapParams.side params in
  let wallet := SwapParams.wallet params in
  let outcomeAmount := SwapParams.outcomeAmount params in
  let transaction : Transaction := [] in
  created <-
    match SwapParams.userBaseTokenAccount params with
    | None =>
        r <- createTokenAccountTransaction (publicKey wallet) (baseTokenMint pool)
               (if SIDE_eqb side ASK
                then Some (Number_add (parseInt outcomeAmount)
                             TOKEN_ACCOUNT_RENT_LAMPORTS)
                else None)
               None ;;
        ret (snd r, transaction ++ fst r)
    | Some account => ret (account, transaction)
    end ;;
  let userBaseTokenAccount := fst created in
  let transaction := snd created in
  created <-
    match SwapParams.userQuoteTokenAccount params with
    | None =>
        r <- createTokenAccountTransaction (publicKey wallet) (quoteTokenMint pool)
               (if SIDE_eqb side BID
                then Some (Number_add (parseInt outcomeAmount)
                             TOKEN_ACCOUNT_RENT_LAMPORTS)
                else None)
               None ;;
        ret (snd r, transaction ++ fst r)
    | Some account => ret (account, transaction)
    end ;;
  let userQuoteTokenAccount := fst created in
  let transaction := snd created in
  let programId := getPoolAddress poolVersion in
  let poolSigner := findProgramAddress [poolPublicKey pool] programId in
  minIncomeAmount <-
    lift (swap_minIncomeAmount (SwapParams.minIncomeAmount params) slippage) ;;
  let transaction :=
    transaction
    ++ [Swap params minIncomeAmount poolSigner (publicKey wallet)
          userBaseTokenAccount userQuoteTokenAccount poolVersion] in
  transaction <-
    match referralParams with
    | Some referralParams =>
        refFeeAmount <-
          lift (swap_refFeeAmount minIncomeAmount
                  (ReferralParams.referralPercent referralParams)) ;;
        let incomeMint :=
          if SIDE_eqb side ASK then quoteTokenMint pool else baseTokenMint pool in
        let takeFeesFromAccount :=
          if SIDE_eqb side ASK then userQuoteTokenAccount else userBaseTokenAccount in
        walletTokens <-
          getParsedTokenAccountsByOwner (ReferralParams.referralAccount referralParams) ;;
        let feesDestination :=
          option_map token_pubkey
            (List.find (fun wt => String.eqb (mint wt) incomeMint) walletTokens) in
        created <-
          match feesDestination, ReferralParams.createTokenAccounts referralParams with
          | None, true =>
              r <- createTokenAccountTransaction
                     (ReferralParams.referralAccount referralParams) incomeMint
                     None (Some (publicKey wallet)) ;;
              ret (Some (snd r), transaction ++ fst r)
          | _, _ => ret (feesDestination, transaction)
          end ;;
        let feesDestination := fst created in
        let transaction := snd created in
        match feesDestination with
        | None => throw (Error "No token account for referral wallet!")
        | Some feesDestination =>
            (* [Token.createTransferInstruction] encodes [new u64(amount)] *)
            amount <- lift (BN.of_number (parseInt refFeeAmount)) ;;
            ret (transaction
                 ++ [Transfer TOKEN_PROGRAM_ID takeFeesFromAccount feesDestination
                       (publicKey wallet) amount])
        end
    | None => ret transaction
    end ;;
  let transaction :=
    if String.eqb (baseTokenMint pool) SOL_MINT
    then transaction
         ++ [CloseAccount TOKEN_PROGRAM_ID userBaseTokenAccount
               (publicKey wallet) (publicKey wallet)]
    else transaction in
  let transaction :=
    if String.eqb (quoteTokenMint pool) SOL_MINT
    then transaction
         ++ [CloseAccount TOKEN_PROGRAM_ID userQuoteTokenAccount
               (publicKey wallet) (publicKey wallet)]
    else transaction in
  sendTransaction wallet transaction [].

(** ** StakingClient *)

Record StakingTicket := {
  ticket_data : StakingTicketData;
  stakingTicketPublicKey : PublicKey;
}.

Record StakingState := {
  state_data : FarmingStateData;
  statePublicKey : PublicKey;
}.

Record FarmingCalc := {
  calc_data : FarmingCalcData;
  farmingCalcPublicKey : PublicKey;
}.

(** [(item) => item.tokensTotal !== item.tokensUnlocked] *)
Definition farming_open (item : PoolFarmingResponse) : bool :=
  negb (tokensTotal item =? tokensUnlocked item).

(** [createAccountInstruction] of [../transactions]; the rent it asks the
    node for is not kept. *)
Definition createAccountInstruction (size : Z) (wallet : Wallet)
    (programId newAccountPubkey : PublicKey) : M Instruction :=
  ret (CreateAccount size wallet programId newAccountPubkey).

Definition startStaking (params : StartStakingParams.t) : M string :=
  let wallet := StartStakingParams.wallet params in
  let tokenAmount := StartStakingParams.tokenAmount params in
  stakingPool <- getStakingPoolInfo ;;
  let programId := STAKING_PROGRAM_ADDRESS in
  stakingTicket <- Keypair_generate ;;
  stakingTicketInstruction <-
    createAccountInstruction (span STAKING_TICKET_LAYOUT) wallet programId stakingTicket ;;
  tokenAccounts <- getParsedTokenAccountsByOwner (publicKey wallet) ;;
  match List.find (fun item => String.eqb (mint item) (poolTokenMint stakingPool))
          tokenAccounts with
  | None => throw (Error "No account - cannot stake!")
  | Some tokenAccount =>
      match farming stakingPool with
      | None => throw (Error "Dont have any farming tickets - cannot stake!")
      | Some farming =>
          match List.find farming_open farming with
          | None => throw (Error "Dont have farming item - cannot stake!")
          | Some farmingStateItem =>
              let stakingTransaction :=
                Staking (swapToken stakingPool) (farmingState farmingStateItem)
                  (stakingVault stakingPool) (token_pubkey tokenAccount)
                  (publicKey wallet) tokenAmount stakingTicket programId in
              let transaction := [stakingTicketInstruction; stakingTransaction] in
              sendTransaction wallet transaction [stakingTicket]
          end
      end
  end.

Definition endStakingTicket (params : EndStakingTicketParams.t) : M string :=
  let wallet := EndStakingTicketParams.wallet params in
  let stakingVault := EndStakingTicketParams.stakingVault params in
  let transaction : Transaction :=
    [ Unstaking (EndStakingTicketParams.poolPublicKey params)
        (EndStakingTicketParams.farmingState params)
        (EndStakingTicketParams.stakingSnapshots params)
        stakingVault stakingVault
        (EndStakingTicketParams.userStakingTokenAccount params)
        (EndStakingTicketParams.poolSigner params)
        (publicKey wallet) STAKING_PROGRAM_ADDRESS
        (EndStakingTicketParams.stakingTicket params) ] in
  sendTransaction wallet transaction [].

Definition getStakingTickets (params : GetStakingTicketsParams.t)
    : M (list StakingTicket) :=
  let programId := STAKING_PROGRAM_ADDRESS in
  let filters := [dataSize (span STAKING_TICKET_LAYOUT)] in
  let filters :=
    match GetStakingTicketsParams.userKey params with
    | Some userKey =>
        filters
        ++ [memcmp (default 0 (offsetOf STAKING_TICKET_LAYOUT "userKey")) userKey]
    | None => filters
    end in
  tickets <- getProgramAccounts programId None filters ;;
  ret (List.map
         (fun t =>
            let data := decode STAKING_TICKET_LAYOUT (data t) in
            {| ticket_data := data; stakingTicketPublicKey := pubkey t |})
         tickets).

(** The filter of [endStaking]:
    [ticket.endTime.eq(DEFAULT_FARMING_TICKET_END_TIME) &&
     ticket.startTime.lt(new BN(Date.now() / 1000).sub(new BN(3600)))];
    [new BN] of a positive fraction keeps its whole part.  The clock is read
    once for the whole filter, which runs without interruption. *)
Definition ticket_to_close (now_ms : Z) (ticket : StakingTicket) : bool :=
  BN.eq (endTime (ticket_data ticket)) DEFAULT_FARMING_TICKET_END_TIME
  && BN.lt (startTime (ticket_data ticket))
       (BN.sub (BN.trunc (inject_Z now_ms / 1000)%Q) 3600).

Definition endStaking (params : EndStakingParams.t) : M (list string) :=
  let wallet := EndStakingParams.wallet params in
  stakingPool <- getStakingPoolInfo ;;
  let programId := STAKING_PROGRAM_ADDRESS in
  let poolSigner := findProgramAddress [swapToken stakingPool] programId in
  match farming stakingPool with
  | None => throw (Error "Dont have any farming tickets - cannot stake!")
  | Some farming =>
      match List.find farming_open farming with
      | None => throw (Error "Dont have farming item - cannot stake!")
      | Some farmingStateItem =>
          tokenAccounts <- getParsedTokenAccountsByOwner (publicKey wallet) ;;
          tokenAccountPublicKey <-
            match List.find
                    (fun item => String.eqb (mint item) (poolTokenMint stakingPool))
                    tokenAccounts with
            | Some tokenAccount => ret (token_pubkey tokenAccount)
            | None =>
                resp <- createTokenAccountTransaction (publicKey wallet)
                          (poolTokenMint stakingPool) None None ;;
                ret (snd resp)
            end ;;
          tickets <-
            getStakingTickets
              {| GetStakingTicketsParams.userKey := Some (publicKey wallet) |} ;;
          now_ms <- Date_now ;;
          let ticketsToClose := List.filter (ticket_to_close now_ms) tickets in
          match ticketsToClose with
          | [] => throw (Error "No tickets, nothing to check")
          | _ =>
              let promises :=
                List.map
                  (fun ticket =>
                     endStakingTicket
                       {| EndStakingTicketParams.wallet := wallet;
                          EndStakingTicketParams.poolPublicKey := swapToken stakingPool;
                          EndStakingTicketParams.farmingState :=
                            farmingState farmingStateItem;
                          EndStakingTicketParams.stakingSnapshots :=
                            farmingSnapshots farmingStateItem;
                          EndStakingTicketParams.stakingVault := stakingVault stakingPool;
                          EndStakingTicketParams.userStakingTokenAccount :=
                            tokenAccountPublicKey;
                          EndStakingTicketParams.stakingTicket :=
                            stakingTicketPublicKey ticket;
                          EndStakingTicketParams.poolSigner := poolSigner |})
                  ticketsToClose in
              Promise_all promises
          end
      end
  end.

Definition getStakingState (params : GetStakingStateParams.t) : M (list StakingState) :=
  states <-
    getProgramAccounts STAKING_PROGRAM_ADDRESS (Some "finalized"%string)
      [ dataSize (span FARMING_STATE_LAYOUT);
        memcmp (default 0 (offsetOf FARMING_STATE_LAYOUT "pool"))
          (GetStakingStateParams.poolPublicKey params) ] ;;
  ret (List.map
         (fun state =>
            let decodedState := decode FARMING_STATE_LAYOUT (data state) in
            {| state_data := decodedState; statePublicKey := pubkey state |})
         states).

(** The states of [claim] that have a farming calc with tokens: for each
    state the first calc account of its key, kept when its amount is
    positive ([sv.calcAccount?.tokenAmount.gtn(0)]).  The token info that
    [claim] requests for each state is a promise it never awaits; it is
    left out. *)
Definition claim_farmingCalcs (states : list StakingState)
    (calcAccounts : list FarmingCalc) : list (StakingState * option FarmingCalc) :=
  let stateKeys := List.map statePublicKey states in
  let calcAccountsForStates :=
    List.filter
      (fun ca => existsb (String.eqb (calc_farmingState (calc_data ca))) stateKeys)
      calcAccounts in
  List.filter
    (fun sv =>
       match snd sv with
       | Some calcAccount => BN.gtn (calc_tokenAmount (calc_data calcAccount)) 0
       | None => false
       end)
    (List.map
       (fun stakingState =>
          (stakingState,
           List.find
             (fun ca =>
                String.eqb (calc_farmingState (calc_data ca))
                  (statePublicKey stakingState))
             calcAccountsForStates))
       states).

Definition claim (params : ClaimParams.t) : M string :=
  let stakingPool := ClaimParams.stakingPool params in
  let wallet := ClaimParams.wallet params in
  let programId := STAKING_PROGRAM_ADDRESS in
  let poolPublicKey := swapToken stakingPool in
  let poolSigner := findProgramAddress [poolPublicKey] programId in
  match farming stakingPool with
  | None => throw (Error "Dont have any farming tickets - cannot claim!")
  | Some farming =>
      match List.find farming_open farming with
      | None => throw (Error "Dont have farming item - cannot claim!")
      | Some farmingStateItem =>
          tokenAccounts <- getParsedTokenAccountsByOwner (publicKey wallet) ;;
          tokenAccountPublicKey <-
            match List.find
                    (fun item => String.eqb (mint item) (poolTokenMint stakingPool))
                    tokenAccounts with
            | Some tokenAccount => ret (token_pubkey tokenAccount)
            | None =>
                resp <- createTokenAccountTransaction (publicKey wallet)
                          (poolTokenMint stakingPool) None None ;;
                ret (snd resp)
            end ;;
          states <-
            getStakingState {| GetStakingStateParams.poolPublicKey := poolPublicKey |} ;;
          calcs <-
            getProgramAccounts programId None [dataSize (span FARMING_CALC_LAYOUT)] ;;
          let calcAccounts :=
            List.map
              (fun calc =>
                 let data := decode FARMING_CALC_LAYOUT (data calc) in
                 {| calc_data := data; farmingCalcPublicKey := pubkey calc |})
              calcs in
          let farmingCalcs := claim_farmingCalcs states calcAccounts in
          (* farmingCalcs[0].state.statePublicKey *)
          match farmingCalcs with
          | [] => throw (TypeError_undefined "state")
          | first :: _ =>
              let transaction : Transaction :=
                [ WithdrawFarmed (swapToken stakingPool)
                    (farmingState farmingStateItem)
                    (farmingTokenVault farmingStateItem)
                    (statePublicKey (fst first))
                    tokenAccountPublicKey poolSigner (publicKey wallet) programId ] in
              sendTransaction wallet transaction []
          end
      end
  end.

End Clients.

Arguments claim_farmingCalcs : simpl never.

(** ** The static tables of [types.ts]

    The object literals [POOLS] and [PERM_POOLS], in the order of the source,
    and the two exported objects. *)
Definition POOLS : list (string * Pool) := [
  ("RIN_USDC",
   {| poolPublicKey := "Gubmyfw5Ekdp4pkXk9be5yNckSgCdgd7JEThx8SFzCQQ";
      poolMint := "Gathk79qZfJ4G36M7hiL3Ef1P5SDt7Xhm2C1vPhtWkrw";
      baseTokenMint := "E5ndSkaB17Dm7CsD22dvcjfrYSDLCxFcMd6z8ddCk5wp";
      quoteTokenMint := "EPjFWdd5AufqSSqeM2qN1xzybapC8G4wEGGkZwyTDt1v";
      baseTokenVault := "8YuEKfvSwcfNKvdoHijzrUAgEeevj4529m8SddSYQ8FV";
      quoteTokenVault := "5P7J5sPvJmdnNX4JuhGDsNRnTihVMY8q4dHHbbmQUouJ";
      poolVersion := None |});
  ("RIN_SOL",
   {| poolPublicKey := "7nrkzur3LUxgfxr3TBj9GpUsiABCwMgzwtNhHKG4hPYz";
      poolMint := "HFNv9CeUtKFKm7gPoX1QG1NnrPnDhA5W6xqHGxmV6kxX";
      baseTokenMint := "E5ndSkaB17Dm7CsD22dvcjfrYSDLCxFcMd6z8ddCk5wp";
      quoteTokenMint := "So11111111111111111111111111111111111111112";
      baseTokenVault := "3reyueV93V8CxXakMk4FF96uqBibDS9Di7zWgjxhkqt7";
      quoteTokenVault := "3LX2NHkUux6gGjiQXY2nMCnLTr9QuCjguqh7KTwaupV5";
      poolVersion := None |});
  ("mSOL_USDT",
   {| poolPublicKey := "FC4sYMpsMvdsq8hHMEtmWA8xN25W71t2c7RycU5juX35";
      poolMint := "77qHkg6TEe4FuZAr35bthTEadmT4ueWe1xomFFZkwiGQ";
      baseTokenMint := "mSoLzYCxHdYgdzU16g5QSh3i5K3z3KZK7ytfqcJm7So";
      quoteTokenMint := "Es9vMFrzaCERmJfrF4H2FYD4KCoNkY11McCe8BenwNYB";
      baseTokenVault := "4aiKnDHFmNnLsopVsDyRBh8sbVohZYgdGzh3P9orpqNB";
      quoteTokenVault := "HFHGsYQyni5gFMGudaHWpRzN5CejNpHr42PfQ4D6aGZM";
      poolVersion := None |});
  ("mSOL_ETH",
   {| poolPublicKey := "2JANvFVV2M8dv7twzL1EF3PhEJaoJpvSt6PhnjW6AHG6";
      poolMint := "4KeZGuXPq9fyZdt5sfzHMM36mxTf3oSkDaa4Y4gHm9Hz";
      baseTokenMint := "mSoLzYCxHdYgdzU16g5QSh3i5K3z3KZK7ytfqcJm7So";
      quoteTokenMint := "2FPyTwcZLUg1MDrwsyoP4D6s1tM7hAkHYRjkNb5w6Pxk";
      baseTokenVault := "9MaVbwbZw3LgFTNAPfDj4viRAffXFGaAdJWfX3ifouHf";
      quoteTokenVault := "6YwwwDQcQz5qAEipFJXHe3vBMKDcs9nfZXLitEubMxFc";
      poolVersion := None |});
  ("mSOL_BTC",
   {| poolPublicKey := "13FjT6LMUH9LQLQn6KGjJ1GNXKvgzoDSdxvHvAd4hcan";
      poolMint := "9hkYqNM8QSx2vTwspaNg5VvW1LBxKWWgud8pCVdxKYZU";
      baseTokenMint := "mSoLzYCxHdYgdzU16g5QSh3i5K3z3KZK7ytfqcJm7So";
      quoteTokenMint := "9n4nbM75f5Ui33ZbPYXn59EwSgE8CGsHtAeTH5YFeJ9E";
      baseTokenVault := "EhWAErmyrX8nT1eT8HVFw37amsEkm5VjKZH4ZUreDRCs";
      quoteTokenVault := "Fpy5DXqdz7mfLDF8PYKVzxQrYtsaiQu36fLpv6gmGseH";
      poolVersion := None |});
  ("mSOL_USDC",
   {| poolPublicKey := "Af4TpzGpo8Yc61bCNwactPKH9F951tHPzp8XGxWRLNE1";
      poolMint := "H37kHxy82uLoF8t86wK414KzpVJy7uVJ9Kvt5wYsTGPh";
      baseTokenMint := "mSoLzYCxHdYgdzU16g5QSh3i5K3z3KZK7ytfqcJm7So";
      quoteTokenMint := "EPjFWdd5AufqSSqeM2qN1xzybapC8G4wEGGkZwyTDt1v";
      baseTokenVault := "BEPiCaDinG2uLSBKjiVGAdDV32dwiemANKJYejtpbT2h";
      quoteTokenVault := "9CDfE5NfRcQomM7bZ2fCBLe9XKebmu8QY5tBHzojS8d8";
      poolVersion := None |});
  ("SOL_USDC",
   {| poolPublicKey := "4GUniSDrCAZR3sKtLa1AWC8oyYubZeKJQ8KraQmy3Wt5";
      poolMint := "3sbMDzGtyHAzJqzxE7DPdLMhrsxQASYoKLkHMYJPuWkp";
      baseTokenMint := "So11111111111111111111111111111111111111112";
      quoteTokenMint := "EPjFWdd5AufqSSqeM2qN1xzybapC8G4wEGGkZwyTDt1v";
      baseTokenVault := "CLt1DtCioiByTizqLhxLAXweXr2g9D4ZEAStibACBg4L";
      quoteTokenVault := "2M1JTZsc71V6FhRNjCDSttcs17HewC4KNNNkkc81L3gB";
      poolVersion := None |});
  ("mSOL_UST",
   {| poolPublicKey := "EnKhda5n5LYbZjPv7d7WChkSXzo5RgV8eSVVkGCXsQUn";
      poolMint := "BE7eTJ8DB7xTu6sKsch4gWDCXbD48PLGesRLx7E1Qce4";
      baseTokenMint := "mSoLzYCxHdYgdzU16g5QSh3i5K3z3KZK7ytfqcJm7So";
      quoteTokenMint := "9vMJfxuKxXBoEa7rM12mYLMwTacLMLDJqHozw96WQL8i";
      baseTokenVault := "29jNBEn9VEvM5ppVLGThrGc7ExnT3WyNhYyqbizpyNFK";
      quoteTokenVault := "6RmiUpwLquyQWVMeYx4oktQvtCuUH48fzRMwbC5kUa4h";
      poolVersion := None |});
  ("mSOL_MNGO",
   {| poolPublicKey := "CAHchWN1xoxNvXmqmmj6U834ip585rXZbh9NkvE9vTea";
      poolMint := "EotLYRsnRVqR3euN24P9PMXCqJv1WLsV8kJxR9o1y4U7";
      baseTokenMint := "mSoLzYCxHdYgdzU16g5QSh3i5K3z3KZK7ytfqcJm7So";
      quoteTokenMint := "MangoCzJ36AjZyKwVj3VnYU4GTonjfVEnJmvvWaxLac";
      baseTokenVault := "FE3PR8sbojxrxWoTzuLHhDX5hAXfPocS9wCruSJ2y7BF";
      quoteTokenVault := "CJzgYvbf2pv6HiTu13ymSVDSRmVQFoF8rkFYvwDNWVJL";
      poolVersion := None |})
]%string.

Definition PERM_POOLS : list (string * Pool) := [
  ("SLX_USDC",
   {| poolPublicKey := "Hv5F48Br7dbZvUpKFuyxxuaC4v95C1uyDGhdkFFCc9Gf";
      poolMint := "E3XeF4QCTMMo8P5yrgqNMvoRJMyVPTNHhWkbRCgoeAfC";
      baseTokenMint := "AASdD9rAefJ4PP7iM89MYUsQEyCQwvBofhceZUGDh5HZ";
      quoteTokenMint := "EPjFWdd5AufqSSqeM2qN1xzybapC8G4wEGGkZwyTDt1v";
      baseTokenVault := "BWwtpKxkKJSe4Vv9Ha6iGxdgWwxvy2k6qwooE6WjwUhG";
      quoteTokenVault := "EF9M6hDSSTZhwdSrpKvkHn33EafZfRtaFQ9rq6MfqALm";
      poolVersion := None |});
  ("DATE_USDC",
   {| poolPublicKey := "F5MWosWE681D32N5QHbWWaJrXaMAD2PHhDsEr2Sac56X";
      poolMint := "3gigDvmgCuz2gWRhr6iSxH1gCd1k4LpYoUsxEjLWJcLB";
      baseTokenMint := "Ce3PSQfkxT5ua4r2JqCoWYrMwKWC5hEzwsrT9Hb7mAz9";
      quoteTokenMint := "EPjFWdd5AufqSSqeM2qN1xzybapC8G4wEGGkZwyTDt1v";
      baseTokenVault := "A9FRb9MyAipfzEwkbF5euJ2dE7Bcj1GHBhdSdN8KBkoE";
      quoteTokenVault := "EVdVfqSEhumJmL3adAs4qCpEGGBGUoTdqG1krqMDboi4";
      poolVersion := None |});
  ("OOGI_USDC",
   {| poolPublicKey := "6sKC96Z35vCNcDmA3ZbBd9Syx5gnTJdyNKVEdzpBE5uX";
      poolMint := "46EsyeSzs6tBoTRmFiGfDzGQe13LP337C7mMtdNMkgcU";
      baseTokenMint := "H7Qc9APCWWGDVxGD5fJHmLTmdEgT9GFatAKFNg6sHh8A";
      quoteTokenMint := "EPjFWdd5AufqSSqeM2qN1xzybapC8G4wEGGkZwyTDt1v";
      baseTokenVault := "8fJUjr1o5i48R4URoQXDVbXmjrAUcRZWFkc2U2TMvgEd";
      quoteTokenVault := "AdgHaAavPxwjBVw966dZPA9h9MbkbYXAXViGiQRBXMNJ";
      poolVersion := None |})
]%string.

Definition AUTHORIZED_POOLS : gmap string Pool := list_to_map POOLS.
Definition PERMISSIONLESS_POOLS : gmap string Pool := list_to_map PERM_POOLS.

(** A world in which the module [types.ts] is loaded. *)
Definition tables_loaded (w : World) : Prop :=
  AUTHORIZED_POOLS_object w = AUTHORIZED_POOLS
  /\ PERMISSIONLESS_POOLS_object w = PERMISSIONLESS_POOLS.

(** ** Sample values, to run the embedding on examples *)

Module Sample.

Local Open Scope string_scope.
Local Open Scope Z_scope.

Definition byte_value (b : Byte.byte) : Z := Z.of_N (Byte.to_N b).

(** A toy ticket layout: the first byte is the start time, the second the
    end time, [0xff] standing for the default end time. *)
Definition decode_ticket (end_default : Z) (buffer : Buffer) : Z * Z :=
  match buffer with
  | b0 :: b1 :: _ =>
      (byte_value b0, if byte_value b1 =? 255 then end_default else byte_value b1)
  | _ => (0, 0)
  end.

(** A toy calc layout: the first byte names the farming state, the second
    is the token amount. *)
Definition decode_calc (buffer : Buffer) : PublicKey * Z :=
  match buffer with
  | b0 :: b1 :: _ =>
      (if byte_value b0 =? 1 then "state1" else "state2", byte_value b1)
  | _ => ("", 0)
  end.

Definition layout {T} (size : Z) (dec : Buffer -> T) : Layout T :=
  {| span := size; offsetOf := fun _ => Some 8; decode := dec |}.

(** A toy version-2 pool layout: the first byte is the curve, [0x2b] standing
    for the stable curve. *)
Definition decode_curve (buffer : Buffer) : option CURVE :=
  match buffer with
  | b0 :: _ => Some (if byte_value b0 =? 43 then STABLE else PRODUCT)
  | [] => None
  end.

Definition imports : Imports :=
  {| POOLS_PROGRAM_ADDRESS := "AMM55ShdkoGRB5jVYPjWziwk8m5MpwyDgsMWHaMSQWH6";
     POOLS_V2_PROGRAM_ADDRESS := "CURVGoZn8zycx6FXwwevgBTB2gVvdbGTEpvMJDbgs2t4";
     STAKING_PROGRAM_ADDRESS := "rinajRPUgiiW2rG6uieXvcNNQNaWr9ZcMmqo28VvXfa";
     TOKEN_PROGRAM_ID := "TokenkegQfeZyiNwAJbNbGKPFXCWuBvf9Ss623VQ5DA";
     SOL_MINT := "So11111111111111111111111111111111111111112";
     PRECISION_NOMINATOR := 1000000;
     DEFAULT_FARMING_TICKET_END_TIME := 9223372036854775807;
     PoolResponse := Buffer;
     POOL_LAYOUT := layout 474 (fun b => b);
     PoolV2Response := Buffer;
     POOL_V2_LAYOUT := layout 493 (fun b => b);
     decoded_curveType := decode_curve;
     StakingTicketData := Z * Z;
     STAKING_TICKET_LAYOUT := layout 2 (decode_ticket 9223372036854775807);
     startTime := fst;
     endTime := snd;
     FarmingStateData := Buffer;
     FARMING_STATE_LAYOUT := layout 1 (fun b => b);
     FarmingCalcData := PublicKey * Z;
     FARMING_CALC_LAYOUT := layout 2 decode_calc;
     calc_farmingState := fst;
     calc_tokenAmount := snd;
     accountDiscriminator := fun _ => [];
     base58_encode := fun _ => ""%string;
     findProgramAddress := fun seeds programId =>
       String.concat "/" ("signer" :: programId :: seeds) |}.

Definition alice : Wallet := {| publicKey := "alice" |}.

Definition RIN_USDC : Pool :=
  {| poolPublicKey := "Gubmyfw5Ekdp4pkXk9be5yNckSgCdgd7JEThx8SFzCQQ";
     poolMint := "Gathk79qZfJ4G36M7hiL3Ef1P5SDt7Xhm2C1vPhtWkrw";
     baseTokenMint := "E5ndSkaB17Dm7CsD22dvcjfrYSDLCxFcMd6z8ddCk5wp";
     quoteTokenMint := "EPjFWdd5AufqSSqeM2qN1xzybapC8G4wEGGkZwyTDt1v";
     baseTokenVault := "8YuEKfvSwcfNKvdoHijzrUAgEeevj4529m8SddSYQ8FV";
     quoteTokenVault := "5P7J5sPvJmdnNX4JuhGDsNRnTihVMY8q4dHHbbmQUouJ";
     poolVersion := None |}.

Definition staking_pool : StakingPoolInfo :=
  {| swapToken := "stakingPool";
     poolTokenMint := "RIN";
     stakingVault := "vault";
     farming :=
       Some [ {| tokensTotal := 100; tokensUnlocked := 100; farmingState := "state1";
                 farmingSnapshots := "snapshots1"; farmingTokenVault := "rewards1" |};
              {| tokensTotal := 100; tokensUnlocked := 40; farmingState := "state2";
                 farmingSnapshots := "snapshots2"; farmingTokenVault := "rewards2" |} ] |}.

(** The node answers with three staking tickets (the first and the third
    old enough and open, the second closed), two farming states and one
    calc account; alice owns a RIN and a USDC token account, bob none. *)
Definition program_accounts (programId : PublicKey) (commitment : option string)
    (filters : list GetProgramAccountsFilter) : list ProgramAccount :=
  match filters with
  | [dataSize 2; memcmp _ _] =>
      [ {| pubkey := "ticket1"; data := [Byte.x01; Byte.xff] |};
        {| pubkey := "ticket2"; data := [Byte.x02; Byte.x09] |};
        {| pubkey := "ticket3"; data := [Byte.x03; Byte.xff] |} ]
  | [dataSize 1; memcmp _ _] =>
      [ {| pubkey := "state1"; data := [Byte.x00] |};
        {| pubkey := "state2"; data := [Byte.x00] |} ]
  | [dataSize 2] =>
      [ {| pubkey := "calc1"; data := [Byte.x02; Byte.x07] |} ]
  | _ =>
      [ {| pubkey := "pool1"; data := [Byte.x2a] |};
        {| pubkey := "pool2"; data := [Byte.x2b] |} ]
  end.

Definition token_accounts (owner : PublicKey) : list ParsedTokenAccount :=
  if String.eqb owner "alice" then
    [ {| token_pubkey := "aliceRIN"; mint := "RIN" |};
      {| token_pubkey := "aliceUSDC";
         mint := "EPjFWdd5AufqSSqeM2qN1xzybapC8G4wEGGkZwyTDt1v" |} ]
  else [].

Definition world : World :=
  {| programAccounts := program_accounts;
     parsedTokenAccountsByOwner := token_accounts;
     mintInfo_supply := fun _ => 1000000;
     tokenAccount_amount := fun _ => 250000;
     stakingPoolInfo := staking_pool;
     now := 4000000;
     keypairs := fun n => String.append "key" (String (Ascii.ascii_of_nat (48 + n)) "");
     generated := 0;
     accepts := fun _ => Some "txid"%string;
     schedule := [];
     sent := [];
     AUTHORIZED_POOLS_object := AUTHORIZED_POOLS;
     PERMISSIONLESS_POOLS_object := PERMISSIONLESS_POOLS |}.

(** Carol owns a USDC token account. *)
Definition token_accounts_with_carol (owner : PublicKey) : list ParsedTokenAccount :=
  if String.eqb owner "carol" then
    [ {| token_pubkey := "carolUSDC";
         mint := "EPjFWdd5AufqSSqeM2qN1xzybapC8G4wEGGkZwyTDt1v" |} ]
  else token_accounts owner.

Definition world_with_carol : World :=
  {| programAccounts := program_accounts;
     parsedTokenAccountsByOwner := token_accounts_with_carol;
     mintInfo_supply := fun _ => 1000000;
     tokenAccount_amount := fun _ => 250000;
     stakingPoolInfo := staking_pool;
     now := 4000000;
     keypairs := fun n => String.append "key" (String (Ascii.ascii_of_nat (48 + n)) "");
     generated := 0;
     accepts := fun _ => Some "txid"%string;
     schedule := [];
     sent := [];
     AUTHORIZED_POOLS_object := AUTHORIZED_POOLS;
     PERMISSIONLESS_POOLS_object := PERMISSIONLESS_POOLS |}.

(** Alice sells RIN for USDC (the income side is the quote side). *)
Definition swap_params (referral : option ReferralParams.t) (slippage : option Q)
    (minIncomeAmount : Z) : SwapParams.t :=
  {| SwapParams.pool := RIN_USDC;
     SwapParams.referralParams := referral;
     SwapParams.slippage := slippage;
     SwapParams.side := ASK;
     SwapParams.wallet := alice;
     SwapParams.outcomeAmount := 5000;
     SwapParams.minIncomeAmount := minIncomeAmount;
     SwapParams.userBaseTokenAccount := Some "aliceRIN";
     SwapParams.userQuoteTokenAccount := Some "aliceUSDC" |}.

Definition referral (account : PublicKey) (create : bool) : ReferralParams.t :=
  {| ReferralParams.referralPercent := 1;
     ReferralParams.referralAccount := account;
     ReferralParams.createTokenAccounts := create |}.

Definition deposit_params (maxBaseTokenAmount : Z) : DepositLiquidityParams.t :=
  {| DepositLiquidityParams.pool := RIN_USDC;
     DepositLiquidityParams.maxBaseTokenAmount := maxBaseTokenAmount;
     DepositLiquidityParams.wallet := alice;
     DepositLiquidityParams.slippage := None;
     DepositLiquidityParams.userPoolTokenAccount := Some "aliceLP" |}.

Definition withdraw_params (base quote : option Z) : WithdrawLiquidityParams.t :=
  {| WithdrawLiquidityParams.pool := RIN_USDC;
     WithdrawLiquidityParams.poolTokenAmount := 40;
     WithdrawLiquidityParams.slippage := None;
     WithdrawLiquidityParams.wallet := alice;
     WithdrawLiquidityParams.baseTokenReturnedMin := base;
     WithdrawLiquidityParams.quoteTokenReturnedMin := quote;
     WithdrawLiquidityParams.userBaseTokenAccount := Some "aliceRIN";
     WithdrawLiquidityParams.userQuoteTokenAccount := Some "aliceUSDC" |}.

(** The same world with another supply of the pool mints and another amount
    in the vaults. *)
Definition world_with_amounts (supply amount : Z) : World :=
  {| programAccounts := program_accounts;
     parsedTokenAccountsByOwner := token_accounts;
     mintInfo_supply := fun _ => supply;
     tokenAccount_amount := fun _ => amount;
     stakingPoolInfo := staking_pool;
     now := 4000000;
     keypairs := fun n => String.append "key" (String (Ascii.ascii_of_nat (48 + n)) "");
     generated := 0;
     accepts := fun _ => Some "txid"%string;
     schedule := [];
     sent := [];
     AUTHORIZED_POOLS_object := AUTHORIZED_POOLS;
     PERMISSIONLESS_POOLS_object := PERMISSIONLESS_POOLS |}.

(** Bob owns no token account. *)
Definition bob : Wallet := {| publicKey := "bob" |}.

(** Alice claims the rewards of the staking pool. *)
Definition claim_params : ClaimParams.t :=
  {| ClaimParams.stakingPool := staking_pool; ClaimParams.wallet := alice |}.

End Sample.

(** ** The vocabulary of the properties *)

Section Vocabulary.
Context {imports : Imports}.

(** What [getPools], [getV2Pools] and [getStakingTickets] make of one account. *)
Definition pool_of_account (a : ProgramAccount) (r : PoolRpcResponse) : Prop :=
  v1_account r = decode POOL_LAYOUT (data a)
  /\ v1_poolPublicKey r = pubkey a
  /\ v1_poolVersion r = V1
  /\ v1_curveType r = PRODUCT.

(** Of a version-2 pool the curve is what the layout decoded. *)
Definition v2_pool_of_account (a : ProgramAccount) (r : PoolRpcV2Response) : Prop :=
  v2_account r = decode POOL_V2_LAYOUT (data a)
  /\ v2_poolPublicKey r = pubkey a
  /\ v2_poolVersion r = V2
  /\ v2_curveType r = decoded_curveType (decode POOL_V2_LAYOUT (data a)).

(** The same as C3 states it, [getV2Pools] doing what [getPools] does: the
    curve set to [CURVE.PRODUCT]. *)
Definition v2_pool_of_account_stated (a : ProgramAccount) (r : PoolRpcV2Response)
    : Prop :=
  v2_account r = decode POOL_V2_LAYOUT (data a)
  /\ v2_poolPublicKey r = pubkey a
  /\ v2_poolVersion r = V2
  /\ v2_curveType r = Some PRODUCT.

Definition ticket_of_account (a : ProgramAccount) (r : StakingTicket) : Prop :=
  ticket_data r = decode STAKING_TICKET_LAYOUT (data a)
  /\ stakingTicketPublicKey r = pubkey a.

(** A call of [sendTransaction] without partial signers. *)
Definition send_call (wallet : Wallet) (transaction : Transaction) : SendTransaction :=
  {| send_wallet := wallet; send_transaction := transaction;
     send_partialSigners := [] |}.

(** What a method returns after [sendTransaction] answered [outcome]. *)
Definition send_result (outcome : option string) : Result string :=
  match outcome with
  | Some txid => Ok txid
  | None => Throw SendTransactionError
  end.

(** The errors a method makes itself: an [Error] with a message, or the
    [TypeError] of the runtime; they carry no further structure. *)
Definition simple_error (e : Exception) : Prop :=
  match e with
  | Error _ | TypeError_undefined _ => True
  | SendTransactionError => False
  end.

(** *** Swap *)

Definition swap_incomeMint (params : SwapParams.t) : PublicKey :=
  let pool := SwapParams.pool params in
  if SIDE_eqb (SwapParams.side params) ASK
  then quoteTokenMint pool else baseTokenMint pool.

(** The token account of the referral for the income mint, when the node
    knows one. *)
Definition referral_destination (params : SwapParams.t) (w : World)
    : option PublicKey :=
  match SwapParams.referralParams params with
  | Some r =>
      option_map token_pubkey
        (List.find (fun wt => String.eqb (mint wt) (swap_incomeMint params))
           (parsedTokenAccountsByOwner w (ReferralParams.referralAccount r)))
  | None => None
  end.

(** The referral owns no such account and [createTokenAccounts] is set. *)
Definition referral_account_created (params : SwapParams.t) (w : World) : bool :=
  match SwapParams.referralParams params, referral_destination params w with
  | Some r, None => ReferralParams.createTokenAccounts r
  | _, _ => false
  end.

(** The instructions before and after the referral's part; the token
    accounts that are created get [lamportsBase] and [lamportsQuote]. *)
Definition swap_head_with (params : SwapParams.t) (userBase userQuote : PublicKey)
    (lamportsBase lamportsQuote : option Z) (minIncome : Z) : Transaction :=
  let pool := SwapParams.pool params in
  let wallet := publicKey (SwapParams.wallet params) in
  let version := default V1 (poolVersion pool) in
  match SwapParams.userBaseTokenAccount params with
  | None => [CreateTokenAccount wallet (baseTokenMint pool) lamportsBase None userBase]
  | Some _ => []
  end
  ++ match SwapParams.userQuoteTokenAccount params with
     | None =>
         [CreateTokenAccount wallet (quoteTokenMint pool) lamportsQuote None userQuote]
     | Some _ => []
     end
  ++ [Swap params minIncome
        (findProgramAddress [poolPublicKey pool] (getPoolAddress version))
        wallet userBase userQuote version].

(** The lamports [swap] asks for: on the side of the outcome, the number
    [parseInt(outcomeAmount.toString(), 10) + TOKEN_ACCOUNT_RENT_LAMPORTS]. *)
Definition swap_lamports (params : SwapParams.t) (outcome : SIDE) : option Z :=
  if SIDE_eqb (SwapParams.side params) outcome
  then Some (Number_add (parseInt (SwapParams.outcomeAmount params))
               TOKEN_ACCOUNT_RENT_LAMPORTS)
  else None.

Definition swap_head (params : SwapParams.t) (userBase userQuote : PublicKey)
    (minIncome : Z) : Transaction :=
  swap_head_with params userBase userQuote
    (swap_lamports params ASK) (swap_lamports params BID) minIncome.


Definition swap_tail (params : SwapParams.t) (userBase userQuote : PublicKey)
    : Transaction :=
  let pool := SwapParams.pool params in
  let wallet := publicKey (SwapParams.wallet params) in
  (if String.eqb (baseTokenMint pool) SOL_MINT
   then [CloseAccount TOKEN_PROGRAM_ID userBase wallet wallet] else [])
  ++ (if String.eqb (quoteTokenMint pool) SOL_MINT
      then [CloseAccount TOKEN_PROGRAM_ID userQuote wallet wallet] else []).

(** The referral's part: the creation of its token account when it has none,
    and the transfer of the fee from the user's income account. *)
Definition swap_referral_part (params : SwapParams.t) (w : World)
    (userBase userQuote destination : PublicKey) (fee : Z) : Transaction :=
  let wallet := publicKey (SwapParams.wallet params) in
  match SwapParams.referralParams params with
  | Some r =>
      (if referral_account_created params w
       then [CreateTokenAccount (ReferralParams.referralAccount r)
               (swap_incomeMint params) None (Some wallet) destination]
       else [])
      ++ [Transfer TOKEN_PROGRAM_ID
            (if SIDE_eqb (SwapParams.side params) ASK then userQuote else userBase)
            destination wallet fee]
  | None => []
  end.

(** The transaction [swap] hands to [sendTransaction], with the values it
    computed on the way. *)
Definition swap_transaction_of (params : SwapParams.t) (w : World)
    (tx : Transaction) : Prop :=
  exists userBase userQuote minIncome destination fee,
    (forall a, SwapParams.userBaseTokenAccount params = Some a -> userBase = a)
    /\ (forall a, SwapParams.userQuoteTokenAccount params = Some a -> userQuote = a)
    /\ swap_minIncomeAmount (SwapParams.minIncomeAmount params)
         (default (1 # 1000)%Q (SwapParams.slippage params)) = Ok minIncome
    /\ (forall r, SwapParams.referralParams params = Some r ->
          swap_refFeeAmount minIncome (ReferralParams.referralPercent r) = Ok fee
          /\ Z.abs fee < 2 ^ 53
          /\ (referral_destination params w = Some destination
              \/ referral_account_created params w = true))
    /\ tx = swap_head params userBase userQuote minIncome
            ++ swap_referral_part params w userBase userQuote destination fee
            ++ swap_tail params userBase userQuote.



(** The amounts in the words of the specification. *)
Definition minIncome_stated (minIncomeAmount : Z) (slippage : Q) : Z :=
  Qfloor (inject_Z minIncomeAmount * (1000 - 1000 * slippage) / 1000)%Q.


Definition creationSize_stated (supply maxBaseTokenAmount amount : Z)
    (slippage : Q) : Z :=
  Qfloor (inject_Z (supply * maxBaseTokenAmount / amount) * (1 - slippage))%Q.

Definition returnedMin_stated (returnedMin : Z) (slippage : Q) : Z :=
  Qfloor (inject_Z returnedMin * (1 - slippage))%Q.

(** The amounts an instruction carries, and those of the transactions
    handed to [sendTransaction]. *)
Definition instruction_amounts (i : Instruction) : list Z :=
  match i with
  | DepositLiquidity _ _ _ _ creationSize _ => [creationSize]
  | WithdrawLiquidity _ _ _ baseTokenReturnedMin quoteTokenReturnedMin _ _ _ =>
      [baseTokenReturnedMin; quoteTokenReturnedMin]
  | Swap _ minIncomeAmount _ _ _ _ _ => [minIncomeAmount]
  | Transfer _ _ _ _ amount => [amount]
  | _ => []
  end.

Definition sent_amounts (w : World) : list Z :=
  concat (List.map
            (fun call => concat (List.map instruction_amounts (send_transaction (fst call))))
            (sent w)).

(** *** Pool versions *)

(** The instructions the pool client builds for a program of pools. *)
Definition pool_instruction (i : Instruction) : bool :=
  match i with
  | DepositLiquidity _ _ _ _ _ _ | WithdrawLiquidity _ _ _ _ _ _ _ _
  | Swap _ _ _ _ _ _ _ => true
  | _ => false
  end.

(** Such an instruction is built for [version] of the pools program: its
    pool signer is derived from that program's address, and it names the
    program ([depositLiquidity], [withdrawLiquidity]) or the version
    ([swap]). *)
Definition built_for (version : PoolVersion) (pool : Pool) (i : Instruction) : Prop :=
  let program := getPoolAddress version in
  let signer := findProgramAddress [poolPublicKey pool] program in
  match i with
  | DepositLiquidity _ _ poolSigner _ _ programId =>
      poolSigner = signer /\ programId = program
  | WithdrawLiquidity _ _ _ _ _ poolSigner _ programId =>
      poolSigner = signer /\ programId = program
  | Swap _ _ poolSigner _ _ _ poolVersion =>
      poolSigner = signer /\ poolVersion = version
  | _ => True
  end.

(** A method treats the pool as [version]: whenever it hands a transaction
    to [sendTransaction], it is one transaction, with an instruction for the
    pools program in it, and what is in it is built for [version]. *)
Definition treats_as (version : PoolVersion) (pool : Pool) (m : M string) : Prop :=
  forall w,
    (sent (snd (m w)) = sent w /\ exists msg, fst (m w) = Throw (Error msg))
    \/ exists call outcome,
         sent (snd (m w)) = sent w ++ [(call, outcome)]
         /\ fst (m w) = send_result outcome
         /\ Exists (fun i => pool_instruction i = true) (send_transaction call)
         /\ Forall (built_for version pool) (send_transaction call).

(** A method submits for [version] in the world [w]: it hands one
    transaction to [sendTransaction], with an instruction for the pools
    program in it, and what is in it is built for [version]. *)
Definition submits_for (version : PoolVersion) (pool : Pool) (m : M string)
    (w : World) : Prop :=
  exists call outcome,
    sent (snd (m w)) = sent w ++ [(call, outcome)]
    /\ fst (m w) = send_result outcome
    /\ Exists (fun i => pool_instruction i = true) (send_transaction call)
    /\ Forall (built_for version pool) (send_transaction call).

(** Calls that the methods carry through to [sendTransaction]: a slippage
    between 0 and 1 and, for a deposit, a base vault that is not empty; for
    a withdrawal, both minimums given or a supply of pool tokens that is not
    zero; for a swap with a referral, amounts below 2^53, a percent between
    0 and 100 and a token account of the referral, owned or to be created. *)
Definition deposit_ready (params : DepositLiquidityParams.t) (w : World) : Prop :=
  let pool := DepositLiquidityParams.pool params in
  let slippage := default (1 # 100)%Q (DepositLiquidityParams.slippage params) in
  tokenAccount_amount w (baseTokenVault pool) <> 0
  /\ (0 <= slippage)%Q /\ (slippage <= 1)%Q.

Definition withdraw_ready (params : WithdrawLiquidityParams.t) (w : World) : Prop :=
  let pool := WithdrawLiquidityParams.pool params in
  let slippage := default (1 # 1000)%Q (WithdrawLiquidityParams.slippage params) in
  (0 <= slippage)%Q /\ (slippage <= 1)%Q
  /\ ((WithdrawLiquidityParams.baseTokenReturnedMin params <> None
       /\ WithdrawLiquidityParams.quoteTokenReturnedMin params <> None)
      \/ mintInfo_supply w (poolMint pool) <> 0).

Definition swap_ready (params : SwapParams.t) (w : World) : Prop :=
  let slippage := default (1 # 1000)%Q (SwapParams.slippage params) in
  (0 <= slippage)%Q /\ (slippage <= 1)%Q
  /\ match SwapParams.referralParams params with
     | None => True
     | Some r =>
         0 <= SwapParams.minIncomeAmount params < 2 ^ 53
         /\ (0 <= ReferralParams.referralPercent r)%Q
         /\ (ReferralParams.referralPercent r <= 100)%Q
         /\ 0 < PRECISION_NOMINATOR
         /\ (referral_destination params w <> None
             \/ ReferralParams.createTokenAccounts r = true)
     end.

(** *** Staking *)

(** A ticket qualifies, in the words of the specification: its end time is
    the default one and it started more than 3600 seconds before now (the
    clock in whole seconds). *)
Definition ticket_qualifies (now_ms : Z) (ticket : StakingTicket) : Prop :=
  endTime (ticket_data ticket) = DEFAULT_FARMING_TICKET_END_TIME
  /\ startTime (ticket_data ticket) + 3600 < now_ms / 1000.

(** The call of [sendTransaction] that closes a ticket. *)
Definition unstaking_call (wallet : Wallet) (stakingPool : StakingPoolInfo)
    (farmingStateItem : PoolFarmingResponse) (userStakingTokenAccount : PublicKey)
    (ticket : StakingTicket) : SendTransaction :=
  send_call wallet
    [Unstaking (swapToken stakingPool) (farmingState farmingStateItem)
       (farmingSnapshots farmingStateItem) (stakingVault stakingPool)
       (stakingVault stakingPool) userStakingTokenAccount
       (findProgramAddress [swapToken stakingPool] STAKING_PROGRAM_ADDRESS)
       (publicKey wallet) STAKING_PROGRAM_ADDRESS (stakingTicketPublicKey ticket)].

(** The token account of the wallet for the staking pool's mint. *)
Definition staking_token_account (w : World) (wallet : Wallet)
    : option ParsedTokenAccount :=
  List.find (fun item => String.eqb (mint item) (poolTokenMint (stakingPoolInfo w)))
    (parsedTokenAccountsByOwner w (publicKey wallet)).

(** The world after the preparations of [endStaking], and the token account
    it names in the instructions: the wallet's one, or a fresh key. *)
Definition after_token_account (w : World) (wallet : Wallet) : World :=
  match staking_token_account w wallet with
  | Some _ => w
  | None => set_generated (S (generated w)) w
  end.

Definition user_staking_account (w : World) (wallet : Wallet) : PublicKey :=
  match staking_token_account w wallet with
  | Some tokenAccount => token_pubkey tokenAccount
  | None => keypairs w (generated w)
  end.

(** The tickets of the wallet, as [getStakingTickets] decodes them. *)
Definition tickets_of (w : World) (wallet : Wallet) : list StakingTicket :=
  match getStakingTickets
          {| GetStakingTicketsParams.userKey := Some (publicKey wallet) |} w with
  | (Ok tickets, _) => tickets
  | (Throw _, _) => []
  end.

(** *** The tables *)

Definition same_tables (w w' : World) : Prop :=
  AUTHORIZED_POOLS_object w' = AUTHORIZED_POOLS_object w
  /\ PERMISSIONLESS_POOLS_object w' = PERMISSIONLESS_POOLS_object w.

(** A method leaves the tables as they are, whatever it returns. *)
Definition keeps_tables {A} (m : M A) : Prop :=
  forall w, same_tables w (snd (m w)).

(** *** What a transaction carries *)

(** The amounts and the accounts of the instructions, by kind. *)
Definition deposit_creationSize_of (i : Instruction) : option Z :=
  match i with
  | DepositLiquidity _ _ _ _ creationSize _ => Some creationSize
  | _ => None
  end.

Definition withdraw_minimums_of (i : Instruction) : option (Z * Z) :=
  match i with
  | WithdrawLiquidity _ _ _ baseTokenReturnedMin quoteTokenReturnedMin _ _ _ =>
      Some (baseTokenReturnedMin, quoteTokenReturnedMin)
  | _ => None
  end.

Definition swap_minIncome_of (i : Instruction) : option Z :=
  match i with
  | Swap _ minIncomeAmount _ _ _ _ _ => Some minIncomeAmount
  | _ => None
  end.

Definition transfer_amount_of (i : Instruction) : option Z :=
  match i with
  | Transfer _ _ _ _ amount => Some amount
  | _ => None
  end.

(** The account an instruction creates, and the token account an unstaking
    instruction pays into. *)
Definition created_account (i : Instruction) : option PublicKey :=
  match i with
  | CreateTokenAccount _ _ _ _ newAccountPubkey => Some newAccountPubkey
  | CreateAccount _ _ _ newAccountPubkey => Some newAccountPubkey
  | _ => None
  end.

Definition unstaking_account (i : Instruction) : option PublicKey :=
  match i with
  | Unstaking _ _ _ _ _ userStakingTokenAccount _ _ _ _ => Some userStakingTokenAccount
  | _ => None
  end.

(** *** Slippage on the liquidity amounts *)

(** What [muln(1 - slippage)] made of [amount]: the result is not negative
    and not above the amount; it is the amount itself when the slippage is
    0, and 0 when the slippage is 1; when the amount fits one 26-bit word of
    bn.js, it is within one unit of the floor of amount * (1 - slippage),
    the rounding of the numbers moving it by no more. *)
Definition slippage_applied (amount result : Z) (slippage : Q) : Prop :=
  0 <= result <= amount
  /\ ((slippage == 0)%Q -> result = amount)
  /\ ((slippage == 1)%Q -> result = 0)
  /\ (amount < BN.word_base ->
      returnedMin_stated amount slippage - 1 <= result
      <= returnedMin_stated amount slippage + 1).

(** The minimums a withdrawal starts from: those of the parameters, and for
    an absent one the share of the vault that the pool tokens stand for. *)
Definition withdraw_requested (params : WithdrawLiquidityParams.t) (w : World)
    : Z * Z :=
  let pool := WithdrawLiquidityParams.pool params in
  let supply := mintInfo_supply w (poolMint pool) in
  let poolTokenAmount := WithdrawLiquidityParams.poolTokenAmount params in
  (default (tokenAccount_amount w (baseTokenVault pool) * poolTokenAmount / supply)
     (WithdrawLiquidityParams.baseTokenReturnedMin params),
   default (tokenAccount_amount w (quoteTokenVault pool) * poolTokenAmount / supply)
     (WithdrawLiquidityParams.quoteTokenReturnedMin params)).

(** *** Submissions *)

(** A step submits nothing, leaves the network's answers as they are, and
    throws nothing but errors without structure. *)
Definition silent {A} (m : M A) : Prop :=
  forall w,
    sent (snd (m w)) = sent w
    /\ accepts (snd (m w)) = accepts w
    /\ forall e, fst (m w) = Throw e -> simple_error e.

(** A method hands at most one transaction to [sendTransaction]: either it
    throws an error of its own and has submitted nothing, or it has made
    one call, and returns what the network answered to it. *)
Definition submits_at_most_once (m : M string) : Prop :=
  forall w,
    (sent (snd (m w)) = sent w /\ exists e, fst (m w) = Throw e /\ simple_error e)
    \/ exists call,
         sent (snd (m w)) = sent w ++ [(call, accepts w call)]
         /\ fst (m w) = send_result (accepts w call).

(** *** Claiming *)

(** The first token account of [owner] for a mint, as the node lists them,
    and the account [claim] names: that one, or the key of the token account
    it asked to have created. *)
Definition token_account_for (w : World) (owner : PublicKey) (tokenMint : string)
    : option ParsedTokenAccount :=
  List.find (fun item => String.eqb (mint item) tokenMint)
    (parsedTokenAccountsByOwner w owner).

Definition claim_token_account (w : World) (owner : PublicKey) (tokenMint : string)
    : PublicKey :=
  match token_account_for w owner tokenMint with
  | Some tokenAccount => token_pubkey tokenAccount
  | None => keypairs w (generated w)
  end.

(** The farming states of a pool, as [getStakingState] decodes them, and
    the farming calc accounts, as [claim] decodes them. *)
Definition states_of (w : World) (poolPublicKey : PublicKey) : list StakingState :=
  match getStakingState {| GetStakingStateParams.poolPublicKey := poolPublicKey |} w with
  | (Ok states, _) => states
  | (Throw _, _) => []
  end.

Definition calc_accounts_of (w : World) : list FarmingCalc :=
  List.map
    (fun calc => {| calc_data := decode FARMING_CALC_LAYOUT (data calc);
                    farmingCalcPublicKey := pubkey calc |})
    (programAccounts w STAKING_PROGRAM_ADDRESS None [dataSize (span FARMING_CALC_LAYOUT)]).

(** The first calc account of a state among all the calc accounts, and the
    states that can be claimed from: those whose first calc account holds a
    positive amount. *)
Definition first_calc_of (calcAccounts : list FarmingCalc) (state : StakingState)
    : option FarmingCalc :=
  List.find
    (fun ca => String.eqb (calc_farmingState (calc_data ca)) (statePublicKey state))
    calcAccounts.

Definition claimable (calcAccounts : list FarmingCalc) (state : StakingState) : bool :=
  match first_calc_of calcAccounts state with
  | Some ca => 0 <? calc_tokenAmount (calc_data ca)
  | None => false
  end.

End Vocabulary.

(** * Properties *)

(** Running a method: its calls are unfolded and the steps computed. *)
Ltac run :=
  unfold bind, ret, lift, throw, createTokenAccountTransaction, Keypair_generate,
    getParsedTokenAccountsByOwner, sendTransaction, getMintInfo, getTokenAccount,
    getStakingPoolInfo, getProgramAccounts, Date_now, createAccountInstruction;
  cbn.


(** *** Facts about the arithmetic of bn.js *)

Section BN_facts.
Import BN.

Lemma wrap32_small z : - 2 ^ 31 <= z < 2 ^ 31 -> wrap32 z = z.
Proof.
  intros H. unfold wrap32.
  rewrite Z.mod_small by lia. lia.
Qed.

Lemma land_wrap32_mask z : Z.land (wrap32 z) word_mask = z mod word_base.
Proof.
  unfold wrap32, word_mask, word_base.
  change 0x3ffffff with (Z.ones 26).
  rewrite Z.land_ones by lia.
  change (2 ^ 32) with (2 ^ 26 * 2 ^ 6).
  assert (E : ((z + 2 ^ 31) mod (2 ^ 26 * 2 ^ 6) - 2 ^ 31) mod 2 ^ 26
              = (z + 2 ^ 31 - 2 ^ 31) mod 2 ^ 26).
  { rewrite <- (Zminus_mod_idemp_l (z + 2 ^ 31)).
    rewrite <- (Zminus_mod_idemp_l ((z + 2 ^ 31) mod _)).
    rewrite Z.rem_mul_r by lia.
    f_equal. f_equal.
    rewrite Z.mul_comm, Z_mod_plus_full.
    apply Z.mod_mod. lia. }
  rewrite E. f_equal. lia.
Qed.

Lemma land_mask z : Z.land z word_mask = z mod word_base.
Proof.
  unfold word_mask, word_base. change 0x3ffffff with (Z.ones 26).
  now rewrite Z.land_ones by lia.
Qed.

Lemma shiftr_word z : Z.shiftr z word_bits = z / word_base.
Proof. unfold word_bits, word_base. now rewrite Z.shiftr_div_pow2 by lia. Qed.

Lemma trunc_nonneg n d : 0 <= n -> trunc (n # d) = n / Z.pos d.
Proof. intros H. unfold trunc. simpl. apply Z.quot_div_nonneg; lia. Qed.

(** The value of [words]. *)
Lemma words_aux_spec fuel : forall x,
  0 <= x < 2 ^ Z.of_nat fuel ->
  of_words (words_aux fuel x) = x /\ Forall word_ok (words_aux fuel x).
Proof.
  induction fuel as [|fuel IH]; intros x Hx.
  - simpl in *. split; [lia | constructor].
  - cbn [words_aux]. destruct (Z.ltb_spec x word_base) as [Hlt|Hge].
    + simpl. split; [lia|]. repeat constructor; unfold word_ok; lia.
    + assert (Hq : 0 <= x / word_base < 2 ^ Z.of_nat fuel).
      { split; [apply Z.div_pos; unfold word_base; lia|].
        apply Z.div_lt_upper_bound; [unfold word_base; lia|].
        rewrite Nat2Z.inj_succ, Z.pow_succ_r in Hx by lia.
        unfold word_base. nia. }
      destruct (IH _ Hq) as [Hv Hf]. cbn [of_words]. rewrite Hv. split.
      * pose proof (Z.div_mod x word_base). unfold word_base in *. lia.
      * constructor; [|exact Hf].
        unfold word_ok. apply Z.mod_pos_bound. unfold word_base. lia.
Qed.

Lemma words_spec x :
  0 <= x -> of_words (words x) = x /\ Forall word_ok (words x).
Proof.
  intros Hx. apply words_aux_spec. split; [exact Hx|].
  rewrite Nat2Z.inj_succ, Z2Nat.id by apply Z.log2_nonneg.
  destruct (Z.eq_dec x 0) as [->|Hn]; [reflexivity|].
  apply Z.log2_spec. lia.
Qed.

(** The loop adds up the truncated limb products and the carry: the
    fraction of each limb's product is lost where the limb stands. *)
Lemma imuln_loop_spec n d : 0 <= n < word_base * Z.pos d ->
  forall ws carry, Forall word_ok ws -> 0 <= carry < 2 ^ 27 ->
  of_words (imuln_loop (n # d) ws carry)
  = of_words (map (limb_product n d) ws) + carry.
Proof.
  intros Hn ws. induction ws as [|word rest IH]; intros carry Hws Hc.
  - simpl. destruct (Z.eqb_spec carry 0); simpl; lia.
  - inversion Hws as [|? ? Hw Hrest]; subst. unfold word_ok in Hw.
    cbn [imuln_loop map of_words].
    rewrite (wrap32_small word) by (unfold word_base in Hw; lia).
    rewrite (wrap32_small carry) by lia.
    set (t := limb_product n d word).
    assert (Ht : 0 <= t < word_base * word_base).
    { unfold t, limb_product. split; [apply Z.div_pos; nia|].
      apply Z.div_lt_upper_bound; [lia|]. unfold word_base in *. nia. }
    assert (E1 : ToInt32 (inject_Z word * (n # d)) = wrap32 t).
    { unfold ToInt32. f_equal. unfold Qmult, inject_Z. simpl Qnum. simpl Qden.
      rewrite trunc_nonneg by nia. reflexivity. }
    assert (E2 : ToInt32 (inject_Z word * (n # d) / inject_Z word_base)
                 = t / word_base).
    { unfold ToInt32, Qdiv, Qmult, Qinv, inject_Z, word_base.
      simpl Qnum. simpl Qden.
      rewrite trunc_nonneg by nia.
      rewrite Z.mul_1_r, Pos2Z.inj_mul, <- Z.div_div by lia.
      fold (limb_product n d word). fold t.
      apply wrap32_small. unfold word_base in Ht.
      assert (0 <= t / 67108864 < 67108864); [|lia].
      split; [apply Z.div_pos; lia|apply Z.div_lt_upper_bound; lia]. }
    rewrite E1, E2, land_wrap32_mask, !land_mask, !shiftr_word.
    set (lo := t mod word_base + carry mod word_base).
    assert (Hlo : 0 <= lo < 2 * word_base).
    { pose proof (Z.mod_pos_bound t word_base).
      pose proof (Z.mod_pos_bound carry word_base).
      unfold lo, word_base in *. lia. }
    rewrite IH; [| exact Hrest |].
    + pose proof (Z.div_mod t word_base).
      pose proof (Z.div_mod carry word_base).
      pose proof (Z.div_mod lo word_base).
      unfold lo, word_base in *. lia.
    + assert (0 <= carry / word_base <= 1).
      { split; [apply Z.div_pos; unfold word_base; lia|].
        apply Z.lt_succ_r. apply Z.div_lt_upper_bound; unfold word_base; lia. }
      assert (0 <= lo / word_base <= 1).
      { split; [apply Z.div_pos; unfold word_base; lia|].
        apply Z.lt_succ_r. apply Z.div_lt_upper_bound; unfold word_base in *; lia. }
      assert (0 <= t / word_base < word_base).
      { split; [apply Z.div_pos; unfold word_base; lia|].
        apply Z.div_lt_upper_bound; unfold word_base in *; lia. }
      unfold word_base in *. lia.
Qed.

(** A multiplier that stands for a whole number loses nothing. *)
Lemma of_words_whole n d k ws :
  n = k * Z.pos d ->
  of_words (map (limb_product n d) ws) = of_words ws * k.
Proof.
  intros ->. induction ws as [|w ws IH]; [reflexivity|].
  cbn [map of_words]. rewrite IH. unfold limb_product.
  rewrite Z.mul_assoc, Z.div_mul by lia. lia.
Qed.

(** [muln] of a magnitude by a number in range. *)
Lemma muln_nonneg x n d :
  0 <= x -> 0 <= n < word_base * Z.pos d ->
  muln x (n # d) = Ok (of_words (map (limb_product n d) (words x))).
Proof.
  intros Hx Hn. unfold muln. cbv zeta.
  destruct (Qlt_le_dec (n # d) 0) as [Hneg|_].
  { exfalso. unfold Qlt in Hneg. simpl in Hneg. lia. }
  destruct (Qlt_le_dec (n # d) (inject_Z word_base)) as [_|Hbig].
  2:{ exfalso. unfold Qle, inject_Z in Hbig. simpl in Hbig. lia. }
  rewrite Z.abs_eq by lia.
  destruct (words_spec x) as [Hv Hf]; [lia|].
  rewrite imuln_loop_spec; [| exact Hn | exact Hf | lia].
  f_equal. rewrite Z.add_0_r, Z.mul_1_r.
  destruct (Z.eq_dec x 0) as [->|]; [reflexivity|].
  rewrite Z.sgn_pos by lia. lia.
Qed.

(** [muln] by a whole number below 2^26 is the exact product. *)
Lemma muln_whole x n d k :
  0 <= x -> n = k * Z.pos d -> 0 <= k < word_base ->
  muln x (n # d) = Ok (x * k).
Proof.
  intros Hx Hn Hk. rewrite muln_nonneg; [| exact Hx | subst n; nia].
  rewrite (of_words_whole n d k) by exact Hn.
  destruct (words_spec x) as [Hv _]; [lia|]. now rewrite Hv.
Qed.

(** [muln] of a one-word magnitude is the truncated product, the product
    being exact. *)
Lemma muln_one_word x n d :
  0 <= x < word_base -> 0 <= n < word_base * Z.pos d ->
  muln x (n # d) = Ok (x * n / Z.pos d).
Proof.
  intros Hx Hn. unfold muln. cbv zeta.
  destruct (Qlt_le_dec (n # d) 0) as [Hneg|_].
  { exfalso. unfold Qlt in Hneg. simpl in Hneg. lia. }
  destruct (Qlt_le_dec (n # d) (inject_Z word_base)) as [_|Hbig].
  2:{ exfalso. unfold Qle, inject_Z in Hbig. simpl in Hbig. lia. }
  rewrite Z.abs_eq by lia.
  destruct (words_spec x) as [Hv Hf]; [lia|].
  rewrite imuln_loop_spec; [| exact Hn | exact Hf | lia].
  assert (Ew : words x = [x]).
  { unfold words. cbn [words_aux].
    destruct (Z.ltb_spec x word_base); [reflexivity | lia]. }
  rewrite Ew. cbn [map of_words]. unfold limb_product.
  f_equal. destruct (Z.eq_dec x 0) as [->|]; [reflexivity|].
  rewrite Z.sgn_pos by lia. lia.
Qed.

Lemma of_words_nonneg n d ws :
  0 <= n -> Forall word_ok ws -> 0 <= of_words (map (limb_product n d) ws).
Proof.
  intros Hn Hws. induction Hws as [|w ws Hw _ IH]; cbn [map of_words]; [lia|].
  unfold word_ok in Hw.
  assert (0 <= limb_product n d w) by (unfold limb_product; apply Z.div_pos; nia).
  unfold word_base in *. lia.
Qed.

(** The same facts, for a number of [Q]. *)
Lemma muln_Q x q :
  0 <= x -> (0 <= q)%Q -> (q < inject_Z word_base)%Q ->
  muln x q = Ok (of_words (map (limb_product (Qnum q) (Qden q)) (words x))).
Proof.
  destruct q as [n d]. unfold Qle, Qlt, inject_Z. cbn [Qnum Qden].
  intros Hx Hn Hb. apply muln_nonneg; lia.
Qed.

Lemma muln_Q_nonneg x q v :
  0 <= x -> (0 <= q)%Q -> (q < inject_Z word_base)%Q ->
  muln x q = Ok v -> 0 <= v.
Proof.
  intros Hx Hq Hb. rewrite muln_Q by assumption. intros [= <-].
  apply of_words_nonneg.
  - destruct q as [n d]. unfold Qle in Hq. cbn in *. lia.
  - apply words_spec. exact Hx.
Qed.

Lemma muln_Q_whole x q k :
  0 <= x -> (q == inject_Z k)%Q -> 0 <= k < word_base ->
  muln x q = Ok (x * k).
Proof.
  destruct q as [n d]. unfold Qeq, inject_Z. cbn [Qnum Qden].
  intros Hx Hq Hk. apply muln_whole; lia.
Qed.

Lemma muln_Q_one_word x q :
  0 <= x < word_base -> (0 <= q)%Q -> (q < inject_Z word_base)%Q ->
  muln x q = Ok (Qfloor (inject_Z x * q)).
Proof.
  destruct q as [n d]. unfold Qle, Qlt, inject_Z. cbn [Qnum Qden].
  intros Hx Hn Hb. rewrite muln_one_word by lia.
  unfold Qfloor, Qmult. cbn [Qnum Qden]. reflexivity.
Qed.

End BN_facts.

(** *** Facts about whole numbers in binary64 *)

Section Number_facts.

(** Up to 53 bits a whole number is held as it is. *)
Lemma whole_small z : Z.abs z < 2 ^ 53 -> Binary64.whole z = z.
Proof.
  intros H. unfold Binary64.whole. cbv zeta.
  destruct (Z.ltb_spec (Z.abs z) (2 ^ 53)); [reflexivity | lia].
Qed.

(** From 2^53 on the number held is 2^53 or more too. *)
Lemma whole_large z : 2 ^ 53 <= Z.abs z -> 2 ^ 53 <= Z.abs (Binary64.whole z).
Proof.
  intros H. unfold Binary64.whole. cbv zeta.
  destruct (Z.ltb_spec (Z.abs z) (2 ^ 53)) as [Hlt|_]; [lia|].
  set (a := Z.abs z) in *.
  assert (Ha : 0 < a) by lia.
  destruct (Z.log2_spec a Ha) as [Hlog _].
  assert (Hl : 53 <= Z.log2 a).
  { apply Z.log2_le_pow2; lia. }
  set (e := Z.log2 a - 52) in *.
  assert (He : 1 <= e) by lia.
  assert (Hpow : 2 ^ Z.log2 a = 2 ^ e * 2 ^ 52).
  { rewrite <- Z.pow_add_r by lia. f_equal. lia. }
  assert (H2e : 2 <= 2 ^ e).
  { change 2 with (2 ^ 1) at 1. apply Z.pow_le_mono_r; lia. }
  assert (Hq : 2 ^ 52 <= a / 2 ^ e).
  { apply Z.div_le_lower_bound; lia. }
  set (q := a / 2 ^ e) in *.
  match goal with |- _ <= Z.abs (_ * (?q' * _)) => set (q1 := q') end.
  assert (Hq1 : q <= q1).
  { unfold q1. repeat match goal with |- context [if ?c then _ else _] => destruct c end; lia. }
  assert (0 <= q1 * 2 ^ e) by nia.
  rewrite Z.abs_mul. rewrite (Z.abs_eq (q1 * 2 ^ e)) by lia.
  assert (Hs : Z.abs (Z.sgn z) = 1) by lia.
  rewrite Hs. change (2 ^ 53) with (2 ^ 52 * 2). nia.
Qed.

(** [new u64(parseInt(x.toString(), 10))]: the assertion is on [x]. *)
Lemma of_number_parseInt z :
  BN.of_number (parseInt z)
  = if Z.abs z <? 2 ^ 53 then Ok z else Throw (Error "Assertion failed").
Proof.
  unfold BN.of_number, parseInt. change 0x20000000000000 with (2 ^ 53).
  destruct (Z.ltb_spec (Z.abs z) (2 ^ 53)) as [H|H].
  - rewrite whole_small by assumption.
    destruct (Z.ltb_spec (Z.abs z) (2 ^ 53)); [reflexivity | lia].
  - pose proof (whole_large z H).
    destruct (Z.ltb_spec (Z.abs (Binary64.whole z)) (2 ^ 53)); [lia | reflexivity].
Qed.


End Number_facts.


(** ** The pool client *)

Section PoolClient_facts.
Context {imports : Imports}.

(** C10. With a positive supply of the pool mint (and amounts that are not
    negative, as token amounts are), [getMaxWithdrawable] returns
    floor(baseVaultAmount * poolTokenAmount / supply) and
    floor(quoteVaultAmount * poolTokenAmount / supply), in exact integer
    arithmetic, and changes nothing. *)
Theorem getMaxWithdrawable_floor (params : WithdrawLiquidityParams.t) (w : World) :
  let pool := WithdrawLiquidityParams.pool params in
  let supply := mintInfo_supply w (poolMint pool) in
  let baseVaultAmount := tokenAccount_amount w (baseTokenVault pool) in
  let quoteVaultAmount := tokenAccount_amount w (quoteTokenVault pool) in
  let poolTokenAmount := WithdrawLiquidityParams.poolTokenAmount params in
  0 < supply -> 0 <= baseVaultAmount -> 0 <= quoteVaultAmount ->
  0 <= poolTokenAmount ->
  getMaxWithdrawable params w
  = (Ok (baseVaultAmount * poolTokenAmount / supply,
         quoteVaultAmount * poolTokenAmount / supply), w).
Proof.
  intros pool supply baseVaultAmount quoteVaultAmount poolTokenAmount
    Hsupply Hbase Hquote Hamount.
  unfold getMaxWithdrawable, bind, getMintInfo, getTokenAccount, lift, ret, BN.div, BN.mul.
  fold pool. fold supply. fold baseVaultAmount. fold quoteVaultAmount. fold poolTokenAmount.
  destruct (Z.eqb_spec supply 0) as [E|_]; [lia|].
  rewrite !Z.quot_div_nonneg by nia.
  reflexivity.
Qed.

Lemma Forall2_map_graph {A B} (f : A -> B) (P : A -> B -> Prop) (l : list A) :
  (forall a, P a (f a)) -> Forall2 P l (List.map f l).
Proof. intros H. induction l; simpl; constructor; auto. Qed.

(** C3, as the code has it. Whatever list of accounts the account query
    returns, [getPools] returns one record per account, in the same order:
    the [POOL_LAYOUT] decoding of the account's data with [poolPublicKey]
    the account's key, [poolVersion] 1 and [curveType] [PRODUCT];
    [getV2Pools] the [POOL_V2_LAYOUT] decoding with the key and
    [poolVersion] 2, and with the [curveType] that the layout decoded, none
    being set; [getStakingTickets] the [STAKING_TICKET_LAYOUT] decoding with
    [stakingTicketPublicKey] the account's key. *)
Theorem account_lists_decoded (w : World) :
  (forall filters, exists searchFilters pools,
      getPools filters w = (Ok pools, w)
      /\ Forall2 pool_of_account
           (programAccounts w POOLS_PROGRAM_ADDRESS None searchFilters) pools)
  /\ (forall filters, exists searchFilters pools,
      getV2Pools filters w = (Ok pools, w)
      /\ Forall2 v2_pool_of_account
           (programAccounts w POOLS_V2_PROGRAM_ADDRESS None searchFilters) pools)
  /\ (forall params, exists filters tickets,
      getStakingTickets params w = (Ok tickets, w)
      /\ Forall2 ticket_of_account
           (programAccounts w STAKING_PROGRAM_ADDRESS None filters) tickets).
Proof.
  repeat split; intros p.
  - unfold getPools, bind, getProgramAccounts, ret.
    eexists. eexists. split; [reflexivity|].
    apply Forall2_map_graph. intros a. repeat split.
  - unfold getV2Pools, bind, getProgramAccounts, ret.
    eexists. eexists. split; [reflexivity|].
    apply Forall2_map_graph. intros a. repeat split.
  - unfold getStakingTickets, bind, getProgramAccounts, ret.
    eexists. eexists. split; [reflexivity|].
    apply Forall2_map_graph. intros a. repeat split.
Qed.

End PoolClient_facts.

(** ** How the methods run *)

Section Runs.
Context {imports : Imports}.

(** bn.js throws nothing but its assertion. *)
Lemma muln_Throw x num e : BN.muln x num = Throw e -> e = Error "Assertion failed".
Proof.
  unfold BN.muln. cbv zeta.
  destruct (Qlt_le_dec num 0); destruct (Qlt_le_dec _ _); intros H; congruence.
Qed.

Lemma div_Throw x y e : BN.div x y = Throw e -> e = Error "Assertion failed".
Proof. unfold BN.div. destruct (y =? 0); intros H; congruence. Qed.

Lemma of_number_Throw n e : BN.of_number n = Throw e -> e = Error "Assertion failed".
Proof. unfold BN.of_number. destruct (Z.abs n <? _); intros H; congruence. Qed.

(** [muln] by a number below 2^26 in magnitude passes its assertion. *)
Lemma muln_Ok x num :
  (0 <= num)%Q -> (num < inject_Z BN.word_base)%Q -> exists v, BN.muln x num = Ok v.
Proof.
  intros H0 H1. unfold BN.muln. cbv zeta.
  destruct (Qlt_le_dec num 0) as [Hneg|_]; [lra|].
  destruct (Qlt_le_dec num (inject_Z BN.word_base)) as [_|Hbig]; [|lra].
  eexists. reflexivity.
Qed.

Lemma swap_minIncomeAmount_Throw m s e :
  swap_minIncomeAmount m s = Throw e -> e = Error "Assertion failed".
Proof.
  unfold swap_minIncomeAmount, result_bind.
  destruct (BN.muln _ _) eqn:E; [discriminate|].
  intros H. inversion H; subst. eapply muln_Throw; eassumption.
Qed.

Lemma swap_refFeeAmount_Throw m p e :
  swap_refFeeAmount m p = Throw e -> e = Error "Assertion failed".
Proof.
  unfold swap_refFeeAmount, result_bind.
  destruct (BN.muln _ _) eqn:E.
  - apply div_Throw.
  - intros H. inversion H; subst. eapply muln_Throw; eassumption.
Qed.

Lemma deposit_creationSize_Throw supply m amount s e :
  deposit_creationSize supply m amount s = Throw e -> e = Error "Assertion failed".
Proof.
  unfold deposit_creationSize, result_bind.
  destruct (BN.div _ _) eqn:E.
  - apply muln_Throw.
  - intros H. inversion H; subst. eapply div_Throw; eassumption.
Qed.

(** A run of [swap]: it hands one transaction to [sendTransaction], or it
    throws before and hands over none. *)
Lemma swap_run (params : SwapParams.t) (w : World) :
  let m := SwapParams.minIncomeAmount params in
  let s := default (1 # 1000)%Q (SwapParams.slippage params) in
  let r := fst (swap params w) in
  let w' := snd (swap params w) in
  (exists tx outcome,
      swap_transaction_of params w tx
      /\ sent w' = sent w ++ [(send_call (SwapParams.wallet params) tx, outcome)]
      /\ r = send_result outcome)
  \/ (sent w' = sent w /\ r = Throw (Error "Assertion failed")
      /\ ((exists e, swap_minIncomeAmount m s = Throw e)
          \/ (exists minIncome p e,
                 swap_minIncomeAmount m s = Ok minIncome
                 /\ SwapParams.referralParams params = Some p
                 /\ swap_refFeeAmount minIncome (ReferralParams.referralPercent p)
                    = Throw e)
          \/ (exists minIncome p fee,
                 swap_minIncomeAmount m s = Ok minIncome
                 /\ SwapParams.referralParams params = Some p
                 /\ swap_refFeeAmount minIncome (ReferralParams.referralPercent p)
                    = Ok fee
                 /\ 2 ^ 53 <= Z.abs fee
                 /\ (referral_destination params w <> None
                     \/ referral_account_created params w = true))))
  \/ (sent w' = sent w
      /\ r = Throw (Error "No token account for referral wallet!")
      /\ SwapParams.referralParams params <> None
      /\ referral_destination params w = None
      /\ referral_account_created params w = false).
Proof.
  destruct params as [pool ref slip side wallet out minI ub uq].
  unfold swap, swap_transaction_of, referral_account_created, referral_destination,
    swap_referral_part, referral_account_created, referral_destination,
    swap_incomeMint, swap_head, swap_head_with, swap_lamports, swap_tail, send_call.
  cbn [SwapParams.pool SwapParams.referralParams SwapParams.slippage SwapParams.side
       SwapParams.wallet SwapParams.outcomeAmount SwapParams.minIncomeAmount
       SwapParams.userBaseTokenAccount SwapParams.userQuoteTokenAccount].
  run.
  destruct ub, uq; cbn;
    (destruct (swap_minIncomeAmount minI (default (1 # 1000)%Q slip)) eqn:Emin; cbn;
     [| right; left; split; [reflexivity|]; split;
        [f_equal; eapply swap_minIncomeAmount_Throw; eassumption | left; eauto]]).
  all: destruct ref as [r|]; cbn.
  all: try (destruct (swap_refFeeAmount _ _) eqn:Efee; cbn;
            [| right; left; split; [reflexivity|]; split;
               [f_equal; eapply swap_refFeeAmount_Throw; eassumption
               | right; left; eauto 10]]).
  all: try destruct (find _ _) eqn:Efind; cbn.
  all: try destruct (ReferralParams.createTokenAccounts r) eqn:Ecreate; cbn.
  all: try (right; right; repeat split; congruence).
  all: try (rewrite of_number_parseInt;
            match goal with
            | |- context [Z.abs ?fee <? 2 ^ 53] =>
                destruct (Z.ltb_spec (Z.abs fee) (2 ^ 53)) as [Hfee|Hfee]; cbn;
                [| right; left; split; [reflexivity|]; split; [reflexivity|];
                   right; right; do 3 eexists;
                   repeat match goal with |- _ /\ _ => split end;
                   try reflexivity; try eassumption;
                   first [left; discriminate | right; reflexivity]]
            end).
  all: destruct (String.eqb (baseTokenMint pool) SOL_MINT),
         (String.eqb (quoteTokenMint pool) SOL_MINT); cbn.
  all: match goal with |- context [accepts ?w ?c] => destruct (accepts w c) end; cbn.
  all: left; eexists; eexists; split; [| split; reflexivity].
  all: do 5 eexists.
  all: split; [| split; [| split; [| split]]].
  all: try reflexivity.
  all: try (intros a Ha; first [discriminate | injection Ha as <-; reflexivity]).
  all: try (intros r0 Hr; first [discriminate | injection Hr as <-];
            split; [eassumption |
                    split; [eassumption
                           | first [left; reflexivity | right; reflexivity]]]).
  Unshelve.
  all: try exact ""%string; exact 0.
Qed.

(** A run of [depositLiquidity]. *)
Lemma depositLiquidity_run (params : DepositLiquidityParams.t) (w : World) :
  let pool := DepositLiquidityParams.pool params in
  let wallet := DepositLiquidityParams.wallet params in
  let programId := getPoolAddress (default V1 (poolVersion pool)) in
  let size :=
    deposit_creationSize (mintInfo_supply w (poolMint pool))
      (DepositLiquidityParams.maxBaseTokenAmount params)
      (tokenAccount_amount w (baseTokenVault pool))
      (default (1 # 100)%Q (DepositLiquidityParams.slippage params)) in
  let r := fst (depositLiquidity params w) in
  let w' := snd (depositLiquidity params w) in
  (exists creationSize account outcome,
      size = Ok creationSize
      /\ (forall a, DepositLiquidityParams.userPoolTokenAccount params = Some a ->
            account = a)
      /\ sent w' = sent w
           ++ [(send_call wallet
                  (match DepositLiquidityParams.userPoolTokenAccount params with
                   | None =>
                       [CreateTokenAccount (publicKey wallet) (poolMint pool)
                          None None account]
                   | Some _ => []
                   end
                   ++ [DepositLiquidity params (publicKey wallet)
                         (findProgramAddress [poolPublicKey pool] programId)
                         account creationSize programId]), outcome)]
      /\ r = send_result outcome)
  \/ (sent w' = sent w /\ r = Throw (Error "Assertion failed")
      /\ exists e, size = Throw e).
Proof.
  destruct params as [pool maxBase wallet slip account].
  unfold depositLiquidity, send_call.
  cbn [DepositLiquidityParams.pool DepositLiquidityParams.maxBaseTokenAmount
       DepositLiquidityParams.wallet DepositLiquidityParams.slippage
       DepositLiquidityParams.userPoolTokenAccount].
  run.
  destruct (deposit_creationSize _ _ _ _) eqn:Esize; cbn.
  2:{ right. split; [reflexivity|]. split; [|eauto].
      f_equal. eapply deposit_creationSize_Throw; eassumption. }
  left. destruct account; cbn;
    match goal with |- context [accepts ?w ?c] => destruct (accepts w c) end; cbn;
    do 3 eexists; (split; [reflexivity|]);
    (split; [intros a Ha; first [discriminate | injection Ha as <-; reflexivity]|]);
    split; reflexivity.
Qed.

(** A run of [withdrawLiquidity]. *)
Lemma withdrawLiquidity_run (params : WithdrawLiquidityParams.t) (w : World) :
  let pool := WithdrawLiquidityParams.pool params in
  let wallet := WithdrawLiquidityParams.wallet params in
  let slippage := default (1 # 1000)%Q (WithdrawLiquidityParams.slippage params) in
  let programId := getPoolAddress (default V1 (poolVersion pool)) in
  let r := fst (withdrawLiquidity params w) in
  let w' := snd (withdrawLiquidity params w) in
  (exists userBase userQuote base quote baseMin quoteMin outcome,
      (forall b, WithdrawLiquidityParams.baseTokenReturnedMin params = Some b -> base = b)
      /\ (forall q, WithdrawLiquidityParams.quoteTokenReturnedMin params = Some q ->
            quote = q)
      /\ BN.muln base (1 - slippage)%Q = Ok baseMin
      /\ BN.muln quote (1 - slippage)%Q = Ok quoteMin
      /\ (forall a, WithdrawLiquidityParams.userBaseTokenAccount params = Some a ->
            userBase = a)
      /\ (forall a, WithdrawLiquidityParams.userQuoteTokenAccount params = Some a ->
            userQuote = a)
      /\ sent w' = sent w
           ++ [(send_call wallet
                  (match WithdrawLiquidityParams.userBaseTokenAccount params with
                   | None =>
                       [CreateTokenAccount (publicKey wallet) (baseTokenMint pool)
                          None None userBase]
                   | Some _ => []
                   end
                   ++ match WithdrawLiquidityParams.userQuoteTokenAccount params with
                      | None =>
                          [CreateTokenAccount (publicKey wallet) (quoteTokenMint pool)
                             None None userQuote]
                      | Some _ => []
                      end
                   ++ [WithdrawLiquidity params userBase userQuote baseMin quoteMin
                         (findProgramAddress [poolPublicKey pool] programId)
                         (publicKey wallet) programId]), outcome)]
      /\ r = send_result outcome)
  \/ (sent w' = sent w /\ r = Throw (Error "Assertion failed")).
Proof.
  destruct params as [pool amount slip wallet baseMin quoteMin ub uq].
  unfold withdrawLiquidity, getMaxWithdrawable, send_call.
  cbn [WithdrawLiquidityParams.pool WithdrawLiquidityParams.poolTokenAmount
       WithdrawLiquidityParams.slippage WithdrawLiquidityParams.wallet
       WithdrawLiquidityParams.baseTokenReturnedMin
       WithdrawLiquidityParams.quoteTokenReturnedMin
       WithdrawLiquidityParams.userBaseTokenAccount
       WithdrawLiquidityParams.userQuoteTokenAccount].
  run.
  destruct ub, uq, baseMin, quoteMin; cbn.
  all: repeat match goal with
         | |- context [match BN.div ?x ?y with _ => _ end] =>
             let E := fresh "Ediv" in
             destruct (BN.div x y) eqn:E; cbn;
             [| right; split; [reflexivity|];
                f_equal; f_equal; eapply div_Throw; eassumption]
         end.
  all: repeat match goal with
         | |- context [match BN.muln ?x ?y with _ => _ end] =>
             let E := fresh "Emul" in
             destruct (BN.muln x y) eqn:E; cbn;
             [| right; split; [reflexivity|];
                f_equal; f_equal; eapply muln_Throw; eassumption]
         end.
  all: match goal with |- context [accepts ?w ?c] => destruct (accepts w c) end; cbn.
  all: left; do 7 eexists.
  all: split; [| split; [| split; [| split; [| split; [| split; [| split]]]]]].
  all: try reflexivity.
  all: try eassumption.
  all: try (intros a Ha; first [discriminate | injection Ha as <-; reflexivity]).
  Unshelve.
  all: exact 0.
Qed.

(** *** The amounts of [swap] *)

(** With a slippage between 0 and 1 the minimum income is computed, and it
    is not negative. *)
Lemma swap_minIncomeAmount_in_range m s :
  0 <= m -> (0 <= s)%Q -> (s <= 1)%Q ->
  exists v, swap_minIncomeAmount m s = Ok v /\ 0 <= v.
Proof.
  intros Hm Hs0 Hs1. unfold swap_minIncomeAmount, result_bind.
  assert (H0 : (0 <= 1000 - s * 1000)%Q) by lra.
  assert (H1 : (1000 - s * 1000 < inject_Z BN.word_base)%Q).
  { unfold BN.word_base. change (inject_Z 67108864) with (67108864 # 1)%Q. lra. }
  pose proof (muln_Q_nonneg m (1000 - s * 1000)%Q) as Hv.
  rewrite muln_Q in * by assumption.
  eexists. split; [reflexivity|].
  unfold BN.divn. apply Z.quot_pos; [|lia]. apply (Hv _ Hm H0 H1 eq_refl).
Qed.

(** A slippage of a whole number of thousandths: the minimum income is the
    exact floor(m * k / 1000), as the specification states it. *)
Lemma swap_minIncomeAmount_whole m s k :
  0 <= m -> (1000 - s * 1000 == inject_Z k)%Q -> 0 <= k < BN.word_base ->
  swap_minIncomeAmount m s = Ok (m * k / 1000)
  /\ minIncome_stated m s = m * k / 1000.
Proof.
  intros Hm Hk Hr. split.
  - unfold swap_minIncomeAmount, result_bind.
    rewrite (muln_Q_whole m _ k) by assumption.
    unfold BN.divn. rewrite Z.quot_div_nonneg by nia. reflexivity.
  - unfold minIncome_stated.
    assert (E : (inject_Z m * (1000 - 1000 * s) / 1000 == (m * k) # 1000)%Q).
    { assert (E1 : (1000 - 1000 * s == inject_Z k)%Q) by (rewrite <- Hk; ring).
      rewrite E1. unfold Qeq, Qdiv, Qmult, Qinv, inject_Z. cbn. lia. }
    rewrite E. reflexivity.
Qed.

(** With the default slippage, floor(999 * m / 1000). *)
Lemma swap_minIncomeAmount_default m :
  0 <= m -> swap_minIncomeAmount m (1 # 1000) = Ok (999 * m / 1000).
Proof.
  intros Hm.
  destruct (swap_minIncomeAmount_whole m (1 # 1000) 999) as [E _];
    [exact Hm | reflexivity | unfold BN.word_base; lia |].
  rewrite E. do 2 f_equal. lia.
Qed.





End Runs.

(** ** Concurrent tasks *)

Section Concurrency.
Context {A B : Type}.

Lemma insert_at_Permutation n (x : A) l : Permutation (insert_at n x l) (x :: l).
Proof.
  revert n. induction l as [|y l IH]; intros [|n]; cbn; try reflexivity.
  rewrite IH. apply perm_swap.
Qed.

(** Whatever the schedule, the tasks that arrive are the tasks started. *)
Lemma arrival_order_Permutation codes (l : list A) :
  Permutation (arrival_order codes l) l.
Proof.
  revert codes. induction l as [|x l IH]; intros codes; cbn; [reflexivity|].
  rewrite insert_at_Permutation. constructor. apply IH.
Qed.

Lemma insert_at_middle (x : A) l1 l2 :
  insert_at (length l1) x (l1 ++ l2) = l1 ++ x :: l2.
Proof. induction l1 as [|y l1 IH]; cbn; [now destruct l2 | now rewrite IH]. Qed.

(** Every order of arrival is the order of some schedule. *)
Lemma arrival_order_any (l l' : list A) :
  Permutation l' l -> exists codes, arrival_order codes l = l'.
Proof.
  revert l'. induction l as [|x l IH]; intros l' Hp.
  - apply Permutation_sym, Permutation_nil in Hp. subst. now exists [].
  - assert (Hin : In x l').
    { eapply Permutation_in; [symmetry; exact Hp | now left]. }
    apply in_split in Hin. destruct Hin as (l1 & l2 & ->).
    apply Permutation_sym, Permutation_cons_app_inv, Permutation_sym in Hp.
    destruct (IH _ Hp) as (codes & Hcodes).
    exists (length l1 :: codes). cbn. rewrite Hcodes. apply insert_at_middle.
Qed.

Lemma insert_at_map (f : A -> B) n x l :
  insert_at n (f x) (List.map f l) = List.map f (insert_at n x l).
Proof. revert n. induction l as [|y l IH]; intros [|n]; cbn; now rewrite ?IH. Qed.

Lemma arrival_order_map (f : A -> B) codes l :
  arrival_order codes (List.map f l) = List.map f (arrival_order codes l).
Proof.
  revert codes. induction l as [|x l IH]; intros codes; cbn; [reflexivity|].
  now rewrite IH, insert_at_map.
Qed.

End Concurrency.

(** ** The staking client *)

Section StakingClient_facts.
Context {imports : Imports}.

Lemma set_sent_set_sent l1 l2 w : set_sent l2 (set_sent l1 w) = set_sent l2 w.
Proof. reflexivity. Qed.

Lemma set_sent_id w : set_sent (sent w) w = w.
Proof. now destruct w. Qed.

Lemma sendTransaction_call (call : SendTransaction) (w : World) :
  sendTransaction (send_wallet call) (send_transaction call)
    (send_partialSigners call) w
  = (send_result (accepts w call),
     set_sent (sent w ++ [(call, accepts w call)]) w).
Proof. destruct call. unfold sendTransaction. cbn. now destruct (accepts w _). Qed.

(** Tasks that each submit one transaction: all are submitted, in the order
    they run, whatever the network answers to the others. *)
Lemma run_tasks_sends (calls : list (nat * SendTransaction)) : forall w,
  run_tasks
    (List.map
       (fun ic => (fst ic,
                   sendTransaction (send_wallet (snd ic)) (send_transaction (snd ic))
                     (send_partialSigners (snd ic))))
       calls) w
  = (List.map (fun ic => (fst ic, send_result (accepts w (snd ic)))) calls,
     set_sent (sent w ++ List.map (fun ic => (snd ic, accepts w (snd ic))) calls) w).
Proof.
  induction calls as [|[i call] calls IH]; intros w; cbn [List.map run_tasks fst snd].
  - now rewrite app_nil_r, set_sent_id.
  - rewrite sendTransaction_call, IH. cbn [sent set_sent accepts].
    rewrite set_sent_set_sent, <- app_assoc. reflexivity.
Qed.

Lemma map_snd_numbered {T} (l : list T) k :
  List.map snd (combine (seq k (length l)) l) = l.
Proof. revert k. induction l as [|x l IH]; intros k; cbn; now rewrite ?IH. Qed.

Lemma map_fst_numbered {T} (l : list T) k :
  List.map fst (combine (seq k (length l)) l) = seq k (length l).
Proof. revert k. induction l as [|x l IH]; intros k; cbn; now rewrite ?IH. Qed.

Lemma combine_map_r {T U} (f : T -> U) (l : list T) (ks : list nat) :
  combine ks (List.map f l)
  = List.map (fun it => (fst it, f (snd it))) (combine ks l).
Proof.
  revert ks. induction l as [|x l IH]; intros [|k ks]; cbn; try reflexivity.
  now rewrite IH.
Qed.

Lemma forallb_map {T U} (f : T -> U) (p : U -> bool) (l : list T) :
  forallb p (List.map f l) = forallb (fun x => p (f x)) l.
Proof. induction l as [|x l IH]; cbn; now rewrite ?IH. Qed.

Lemma first_failure_sends (outcomes : list (nat * option string)) :
  first_failure (List.map (fun o => (fst o, send_result (snd o))) outcomes)
  = if forallb (fun o => match snd o with Some _ => true | None => false end) outcomes
    then None else Some SendTransactionError.
Proof.
  induction outcomes as [|[i [txid|]] outcomes IH]; cbn; [reflexivity| exact IH |reflexivity].
Qed.

Lemma find_by_number {T} (l : list (nat * T)) i v :
  List.NoDup (List.map fst l) -> In (i, v) l ->
  List.find (fun o => Nat.eqb (fst o) i) l = Some (i, v).
Proof.
  induction l as [|[j u] l IH]; intros Hnd Hin; [contradiction|].
  cbn in *. inversion Hnd as [|? ? Hnot Hnd']; subst.
  destruct Hin as [[= -> ->]|Hin].
  - now rewrite Nat.eqb_refl.
  - destruct (Nat.eqb_spec j i) as [->|_].
    + exfalso. apply Hnot. change i with (fst (i, v)). now apply in_map.
    + now apply IH.
Qed.

(** The results of the tasks, read in the order of the list. *)
Lemma outcomes_in_order {T R} (l : list T) (result : T -> R)
    (outcomes : list (nat * Result R)) :
  List.NoDup (List.map fst outcomes) ->
  forall k,
  (forall j t, nth_error l j = Some t -> In ((k + j)%nat, Ok (result t)) outcomes) ->
  omap (outcome_of outcomes) (seq k (length l)) = List.map result l.
Proof.
  intros Hnd. induction l as [|x l IH]; intros k Hall; [reflexivity|].
  cbn [length seq omap List.map].
  assert (E : outcome_of outcomes k = Some (result x)).
  { unfold outcome_of. rewrite (find_by_number outcomes k (Ok (result x))); auto.
    specialize (Hall 0%nat x eq_refl). now rewrite Nat.add_0_r in Hall. }
  cbn. rewrite E. f_equal. apply IH. intros j t Hj.
  specialize (Hall (S j) t Hj). now rewrite Nat.add_succ_r in Hall.
Qed.

Lemma In_numbered {T} (l : list T) k j t :
  nth_error l j = Some t -> In ((k + j)%nat, t) (combine (seq k (length l)) l).
Proof.
  revert k j. induction l as [|x l IH]; intros k [|j] Hj; cbn in *; try discriminate.
  - injection Hj as ->. left. now rewrite Nat.add_0_r.
  - right. rewrite Nat.add_succ_r. now apply (IH (S k)).
Qed.

(** [Promise.all] over tasks that each submit one transaction: every call
    is made, in the order of arrival; the promise is rejected when the
    network rejects one of them, else it has the transaction ids in the
    order of the list. *)
Lemma Promise_all_sends {T} (l : list T) (call : T -> SendTransaction) (w : World) :
  let tasks :=
    List.map (fun t => sendTransaction (send_wallet (call t))
                         (send_transaction (call t)) (send_partialSigners (call t)))
      l in
  snd (Promise_all tasks w)
  = set_sent
      (sent w ++ List.map (fun t => (call t, accepts w (call t)))
                   (arrival_order (schedule w) l)) w
  /\ ((forall t, In t l -> accepts w (call t) <> None) ->
      fst (Promise_all tasks w)
      = Ok (List.map (fun t => default ""%string (accepts w (call t))) l))
  /\ ((exists t, In t l /\ accepts w (call t) = None) ->
      fst (Promise_all tasks w) = Throw SendTransactionError).
Proof.
  intros tasks. unfold Promise_all.
  set (numbered := combine (seq 0 (length l)) l).
  assert (Etasks : combine (seq 0 (length tasks)) tasks
                   = List.map (fun it => (fst it,
                        sendTransaction (send_wallet (call (snd it)))
                          (send_transaction (call (snd it)))
                          (send_partialSigners (call (snd it))))) numbered).
  { unfold tasks. rewrite length_map, combine_map_r. reflexivity. }
  rewrite Etasks, arrival_order_map.
  set (arrived := arrival_order (schedule w) numbered).
  assert (Harrived : Permutation arrived numbered) by apply arrival_order_Permutation.
  pose proof (run_tasks_sends (List.map (fun it => (fst it, call (snd it))) arrived) w)
    as Hrun.
  rewrite !map_map in Hrun. cbn [fst snd] in Hrun. rewrite Hrun.
  assert (Eorder : List.map snd arrived = arrival_order (schedule w) l).
  { unfold arrived. rewrite <- arrival_order_map. unfold numbered.
    now rewrite map_snd_numbered. }
  set (outcomes :=
         List.map (fun x => (fst x, send_result (accepts w (call (snd x))))) arrived).
  assert (Efail : first_failure outcomes
                  = if forallb (fun t => match accepts w (call t) with
                                         | Some _ => true | None => false end) l
                    then None else Some SendTransactionError).
  { assert (Eout : outcomes
                   = List.map (fun o => (fst o, send_result (snd o)))
                       (List.map (fun x => (fst x, accepts w (call (snd x)))) arrived))
      by (unfold outcomes; now rewrite map_map).
    rewrite Eout, first_failure_sends, forallb_map. cbn [snd].
    assert (E : forallb (fun x => match accepts w (call (snd x)) with
                                  | Some _ => true | None => false end) arrived
                = forallb (fun t => match accepts w (call t) with
                                    | Some _ => true | None => false end) l).
    { rewrite <- (map_snd_numbered l 0). fold numbered.
      rewrite forallb_map.
      apply eq_true_iff_eq. rewrite !forallb_forall. split; intros H x Hx; apply H.
      - eapply Permutation_in; [symmetry; exact Harrived | exact Hx].
      - eapply Permutation_in; [exact Harrived | exact Hx]. }
    now rewrite E. }
  split; [|split].
  - destruct (first_failure outcomes); cbn [snd]; f_equal; f_equal;
      rewrite <- Eorder, map_map; reflexivity.
  - intros Hall. rewrite Efail.
    assert (Hf : forallb (fun t => match accepts w (call t) with
                                   | Some _ => true | None => false end) l = true).
    { apply forallb_forall. intros t Ht. specialize (Hall t Ht).
      now destruct (accepts w (call t)). }
    rewrite Hf. cbn [fst]. f_equal. unfold tasks. rewrite length_map.
    apply outcomes_in_order.
    + unfold outcomes. rewrite map_map. cbn [fst].
      eapply Permutation_NoDup.
      * symmetry. apply Permutation_map. exact Harrived.
      * unfold numbered. rewrite map_fst_numbered. apply List.seq_NoDup.
    + intros j t Hj. unfold outcomes.
      assert (Hin : In ((0 + j)%nat, t) arrived).
      { eapply Permutation_in; [symmetry; exact Harrived|].
        now apply In_numbered. }
      apply (in_map (fun x => (fst x, send_result (accepts w (call (snd x)))))) in Hin.
      cbn [fst snd] in Hin.
      specialize (Hall t (nth_error_In _ _ Hj)).
      destruct (accepts w (call t)); [exact Hin | contradiction].
  - intros (t & Ht & Hnone). rewrite Efail.
    assert (Hf : forallb (fun t => match accepts w (call t) with
                                   | Some _ => true | None => false end) l = false).
    { apply not_true_is_false. rewrite forallb_forall. intros H.
      specialize (H t Ht). now rewrite Hnone in H. }
    now rewrite Hf.
Qed.

(** The filter of [endStaking] keeps the tickets that qualify. *)
Lemma ticket_to_close_qualifies now_ms ticket :
  0 <= now_ms ->
  ticket_to_close now_ms ticket = true <-> ticket_qualifies now_ms ticket.
Proof.
  intros Hnow. unfold ticket_to_close, ticket_qualifies, BN.eq, BN.lt, BN.sub.
  assert (E : BN.trunc (inject_Z now_ms / 1000) = now_ms / 1000).
  { unfold BN.trunc, Qdiv, Qmult, Qinv, inject_Z. cbn [Qnum Qden].
    rewrite Z.mul_1_r. apply Z.quot_div_nonneg; lia. }
  rewrite E, andb_true_iff, Z.eqb_eq, Z.ltb_lt. intuition lia.
Qed.

Lemma endStaking_run (params : EndStakingParams.t) (w : World) farmingList item :
  farming (stakingPoolInfo w) = Some farmingList ->
  List.find farming_open farmingList = Some item ->
  let wallet := EndStakingParams.wallet params in
  let call :=
    unstaking_call wallet (stakingPoolInfo w) item (user_staking_account w wallet) in
  endStaking params w
  = match List.filter (ticket_to_close (now w)) (tickets_of w wallet) with
    | [] => (Throw (Error "No tickets, nothing to check"), after_token_account w wallet)
    | ticketsToClose =>
        Promise_all
          (List.map
             (fun t => sendTransaction (send_wallet (call t)) (send_transaction (call t))
                         (send_partialSigners (call t)))
             ticketsToClose)
          (after_token_account w wallet)
    end.
Proof.
  intros Hfarm Hfind. cbv zeta.
  unfold endStaking, endStakingTicket, tickets_of, getStakingTickets,
    after_token_account, user_staking_account, staking_token_account,
    unstaking_call, send_call.
  run. rewrite Hfarm, Hfind.
  destruct (List.find _ (parsedTokenAccountsByOwner w _)); cbn;
    destruct (List.filter _ _); reflexivity.
Qed.

(** C6. When [endStaking] finds at least one qualifying ticket (end time
    the default one, start time more than 3600 seconds before now), it
    closes every qualifying ticket and only those, each by one
    [endStakingTicket] transaction.  The transactions reach the network in
    some order of the tickets, and any order can be the one, depending on
    the schedule; every one is submitted whatever the network answers to the
    others, and nothing else is submitted.  The method returns the
    transaction ids when all are accepted and throws when one is not. *)
Theorem endStaking_fan_out (params : EndStakingParams.t) (w : World) farmingList item :
  farming (stakingPoolInfo w) = Some farmingList ->
  List.find farming_open farmingList = Some item ->
  0 <= now w ->
  let wallet := EndStakingParams.wallet params in
  let tickets := tickets_of w wallet in
  let ticketsToClose := List.filter (ticket_to_close (now w)) tickets in
  let close :=
    unstaking_call wallet (stakingPoolInfo w) item (user_staking_account w wallet) in
  let submitted order := List.map (fun t => (close t, accepts w (close t))) order in
  (exists ticket, In ticket tickets /\ ticket_qualifies (now w) ticket) ->
  (forall ticket,
      In ticket ticketsToClose <-> In ticket tickets /\ ticket_qualifies (now w) ticket)
  /\ (exists order,
        Permutation order ticketsToClose
        /\ sent (snd (endStaking params w)) = sent w ++ submitted order)
  /\ (forall order,
        Permutation order ticketsToClose ->
        exists codes,
          sent (snd (endStaking params (set_schedule codes w)))
          = sent w ++ submitted order)
  /\ ((forall ticket, In ticket ticketsToClose -> accepts w (close ticket) <> None) ->
      fst (endStaking params w)
      = Ok (List.map (fun t => default ""%string (accepts w (close t))) ticketsToClose))
  /\ ((exists ticket, In ticket ticketsToClose /\ accepts w (close ticket) = None) ->
      fst (endStaking params w) = Throw SendTransactionError).
Proof.
  intros Hfarm Hfind Hnow wallet tickets ticketsToClose close submitted
    (ticket0 & Hin0 & Hq0).
  assert (Hfilter : forall ticket,
             In ticket ticketsToClose
             <-> In ticket tickets /\ ticket_qualifies (now w) ticket).
  { intros ticket. unfold ticketsToClose.
    rewrite List.filter_In, ticket_to_close_qualifies by exact Hnow. reflexivity. }
  assert (Hne : ticketsToClose <> []).
  { intros E. assert (Hin : In ticket0 ticketsToClose) by (apply Hfilter; tauto).
    rewrite E in Hin. contradiction. }
  assert (Hworld : forall w0,
             schedule (after_token_account w0 wallet) = schedule w0
             /\ sent (after_token_account w0 wallet) = sent w0
             /\ accepts (after_token_account w0 wallet) = accepts w0).
  { intros w0. unfold after_token_account.
    destruct (staking_token_account w0 wallet); repeat split. }
  assert (Hrun : forall w0,
             farming (stakingPoolInfo w0) = Some farmingList ->
             tickets_of w0 wallet = tickets -> now w0 = now w ->
             stakingPoolInfo w0 = stakingPoolInfo w ->
             user_staking_account w0 wallet = user_staking_account w wallet ->
             endStaking params w0
             = Promise_all
                 (List.map
                    (fun t => sendTransaction (send_wallet (close t))
                                (send_transaction (close t))
                                (send_partialSigners (close t)))
                    ticketsToClose)
                 (after_token_account w0 wallet)).
  { intros w0 Hf Ht Hn Hp Hu.
    rewrite (endStaking_run params w0 farmingList item Hf Hfind).
    fold wallet. rewrite Ht, Hn, Hp, Hu. fold ticketsToClose. fold close.
    destruct ticketsToClose; [contradiction | reflexivity]. }
  split; [exact Hfilter|].
  rewrite (Hrun w Hfarm eq_refl eq_refl eq_refl eq_refl).
  destruct (Promise_all_sends ticketsToClose close (after_token_account w wallet))
    as (Hsent & Hok & Hthrow).
  destruct (Hworld w) as (Hs & Hl & Ha).
  rewrite Ha in Hok, Hthrow.
  split; [|split; [|split; [exact Hok | exact Hthrow]]].
  - exists (arrival_order (schedule w) ticketsToClose). split.
    + apply arrival_order_Permutation.
    + rewrite Hsent. cbn [sent set_sent]. now rewrite Hs, Hl, Ha.
  - intros order Hp.
    destruct (arrival_order_any ticketsToClose order Hp) as (codes & Hcodes).
    exists codes.
    rewrite (Hrun (set_schedule codes w)); [| exact Hfarm | reflexivity..].
    destruct (Promise_all_sends ticketsToClose close
                (after_token_account (set_schedule codes w) wallet)) as (Hsent' & _).
    destruct (Hworld (set_schedule codes w)) as (Hs' & Hl' & Ha').
    rewrite Hsent'. cbn [sent set_sent].
    rewrite Hs', Hl', Ha'. cbn [schedule sent accepts set_schedule].
    now rewrite Hcodes.
Qed.

Lemma filter_nil {T} (f : T -> bool) (l : list T) :
  (forall x, In x l -> f x = false) -> List.filter f l = [].
Proof.
  induction l as [|x l IH]; intros H; cbn; [reflexivity|].
  rewrite (H x) by now left. apply IH. intros y Hy. apply H. now right.
Qed.

(** Without a calc account that holds tokens, [claim] has no state to name. *)
Lemma claim_farmingCalcs_nil states (calcAccounts : list FarmingCalc) :
  Forall (fun ca => calc_tokenAmount (calc_data ca) <= 0) calcAccounts ->
  claim_farmingCalcs states calcAccounts = [].
Proof.
  intros Hall. unfold claim_farmingCalcs. apply filter_nil.
  intros [state [ca|]] Hin; [|reflexivity]. cbn.
  apply in_map_iff in Hin. destruct Hin as (st & [= _ Hfind] & _).
  apply List.find_some in Hfind. destruct Hfind as [Hin _].
  apply List.filter_In in Hin. destruct Hin as [Hin _].
  rewrite Forall_forall in Hall. specialize (Hall ca).
  unfold BN.gtn. destruct (Z.gtb_spec (calc_tokenAmount (calc_data ca)) 0); [|reflexivity].
  assert (calc_tokenAmount (calc_data ca) <= 0); [|lia].
  apply Hall. apply list_elem_of_In. exact Hin.
Qed.

(** C2. The failures of the staking methods on a missing account or a
    missing state are thrown errors without structure, and nothing is
    submitted: [startStaking] throws an [Error] when the wallet owns no
    token account for the staking pool's mint, when the pool has no farming
    list, or when no farming state has [tokensTotal] other than
    [tokensUnlocked]; [endStaking] throws an [Error] when no ticket
    qualifies; [claim] throws an [Error] when the farming state is missing,
    and fails by the [TypeError] of reading [farmingCalcs[0].state] when no
    farming calc holds a positive amount. *)
Theorem staking_failures (w : World) :
  (forall params,
      let wallet := StartStakingParams.wallet params in
      staking_token_account w wallet = None
      \/ farming (stakingPoolInfo w) = None
      \/ (exists l, farming (stakingPoolInfo w) = Some l
                    /\ List.find farming_open l = None) ->
      exists e,
        fst (startStaking params w) = Throw e
        /\ In e [ Error "No account - cannot stake!";
                  Error "Dont have any farming tickets - cannot stake!";
                  Error "Dont have farming item - cannot stake!" ]
        /\ simple_error e
        /\ sent (snd (startStaking params w)) = sent w)
  /\ (forall params,
        let wallet := EndStakingParams.wallet params in
        0 <= now w ->
        (forall ticket, In ticket (tickets_of w wallet) ->
                        ~ ticket_qualifies (now w) ticket) ->
        exists e,
          fst (endStaking params w) = Throw e
          /\ In e [ Error "Dont have any farming tickets - cannot stake!";
                    Error "Dont have farming item - cannot stake!";
                    Error "No tickets, nothing to check" ]
          /\ simple_error e
          /\ sent (snd (endStaking params w)) = sent w)
  /\ (forall params,
        let stakingPool := ClaimParams.stakingPool params in
        farming stakingPool = None
        \/ (exists l, farming stakingPool = Some l /\ List.find farming_open l = None)
        \/ Forall (fun account =>
                     calc_tokenAmount (decode FARMING_CALC_LAYOUT (data account)) <= 0)
             (programAccounts w STAKING_PROGRAM_ADDRESS None
                [dataSize (span FARMING_CALC_LAYOUT)]) ->
        exists e,
          fst (claim params w) = Throw e
          /\ In e [ Error "Dont have any farming tickets - cannot claim!";
                    Error "Dont have farming item - cannot claim!";
                    TypeError_undefined "state" ]
          /\ simple_error e
          /\ sent (snd (claim params w)) = sent w).
Proof.
  split; [|split].
  - intros params wallet Hcause.
    unfold startStaking, staking_token_account in *. run. fold wallet.
    destruct (List.find _ (parsedTokenAccountsByOwner w (publicKey wallet)))
      as [tokenAccount|]; cbn.
    2:{ eexists. split; [reflexivity|]. cbn. tauto. }
    destruct (farming (stakingPoolInfo w)) as [l|]; cbn.
    2:{ eexists. split; [reflexivity|]. cbn. tauto. }
    destruct (List.find farming_open l) eqn:Efind; cbn.
    2:{ eexists. split; [reflexivity|]. cbn. tauto. }
    exfalso. destruct Hcause as [H|[H|(l' & [= <-] & H)]]; congruence.
  - intros params wallet Hnow Hnone.
    destruct (farming (stakingPoolInfo w)) as [l|] eqn:Efarm.
    2:{ unfold endStaking. run. rewrite Efarm. cbn.
        eexists. split; [reflexivity|]. cbn. tauto. }
    destruct (List.find farming_open l) as [item|] eqn:Efind.
    2:{ unfold endStaking. run. rewrite Efarm, Efind. cbn.
        eexists. split; [reflexivity|]. cbn. tauto. }
    rewrite (endStaking_run params w l item Efarm Efind). fold wallet.
    rewrite filter_nil.
    + eexists. split; [reflexivity|]. cbn. split; [tauto|]. split; [exact I|].
      unfold after_token_account. now destruct (staking_token_account w wallet).
    + intros ticket Hin. apply not_true_is_false. intros Hclose.
      apply (Hnone ticket Hin). now apply ticket_to_close_qualifies.
  - intros params stakingPool Hcause.
    unfold claim, getStakingState. run. fold stakingPool.
    destruct (farming stakingPool) as [l|]; cbn.
    2:{ eexists. split; [reflexivity|]. cbn. tauto. }
    destruct (List.find farming_open l) eqn:Efind; cbn.
    2:{ eexists. split; [reflexivity|]. cbn. tauto. }
    destruct Hcause as [H|[(l' & [= <-] & H)|Hcalc]]; [congruence..|].
    destruct (List.find _ (parsedTokenAccountsByOwner w _)); cbn;
      (rewrite claim_farmingCalcs_nil; [| apply Forall_map; exact Hcalc]);
      eexists; (split; [reflexivity|]); cbn; tauto.
Qed.

End StakingClient_facts.

(** ** The static tables *)

Section Tables.
Context {imports : Imports}.

Lemma same_tables_refl w : same_tables w w.
Proof. split; reflexivity. Qed.

Lemma same_tables_trans w1 w2 w3 :
  same_tables w1 w2 -> same_tables w2 w3 -> same_tables w1 w3.
Proof. unfold same_tables. intros [? ?] [? ?]. split; congruence. Qed.

Lemma keeps_ret {A} (a : A) : keeps_tables (ret a).
Proof. intros w. apply same_tables_refl. Qed.

Lemma keeps_throw {A} e : keeps_tables (@throw A e).
Proof. intros w. apply same_tables_refl. Qed.

Lemma keeps_lift {A} (r : Result A) : keeps_tables (lift r).
Proof. intros w. apply same_tables_refl. Qed.

Lemma keeps_bind {A B} (m : M A) (k : A -> M B) :
  keeps_tables m -> (forall a, keeps_tables (k a)) -> keeps_tables (bind m k).
Proof.
  intros Hm Hk w. unfold bind. specialize (Hm w).
  destruct (m w) as [[a|e] w1]; cbn in *; [|exact Hm].
  eapply same_tables_trans; [exact Hm | apply Hk].
Qed.

Lemma keeps_getProgramAccounts programId commitment filters :
  keeps_tables (getProgramAccounts programId commitment filters).
Proof. intros w. apply same_tables_refl. Qed.

Lemma keeps_getParsedTokenAccountsByOwner owner :
  keeps_tables (getParsedTokenAccountsByOwner owner).
Proof. intros w. apply same_tables_refl. Qed.

Lemma keeps_getMintInfo mint : keeps_tables (getMintInfo mint).
Proof. intros w. apply same_tables_refl. Qed.

Lemma keeps_getTokenAccount account : keeps_tables (getTokenAccount account).
Proof. intros w. apply same_tables_refl. Qed.

Lemma keeps_getStakingPoolInfo : keeps_tables getStakingPoolInfo.
Proof. intros w. apply same_tables_refl. Qed.

Lemma keeps_Date_now : keeps_tables Date_now.
Proof. intros w. apply same_tables_refl. Qed.

Lemma keeps_Keypair_generate : keeps_tables Keypair_generate.
Proof. intros w. split; reflexivity. Qed.

Lemma keeps_sendTransaction wallet transaction partialSigners :
  keeps_tables (sendTransaction wallet transaction partialSigners).
Proof.
  intros w. unfold sendTransaction. cbn.
  destruct (accepts w _); split; reflexivity.
Qed.

Lemma keeps_run_tasks {A} (tasks : list (nat * M A)) :
  Forall (fun task => keeps_tables (snd task)) tasks ->
  forall w, same_tables w (snd (run_tasks tasks w)).
Proof.
  induction 1 as [|[i task] tasks Htask _ IH]; intros w; cbn.
  - apply same_tables_refl.
  - specialize (Htask w). cbn in Htask. destruct (task w) as [r w1].
    specialize (IH w1). destruct (run_tasks tasks w1) as [rs w2]. cbn in *.
    eapply same_tables_trans; eassumption.
Qed.

Lemma keeps_Promise_all {A} (tasks : list (M A)) :
  Forall keeps_tables tasks -> keeps_tables (Promise_all tasks).
Proof.
  intros Htasks w. unfold Promise_all.
  pose proof (keeps_run_tasks
                (arrival_order (schedule w) (combine (seq 0 (length tasks)) tasks)))
    as Hrun.
  destruct (run_tasks _ w) as [outcomes w1] eqn:E.
  assert (Hw1 : same_tables w w1).
  { replace w1 with (snd (run_tasks
        (arrival_order (schedule w) (combine (seq 0 (length tasks)) tasks)) w))
      by now rewrite E.
    apply Hrun. rewrite Forall_forall. intros [i task] Hin. cbn.
    apply list_elem_of_In in Hin.
    eapply Permutation_in in Hin; [|apply arrival_order_Permutation].
    apply in_combine_r in Hin. rewrite Forall_forall in Htasks.
    apply Htasks. now apply list_elem_of_In. }
  destruct (first_failure outcomes); exact Hw1.
Qed.

Create HintDb frame.
Hint Resolve keeps_ret keeps_throw keeps_lift keeps_getProgramAccounts
  keeps_getParsedTokenAccountsByOwner keeps_getMintInfo keeps_getTokenAccount
  keeps_getStakingPoolInfo keeps_Date_now keeps_Keypair_generate
  keeps_sendTransaction : frame.

Ltac frame :=
  repeat first
    [ solve [auto with frame]
    | apply keeps_bind; [|intros ?]
    | match goal with
      | |- keeps_tables (match ?x with _ => _ end) => destruct x
      | |- keeps_tables (if ?x then _ else _) => destruct x
      end
    | progress cbv zeta ].

Lemma keeps_createTokenAccountTransaction owner mint amount payer :
  keeps_tables (createTokenAccountTransaction owner mint amount payer).
Proof. unfold createTokenAccountTransaction. frame. Qed.

Hint Resolve keeps_createTokenAccountTransaction : frame.

Lemma keeps_getMaxWithdrawable params : keeps_tables (getMaxWithdrawable params).
Proof. unfold getMaxWithdrawable. frame. Qed.

Lemma keeps_endStakingTicket params : keeps_tables (endStakingTicket params).
Proof. unfold endStakingTicket. frame. Qed.

Lemma keeps_getStakingTickets params : keeps_tables (getStakingTickets params).
Proof. unfold getStakingTickets. frame. Qed.

Lemma keeps_getStakingState params : keeps_tables (getStakingState params).
Proof. unfold getStakingState. frame. Qed.

Hint Resolve keeps_getMaxWithdrawable keeps_endStakingTicket keeps_getStakingTickets
  keeps_getStakingState : frame.

(** C7. [AUTHORIZED_POOLS] and [PERMISSIONLESS_POOLS] are tables from nine
    and three fixed names to the constant keys of the source, and no method
    of the two clients changes them. *)
Theorem static_tables :
  (List.map fst POOLS
   = [ "RIN_USDC"; "RIN_SOL"; "mSOL_USDT"; "mSOL_ETH"; "mSOL_BTC"; "mSOL_USDC";
       "SOL_USDC"; "mSOL_UST"; "mSOL_MNGO" ]%string
   /\ List.map fst PERM_POOLS = [ "SLX_USDC"; "DATE_USDC"; "OOGI_USDC" ]%string)
  /\ (size AUTHORIZED_POOLS = 9%nat /\ size PERMISSIONLESS_POOLS = 3%nat)
  /\ (forall name pool,
        (AUTHORIZED_POOLS !! name = Some pool <-> In (name, pool) POOLS)
        /\ (PERMISSIONLESS_POOLS !! name = Some pool <-> In (name, pool) PERM_POOLS))
  /\ (forall filters, keeps_tables (getPools filters))
  /\ (forall filters, keeps_tables (getV2Pools filters))
  /\ (forall params, keeps_tables (depositLiquidity params))
  /\ (forall params, keeps_tables (getMaxWithdrawable params))
  /\ (forall params, keeps_tables (withdrawLiquidity params))
  /\ (forall params, keeps_tables (swap params))
  /\ (forall params, keeps_tables (startStaking params))
  /\ (forall params, keeps_tables (endStaking params))
  /\ (forall params, keeps_tables (endStakingTicket params))
  /\ (forall params, keeps_tables (getStakingTickets params))
  /\ (forall params, keeps_tables (getStakingState params))
  /\ (forall params, keeps_tables (claim params)).
Proof.
  split; [split; reflexivity|].
  split; [split; vm_compute; reflexivity|].
  split.
  { intros name pool. unfold AUTHORIZED_POOLS, PERMISSIONLESS_POOLS.
    rewrite <- !list_elem_of_In.
    split; (rewrite <- elem_of_list_to_map; [reflexivity|]);
      apply (bool_decide_unpack _); vm_compute; exact I. }
  repeat match goal with |- _ /\ _ => split end; intros params.
  - unfold getPools. frame.
  - unfold getV2Pools. frame.
  - unfold depositLiquidity. frame.
  - frame.
  - unfold withdrawLiquidity. frame.
  - unfold swap. frame.
  - unfold startStaking, createAccountInstruction. frame.
  - unfold endStaking. frame.
    apply keeps_Promise_all. apply Forall_forall. intros task Htask.
    apply list_elem_of_In, in_map_iff in Htask. destruct Htask as (t & <- & _).
    frame.
  - frame.
  - frame.
  - frame.
  - unfold claim. frame.
Qed.

End Tables.

(** ** How much [muln] loses *)

Section Limb_bounds.
Import BN.

Lemma of_words_ok_nonneg ws : Forall word_ok ws -> 0 <= of_words ws.
Proof.
  induction 1 as [|w ws Hw _ IH]; cbn [of_words]; [lia|].
  unfold word_ok, word_base in *. lia.
Qed.

(** The sum of the truncated limb products lies between the product by the
    whole part of the number and the floor of the exact product. *)
Lemma limb_products_bounds n d ws :
  0 <= n -> Forall word_ok ws ->
  of_words ws * (n / Z.pos d) <= of_words (map (limb_product n d) ws)
  <= of_words ws * n / Z.pos d.
Proof.
  intros Hn Hws. induction Hws as [|w ws Hw Hws IH]; cbn [map of_words].
  - rewrite Z.div_0_l by lia. lia.
  - pose proof (of_words_ok_nonneg ws Hws) as HR.
    unfold word_ok in Hw. unfold limb_product at 1 3.
    pose proof (Z.mul_div_le (w * n) (Z.pos d) ltac:(lia)) as H1.
    pose proof (Z.mul_div_le (of_words ws * n) (Z.pos d) ltac:(lia)) as H2.
    pose proof (Z.mul_div_le n (Z.pos d) ltac:(lia)) as H3.
    assert (0 <= n / Z.pos d) by (apply Z.div_pos; lia).
    split.
    + assert (w * (n / Z.pos d) <= w * n / Z.pos d).
      { apply Z.div_le_lower_bound; [lia|]. nia. }
      unfold word_base in *. nia.
    + apply Z.div_le_lower_bound; [lia|]. unfold word_base in *. nia.
Qed.

Lemma muln_Q_bounds x q v :
  0 <= x -> (0 <= q)%Q -> (q < inject_Z word_base)%Q -> muln x q = Ok v ->
  x * Qfloor q <= v <= Qfloor (inject_Z x * q).
Proof.
  intros Hx Hq Hb. rewrite muln_Q by assumption. intros [= <-].
  destruct (words_spec x Hx) as [Hv Hf].
  destruct q as [n d]. unfold Qle in Hq. cbn in Hq.
  pose proof (limb_products_bounds n d (words x) ltac:(lia) Hf) as H.
  rewrite Hv in H. unfold Qfloor, Qmult. cbn [Qnum Qden inject_Z].
  exact H.
Qed.

(** A larger number gives a larger product, limb by limb. *)
Lemma limb_product_mono n d n' d' w :
  0 <= w -> n * Z.pos d' <= n' * Z.pos d ->
  limb_product n d w <= limb_product n' d' w.
Proof.
  intros Hw Hle. unfold limb_product.
  apply Z.div_le_lower_bound; [lia|].
  pose proof (Z.mul_div_le (w * n) (Z.pos d) ltac:(lia)) as H.
  apply (Z.mul_le_mono_pos_l _ _ (Z.pos d)); [lia|].
  transitivity (w * n * Z.pos d'); [nia|]. nia.
Qed.

Lemma limb_products_mono n d n' d' ws :
  n * Z.pos d' <= n' * Z.pos d -> Forall word_ok ws ->
  of_words (map (limb_product n d) ws) <= of_words (map (limb_product n' d') ws).
Proof.
  intros Hle Hws. induction Hws as [|w ws Hw _ IH]; cbn [map of_words]; [lia|].
  pose proof (limb_product_mono n d n' d' w ltac:(unfold word_ok in Hw; lia) Hle).
  unfold word_base in *. lia.
Qed.

Lemma muln_Q_mono x q q' v v' :
  0 <= x -> (0 <= q)%Q -> (q <= q')%Q -> (q' < inject_Z word_base)%Q ->
  muln x q = Ok v -> muln x q' = Ok v' -> 0 <= v <= v'.
Proof.
  intros Hx Hq Hle Hb Hv Hv'.
  assert (Hq' : (0 <= q')%Q) by lra.
  assert (Hbq : (q < inject_Z word_base)%Q) by lra.
  split; [apply (muln_Q_nonneg x q v); assumption|].
  rewrite muln_Q in Hv, Hv' by assumption.
  injection Hv as <-. injection Hv' as <-.
  apply limb_products_mono; [|apply words_spec; exact Hx].
  destruct q as [n d], q' as [n' d']. unfold Qle in Hle. cbn in *. exact Hle.
Qed.

Lemma div_nonneg x y : 0 <= x -> 0 < y -> div x y = Ok (x / y).
Proof.
  intros Hx Hy. unfold div.
  destruct (Z.eqb_spec y 0) as [E|_]; [lia|].
  now rewrite Z.quot_div_nonneg by lia.
Qed.

End Limb_bounds.

(** ** The amounts of the pool client *)

Section Amounts.
Context {imports : Imports}.

Lemma Qfloor_div_pos x (k : positive) :
  Qfloor (x / inject_Z (Z.pos k)) = Qfloor x / Z.pos k.
Proof.
  destruct x as [a b]. unfold Qfloor, Qdiv, Qmult, Qinv, inject_Z. cbn [Qnum Qden].
  rewrite Z.mul_1_r, Pos2Z.inj_mul, Z.div_div by lia. reflexivity.
Qed.

Lemma Qfloor_nonneg x : (0 <= x)%Q -> 0 <= Qfloor x.
Proof. intros H. apply Qfloor_resp_le in H. exact H. Qed.

Lemma Qfloor_scaled_le (m : Z) (f : Q) :
  0 <= m -> (0 <= f)%Q -> (f <= 1)%Q ->
  0 <= Qfloor (inject_Z m * f) <= m.
Proof.
  intros Hm H0 H1.
  assert (Hq : (0 <= inject_Z m)%Q) by (unfold Qle; cbn; lia).
  split.
  - apply Qfloor_nonneg. apply Qmult_le_0_compat; assumption.
  - rewrite <- (Qfloor_Z m) at 2. apply Qfloor_resp_le. nra.
Qed.

(** *** Swap *)

(** The minimum income lies between the floors of m * k / 1000 for the
    whole part k of 1000 - 1000 * s and for the number itself; it is the
    latter when m fits one word, the products being exact. *)
Lemma swap_minIncomeAmount_range m s v :
  0 <= m -> (0 <= s)%Q -> (s <= 1)%Q ->
  swap_minIncomeAmount m s = Ok v ->
  m * Qfloor (1000 - s * 1000) / 1000 <= v <= minIncome_stated m s
  /\ minIncome_stated m s <= m
  /\ (m < BN.word_base -> v = minIncome_stated m s).
Proof.
  intros Hm Hs0 Hs1. unfold swap_minIncomeAmount, result_bind.
  assert (H0 : (0 <= 1000 - s * 1000)%Q) by lra.
  assert (H1 : (1000 - s * 1000 < inject_Z BN.word_base)%Q).
  { unfold BN.word_base. change (inject_Z 67108864) with (67108864 # 1)%Q. lra. }
  destruct (BN.muln m (1000 - s * 1000)) as [mu|e] eqn:Emu; [|discriminate].
  intros [= <-].
  destruct (muln_Q_bounds _ _ _ Hm H0 H1 Emu) as [Hlo Hhi].
  pose proof (Qfloor_nonneg _ H0) as Hk.
  assert (Estated : minIncome_stated m s
                    = Qfloor (inject_Z m * (1000 - s * 1000)) / 1000).
  { unfold minIncome_stated.
    rewrite <- (Qfloor_div_pos (inject_Z m * (1000 - s * 1000)) 1000).
    apply Qfloor_comp. change (inject_Z (Z.pos 1000)) with 1000%Q.
    unfold Qdiv. ring. }
  split; [split|split].
  - unfold BN.divn. rewrite Z.quot_div_nonneg by nia.
    apply Z.div_le_mono; lia.
  - rewrite Estated. unfold BN.divn. rewrite Z.quot_div_nonneg by nia.
    apply Z.div_le_mono; lia.
  - unfold minIncome_stated.
    assert (E : (inject_Z m * (1000 - 1000 * s) / 1000 == inject_Z m * (1 - s))%Q)
      by field.
    rewrite (Qfloor_comp _ _ E).
    apply Qfloor_scaled_le; [exact Hm | lra | lra].
  - intros Hword. rewrite muln_Q_one_word in Emu by (assumption || lia).
    injection Emu as <-. rewrite Estated.
    unfold BN.divn. apply Z.quot_div_nonneg; [|lia].
    apply Qfloor_nonneg. apply Qmult_le_0_compat; [|exact H0].
    unfold Qle. cbn. lia.
Qed.

Lemma swap_transaction_minIncome params w ub uq mi dst fee :
  omap swap_minIncome_of
    (swap_head params ub uq mi ++ swap_referral_part params w ub uq dst fee
     ++ swap_tail params ub uq) = [mi].
Proof.
  unfold swap_head, swap_head_with, swap_referral_part, swap_tail.
  destruct (SwapParams.userBaseTokenAccount params),
    (SwapParams.userQuoteTokenAccount params),
    (SwapParams.referralParams params),
    (referral_account_created params w),
    (String.eqb (baseTokenMint (SwapParams.pool params)) SOL_MINT),
    (String.eqb (quoteTokenMint (SwapParams.pool params)) SOL_MINT);
    reflexivity.
Qed.

Lemma swap_transaction_fee params w ub uq mi dst fee :
  omap transfer_amount_of
    (swap_head params ub uq mi ++ swap_referral_part params w ub uq dst fee
     ++ swap_tail params ub uq)
  = match SwapParams.referralParams params with Some _ => [fee] | None => [] end.
Proof.
  unfold swap_head, swap_head_with, swap_referral_part, swap_tail.
  destruct (SwapParams.userBaseTokenAccount params),
    (SwapParams.userQuoteTokenAccount params),
    (SwapParams.referralParams params),
    (referral_account_created params w),
    (String.eqb (baseTokenMint (SwapParams.pool params)) SOL_MINT),
    (String.eqb (quoteTokenMint (SwapParams.pool params)) SOL_MINT);
    reflexivity.
Qed.

(** Between the neighbouring whole numbers of thousandths: the minimum
    income is at most floor(m * k' / 1000) for k' the number 1000 - 1000 *
    s rounded up, which is at most m. *)
Lemma swap_minIncomeAmount_between m s v :
  0 <= m -> (0 <= s)%Q -> (s <= 1)%Q ->
  swap_minIncomeAmount m s = Ok v ->
  m * Qfloor (1000 - s * 1000) / 1000 <= v <= m * Qceiling (1000 - s * 1000) / 1000
  /\ m * Qceiling (1000 - s * 1000) / 1000 <= m.
Proof.
  intros Hm Hs0 Hs1 Hv.
  destruct (swap_minIncomeAmount_range m s v Hm Hs0 Hs1 Hv) as ([Hlo Hhi] & _ & _).
  assert (Hq : (inject_Z m * (1000 - 1000 * s) / 1000
                == inject_Z m * (1000 - s * 1000) / inject_Z (Z.pos 1000))%Q).
  { change (inject_Z (Z.pos 1000)) with 1000%Q. unfold Qdiv. ring. }
  assert (Hceil : Qceiling (1000 - s * 1000) <= 1000).
  { assert (H : Qceiling (1000 - s * 1000) <= Qceiling (inject_Z 1000)).
    { apply Qceiling_resp_le. change (inject_Z 1000) with 1000%Q. lra. }
    rewrite Qceiling_Z in H. exact H. }
  assert (Hup : Qfloor (inject_Z m * (1000 - s * 1000))
                <= m * Qceiling (1000 - s * 1000)).
  { rewrite <- (Qfloor_Z (m * Qceiling (1000 - s * 1000))). apply Qfloor_resp_le.
    rewrite inject_Z_mult.
    pose proof (Qle_ceiling (1000 - s * 1000)) as Hc.
    assert (0 <= inject_Z m)%Q by (unfold Qle; cbn; lia).
    nra. }
  split; [split; [exact Hlo|]|].
  - etransitivity; [exact Hhi|]. unfold minIncome_stated.
    rewrite (Qfloor_comp _ _ Hq), Qfloor_div_pos.
    apply Z.div_le_mono; lia.
  - apply Z.div_le_upper_bound; nia.
Qed.

(** With a slippage between 0 and 1 the minimum income is computed,
    whatever the amount. *)
Lemma swap_minIncomeAmount_Ok m s :
  (0 <= s)%Q -> (s <= 1)%Q -> exists v, swap_minIncomeAmount m s = Ok v.
Proof.
  intros Hs0 Hs1. unfold swap_minIncomeAmount, result_bind, BN.muln. cbv zeta.
  destruct (Qlt_le_dec (1000 - s * 1000) 0) as [Hneg|_]; [lra|].
  destruct (Qlt_le_dec (1000 - s * 1000) (inject_Z BN.word_base)) as [_|Hbig].
  - eexists. reflexivity.
  - exfalso. unfold BN.word_base in Hbig.
    change (inject_Z 67108864) with (67108864 # 1)%Q in Hbig. lra.
Qed.

(** X2. For a minimum income m that is not negative and a slippage s
    between 0 and 1, [swap] submits one transaction with one swap
    instruction, unless there are [referralParams] and it throws an [Error]
    before submitting anything.  The minimum income of the instruction lies
    between those of the neighbouring whole numbers of thousandths: it is at
    least floor(m * k / 1000) for k the number 1000 - 1000 * s rounded down,
    and at most floor(m * k' / 1000) for k' that number rounded up, which is
    at most m.  When m is below 2^26 it is within one unit of floor(m *
    (1000 - 1000 * s) / 1000). *)
Theorem swap_min_income_range (params : SwapParams.t) (w : World) :
  let m := SwapParams.minIncomeAmount params in
  let s := default (1 # 1000)%Q (SwapParams.slippage params) in
  0 <= m -> (0 <= s)%Q -> (s <= 1)%Q ->
  (SwapParams.referralParams params <> None
   /\ sent (snd (swap params w)) = sent w
   /\ exists message, fst (swap params w) = Throw (Error message))
  \/ exists tx outcome minIncome,
       sent (snd (swap params w))
       = sent w ++ [(send_call (SwapParams.wallet params) tx, outcome)]
       /\ fst (swap params w) = send_result outcome
       /\ omap swap_minIncome_of tx = [minIncome]
       /\ m * Qfloor (1000 - s * 1000) / 1000 <= minIncome
       /\ minIncome <= m * Qceiling (1000 - s * 1000) / 1000
       /\ m * Qceiling (1000 - s * 1000) / 1000 <= m
       /\ (m < BN.word_base ->
           minIncome_stated m s - 1 <= minIncome <= minIncome_stated m s + 1).
Proof.
  intros m s Hm Hs0 Hs1.
  destruct (swap_minIncomeAmount_Ok m s Hs0 Hs1) as (v & Hv).
  destruct (swap_run params w)
    as [(tx & outcome & Htx & Hsent & Hres)
       | [(Hsent & Hres & Hcause) | (Hsent & Hres & Href & _)]].
  - right. destruct Htx as (ub & uq & mi & dst & fee & _ & _ & Hmi & _ & ->).
    eexists; exists outcome, mi. split; [exact Hsent|]. split; [exact Hres|].
    split; [apply swap_transaction_minIncome|].
    destruct (swap_minIncomeAmount_between m s mi Hm Hs0 Hs1 Hmi) as ([Hlo Hhi] & Hle).
    destruct (swap_minIncomeAmount_range m s mi Hm Hs0 Hs1 Hmi) as (_ & _ & Hword).
    split; [exact Hlo|]. split; [exact Hhi|]. split; [exact Hle|].
    intros Hsmall. rewrite (Hword Hsmall). lia.
  - left. fold m s in Hcause. split; [|split; [exact Hsent | eauto]].
    destruct Hcause as [(e & He) | [(mi & p & e & _ & Hp & _) | (mi & p & f & _ & Hp & _)]];
      congruence.
  - left. split; [exact Href|]. split; [exact Hsent|]. eauto.
Qed.

(** With a percent between 0 and 100 the fee is computed, and it lies
    between 0 and the minimum income. *)
Lemma swap_refFeeAmount_range minIncome percent :
  0 <= minIncome -> (0 <= percent)%Q -> (percent <= 100)%Q ->
  0 < PRECISION_NOMINATOR ->
  exists fee, swap_refFeeAmount minIncome percent = Ok fee /\ 0 <= fee <= minIncome.
Proof.
  intros Hm Hp0 Hp1 HP. unfold swap_refFeeAmount, result_bind.
  assert (Hb : (percent < inject_Z BN.word_base)%Q).
  { unfold BN.word_base. change (inject_Z 67108864) with (67108864 # 1)%Q. lra. }
  destruct (BN.muln PRECISION_NOMINATOR percent) as [x|e] eqn:Ex.
  2:{ rewrite muln_Q in Ex by (assumption || lia). discriminate. }
  assert (HP0 : 0 <= PRECISION_NOMINATOR) by lia.
  destruct (muln_Q_bounds _ _ _ HP0 Hp0 Hb Ex) as [Hlo Hhi].
  pose proof (Qfloor_nonneg _ Hp0) as Hk.
  assert (Hx : x <= 100 * PRECISION_NOMINATOR).
  { etransitivity; [exact Hhi|].
    rewrite <- (Qfloor_Z (100 * PRECISION_NOMINATOR)). apply Qfloor_resp_le.
    rewrite inject_Z_mult.
    assert (0 <= inject_Z PRECISION_NOMINATOR)%Q by (unfold Qle; cbn; lia).
    change (inject_Z 100) with 100%Q. nra. }
  unfold BN.div, BN.mul, BN.divn.
  destruct (Z.eqb_spec PRECISION_NOMINATOR 0) as [E|_]; [lia|].
  eexists. split; [reflexivity|].
  rewrite (Z.quot_div_nonneg x 100) by nia.
  assert (0 <= x / 100 <= PRECISION_NOMINATOR).
  { split; [apply Z.div_pos; nia|].
    apply Z.div_le_upper_bound; lia. }
  rewrite Z.quot_div_nonneg by nia. split.
  - apply Z.div_pos; nia.
  - apply Z.div_le_upper_bound; nia.
Qed.

(** The amounts on the way of a swap with a referral, all in range. *)
Lemma swap_amounts_in_range m s percent :
  0 <= m -> (0 <= s)%Q -> (s <= 1)%Q ->
  (0 <= percent)%Q -> (percent <= 100)%Q -> 0 < PRECISION_NOMINATOR ->
  exists minIncome fee,
    swap_minIncomeAmount m s = Ok minIncome
    /\ swap_refFeeAmount minIncome percent = Ok fee
    /\ 0 <= fee <= minIncome /\ minIncome <= m.
Proof.
  intros Hm Hs0 Hs1 Hp0 Hp1 HP.
  destruct (swap_minIncomeAmount_in_range m s Hm Hs0 Hs1) as (v & Hv & Hv0).
  destruct (swap_refFeeAmount_range v _ Hv0 Hp0 Hp1 HP) as (f & Hf & Hrange).
  destruct (swap_minIncomeAmount_between m s v Hm Hs0 Hs1 Hv) as ([_ Hhi] & Hle).
  exists v, f. repeat split; try assumption; lia.
Qed.

(** X3. A call of [swap] with [referralParams], a minimum income m that is
    not negative, a slippage between 0 and 1, a percent between 0 and 100
    and a positive precision nominator does one of three things.  It throws
    [Error "No token account for referral wallet!"] and submits nothing, the
    referral owning no token account for the income mint and
    [createTokenAccounts] not being set.  Or it throws [Error "Assertion
    failed"] and submits nothing, which needs m to be 2^53 or more: the fee
    is handed to [Token.createTransferInstruction] as a number.  Or it
    submits one transaction with one swap instruction and one transfer, and
    the fee transferred lies between 0 and the minimum income of the swap
    instruction, which is at most m; the fee is below 2^53. *)
Theorem swap_fee_within_income (params : SwapParams.t) (r : ReferralParams.t)
    (w : World) :
  let m := SwapParams.minIncomeAmount params in
  let s := default (1 # 1000)%Q (SwapParams.slippage params) in
  SwapParams.referralParams params = Some r ->
  0 <= m -> (0 <= s)%Q -> (s <= 1)%Q ->
  (0 <= ReferralParams.referralPercent r)%Q ->
  (ReferralParams.referralPercent r <= 100)%Q ->
  0 < PRECISION_NOMINATOR ->
  (sent (snd (swap params w)) = sent w
   /\ fst (swap params w) = Throw (Error "No token account for referral wallet!")
   /\ referral_destination params w = None
   /\ ReferralParams.createTokenAccounts r = false)
  \/ (sent (snd (swap params w)) = sent w
      /\ fst (swap params w) = Throw (Error "Assertion failed")
      /\ 2 ^ 53 <= m)
  \/ exists tx outcome minIncome fee,
       sent (snd (swap params w))
       = sent w ++ [(send_call (SwapParams.wallet params) tx, outcome)]
       /\ fst (swap params w) = send_result outcome
       /\ omap swap_minIncome_of tx = [minIncome]
       /\ omap transfer_amount_of tx = [fee]
       /\ 0 <= fee <= minIncome
       /\ minIncome <= m
       /\ fee < 2 ^ 53.
Proof.
  intros m s Hr Hm Hs0 Hs1 Hp0 Hp1 HP.
  destruct (swap_amounts_in_range m s _ Hm Hs0 Hs1 Hp0 Hp1 HP)
    as (v & f & Hv & Hf & Hrange & Hle).
  destruct (swap_run params w)
    as [(tx & outcome & Htx & Hsent & Hres)
       | [(Hsent & Hres & Hcause) | (Hsent & Hres & _ & Hdest & Hnot)]].
  - right. right.
    destruct Htx as (ub & uq & mi & dst & fee & _ & _ & Hmi & Href & ->).
    fold m s in Hmi. rewrite Hv in Hmi. injection Hmi as <-.
    destruct (Href r Hr) as (Hfee & Hsmall & _). rewrite Hf in Hfee.
    injection Hfee as <-.
    eexists; exists outcome, v, f. split; [exact Hsent|]. split; [exact Hres|].
    split; [apply swap_transaction_minIncome|].
    split; [rewrite swap_transaction_fee, Hr; reflexivity|].
    split; [exact Hrange|]. split; [exact Hle | lia].
  - right. left. split; [exact Hsent|]. split; [exact Hres|]. fold m s in Hcause.
    destruct Hcause
      as [(e & He) | [(mi & p & e & Hmi & Hp & He) | (mi & p & fee & Hmi & Hp & He & Hbig & _)]].
    + congruence.
    + rewrite Hv in Hmi. injection Hmi as <-.
      rewrite Hr in Hp. injection Hp as <-. congruence.
    + rewrite Hv in Hmi. injection Hmi as <-.
      rewrite Hr in Hp. injection Hp as <-.
      rewrite Hf in He. injection He as <-. lia.
  - left. split; [exact Hsent|]. split; [exact Hres|]. split; [exact Hdest|].
    unfold referral_account_created in Hnot. rewrite Hr, Hdest in Hnot. exact Hnot.
Qed.

(** *** Liquidity *)

Lemma muln_slippage_applied x s :
  0 <= x -> (0 <= s)%Q -> (s <= 1)%Q ->
  exists v, BN.muln x (1 - s) = Ok v /\ slippage_applied x v s.
Proof.
  intros Hx Hs0 Hs1.
  assert (H0 : (0 <= 1 - s)%Q) by lra.
  assert (H1 : (1 - s < inject_Z BN.word_base)%Q).
  { unfold BN.word_base. change (inject_Z 67108864) with (67108864 # 1)%Q. lra. }
  destruct (BN.muln x (1 - s)) as [v|e] eqn:Ev.
  2:{ rewrite muln_Q in Ev by assumption. discriminate. }
  exists v. split; [reflexivity|].
  destruct (muln_Q_bounds _ _ _ Hx H0 H1 Ev) as [Hlo Hhi].
  pose proof (Qfloor_nonneg _ H0) as Hk.
  pose proof (Qfloor_scaled_le x (1 - s) Hx H0 ltac:(lra)) as Hscaled.
  unfold slippage_applied.
  split; [split; [nia | lia]|]. split; [|split].
  - intros Hzero.
    rewrite (muln_Q_whole x (1 - s) 1) in Ev;
      [| exact Hx | rewrite Hzero; reflexivity | unfold BN.word_base; lia].
    injection Ev as <-. lia.
  - intros Hone.
    rewrite (muln_Q_whole x (1 - s) 0) in Ev;
      [| exact Hx | rewrite Hone; reflexivity | unfold BN.word_base; lia].
    injection Ev as <-. lia.
  - intros Hword. rewrite muln_Q_one_word in Ev by (assumption || lia).
    assert (Ev' : Qfloor (inject_Z x * (1 - s)) = v) by congruence.
    unfold returnedMin_stated. lia.
Qed.

(** X4. When the pool's base vault holds nothing, [depositLiquidity] throws
    [Error "Assertion failed"] (bn.js refuses to divide by zero) before it
    draws a key or submits anything: the world is as it was. *)
Theorem deposit_empty_vault (params : DepositLiquidityParams.t) (w : World) :
  tokenAccount_amount w (baseTokenVault (DepositLiquidityParams.pool params)) = 0 ->
  depositLiquidity params w = (Throw (Error "Assertion failed"), w).
Proof.
  intros Hzero. unfold depositLiquidity, deposit_creationSize, BN.div. run.
  rewrite Hzero. reflexivity.
Qed.

(** X5. With a supply and a maximum base amount that are not negative, a
    base vault that is not empty and a slippage between 0 and 1,
    [depositLiquidity] submits one transaction with one deposit instruction.
    Its creation size is not negative and not above the share =
    floor(supply * maxBaseTokenAmount / vault amount); it is the share when
    the slippage is 0, and 0 when the slippage is 1; when the share is below
    2^26 it is within one unit of floor(share * (1 - slippage)). *)
Theorem deposit_creation_size_range (params : DepositLiquidityParams.t) (w : World) :
  let pool := DepositLiquidityParams.pool params in
  let wallet := DepositLiquidityParams.wallet params in
  let supply := mintInfo_supply w (poolMint pool) in
  let maxBaseTokenAmount := DepositLiquidityParams.maxBaseTokenAmount params in
  let amount := tokenAccount_amount w (baseTokenVault pool) in
  let slippage := default (1 # 100)%Q (DepositLiquidityParams.slippage params) in
  0 <= supply -> 0 <= maxBaseTokenAmount -> 0 < amount ->
  (0 <= slippage)%Q -> (slippage <= 1)%Q ->
  exists tx outcome creationSize,
    sent (snd (depositLiquidity params w)) = sent w ++ [(send_call wallet tx, outcome)]
    /\ fst (depositLiquidity params w) = send_result outcome
    /\ omap deposit_creationSize_of tx = [creationSize]
    /\ slippage_applied (supply * maxBaseTokenAmount / amount) creationSize slippage.
Proof.
  intros pool wallet supply maxBase amount slippage Hsupply Hmax Hamount Hs0 Hs1.
  assert (Hshare : 0 <= supply * maxBase / amount) by (apply Z.div_pos; nia).
  destruct (muln_slippage_applied _ _ Hshare Hs0 Hs1) as (c & Hc & Happlied).
  assert (Hsize : deposit_creationSize supply maxBase amount slippage = Ok c).
  { unfold deposit_creationSize, BN.mul.
    rewrite div_nonneg by nia. exact Hc. }
  destruct (depositLiquidity_run params w)
    as [(size & account & outcome & Hok & _ & Hsent & Hr) | (_ & _ & e & He)].
  2:{ fold pool supply maxBase amount slippage in He. congruence. }
  fold pool supply maxBase amount slippage in Hok. rewrite Hsize in Hok.
  injection Hok as <-.
  eexists; exists outcome, c. split; [exact Hsent|]. split; [exact Hr|].
  split; [|exact Happlied].
  destruct (DepositLiquidityParams.userPoolTokenAccount params); reflexivity.
Qed.

(** A run of [withdrawLiquidity] from the minimums it starts from. *)
Lemma withdrawLiquidity_run_amounts (params : WithdrawLiquidityParams.t) (w : World)
    base quote baseMin quoteMin :
  let pool := WithdrawLiquidityParams.pool params in
  let wallet := WithdrawLiquidityParams.wallet params in
  let slippage := default (1 # 1000)%Q (WithdrawLiquidityParams.slippage params) in
  let programId := getPoolAddress (default V1 (poolVersion pool)) in
  let poolTokenAmount := WithdrawLiquidityParams.poolTokenAmount params in
  let supply := mintInfo_supply w (poolMint pool) in
  match WithdrawLiquidityParams.baseTokenReturnedMin params,
        WithdrawLiquidityParams.quoteTokenReturnedMin params with
  | Some b, Some q => base = b /\ quote = q
  | b, q =>
      exists withdrawAmountBase withdrawAmountQuote,
        BN.div (BN.mul (tokenAccount_amount w (baseTokenVault pool)) poolTokenAmount)
          supply = Ok withdrawAmountBase
        /\ BN.div (BN.mul (tokenAccount_amount w (quoteTokenVault pool)) poolTokenAmount)
             supply = Ok withdrawAmountQuote
        /\ base = default withdrawAmountBase b
        /\ quote = default withdrawAmountQuote q
  end ->
  BN.muln base (1 - slippage)%Q = Ok baseMin ->
  BN.muln quote (1 - slippage)%Q = Ok quoteMin ->
  exists userBase userQuote outcome,
    sent (snd (withdrawLiquidity params w))
    = sent w
      ++ [(send_call wallet
             (match WithdrawLiquidityParams.userBaseTokenAccount params with
              | None =>
                  [CreateTokenAccount (publicKey wallet) (baseTokenMint pool)
                     None None userBase]
              | Some _ => []
              end
              ++ match WithdrawLiquidityParams.userQuoteTokenAccount params with
                 | None =>
                     [CreateTokenAccount (publicKey wallet) (quoteTokenMint pool)
                        None None userQuote]
                 | Some _ => []
                 end
              ++ [WithdrawLiquidity params userBase userQuote baseMin quoteMin
                    (findProgramAddress [poolPublicKey pool] programId)
                    (publicKey wallet) programId]), outcome)]
    /\ fst (withdrawLiquidity params w) = send_result outcome.
Proof.
  destruct params as [pool amount slip wallet bmin qmin ub uq].
  unfold withdrawLiquidity, getMaxWithdrawable, send_call.
  cbn [WithdrawLiquidityParams.pool WithdrawLiquidityParams.poolTokenAmount
       WithdrawLiquidityParams.slippage WithdrawLiquidityParams.wallet
       WithdrawLiquidityParams.baseTokenReturnedMin
       WithdrawLiquidityParams.quoteTokenReturnedMin
       WithdrawLiquidityParams.userBaseTokenAccount
       WithdrawLiquidityParams.userQuoteTokenAccount].
  run.
  intros Hreq Hb Hq.
  destruct bmin, qmin;
    [destruct Hreq as [-> ->]
    | destruct Hreq as (wb & wq & Hwb & Hwq & -> & ->)..];
    destruct ub, uq; cbn;
    rewrite ?Hwb, ?Hwq; cbn; cbn in Hb, Hq; rewrite Hb, Hq; cbn;
    match goal with |- context [accepts ?w ?c] => destruct (accepts w c) end; cbn;
    do 3 eexists; split; reflexivity.
Qed.

(** X6. With a supply of 0 of the pool mint, [getMaxWithdrawable] throws
    [Error "Assertion failed"] and changes nothing, and [withdrawLiquidity]
    without one of the two minimums throws the same error and submits
    nothing. *)
Theorem withdraw_zero_supply (params : WithdrawLiquidityParams.t) (w : World) :
  mintInfo_supply w (poolMint (WithdrawLiquidityParams.pool params)) = 0 ->
  getMaxWithdrawable params w = (Throw (Error "Assertion failed"), w)
  /\ (WithdrawLiquidityParams.baseTokenReturnedMin params = None
      \/ WithdrawLiquidityParams.quoteTokenReturnedMin params = None ->
      fst (withdrawLiquidity params w) = Throw (Error "Assertion failed")
      /\ sent (snd (withdrawLiquidity params w)) = sent w).
Proof.
  intros Hzero. split.
  - unfold getMaxWithdrawable, BN.div. run. rewrite Hzero. reflexivity.
  - destruct params as [pool amount slip wallet bmin qmin ub uq].
    unfold withdrawLiquidity, getMaxWithdrawable, BN.div.
    cbn [WithdrawLiquidityParams.pool WithdrawLiquidityParams.poolTokenAmount
         WithdrawLiquidityParams.slippage WithdrawLiquidityParams.wallet
         WithdrawLiquidityParams.baseTokenReturnedMin
         WithdrawLiquidityParams.quoteTokenReturnedMin
         WithdrawLiquidityParams.userBaseTokenAccount
         WithdrawLiquidityParams.userQuoteTokenAccount] in *.
    run. intros Hnone.
    destruct bmin, qmin; [destruct Hnone; discriminate | ..];
      destruct ub, uq; cbn; rewrite Hzero; cbn; split; reflexivity.
Qed.

(** X7. A withdrawal starts from the minimums of the parameters, and for an
    absent one from floor(vault amount * poolTokenAmount / supply), the
    amount of [getMaxWithdrawable].  When these are not negative, the
    slippage is between 0 and 1, and either both minimums are given
    (whatever the supply) or the supply is positive and the amounts of the
    node are not negative, [withdrawLiquidity] submits one transaction with
    one withdraw instruction.  Each minimum it carries is not negative and
    not above the minimum it started from; it is that minimum when the
    slippage is 0, and 0 when the slippage is 1; when that minimum is below
    2^26 it is within one unit of floor(minimum * (1 - slippage)). *)
Theorem withdraw_minimums_range (params : WithdrawLiquidityParams.t) (w : World) :
  let pool := WithdrawLiquidityParams.pool params in
  let wallet := WithdrawLiquidityParams.wallet params in
  let slippage := default (1 # 1000)%Q (WithdrawLiquidityParams.slippage params) in
  let supply := mintInfo_supply w (poolMint pool) in
  let base := fst (withdraw_requested params w) in
  let quote := snd (withdraw_requested params w) in
  (0 <= slippage)%Q -> (slippage <= 1)%Q ->
  0 <= base -> 0 <= quote ->
  (WithdrawLiquidityParams.baseTokenReturnedMin params <> None
   /\ WithdrawLiquidityParams.quoteTokenReturnedMin params <> None)
  \/ (0 < supply
      /\ 0 <= tokenAccount_amount w (baseTokenVault pool)
      /\ 0 <= tokenAccount_amount w (quoteTokenVault pool)
      /\ 0 <= WithdrawLiquidityParams.poolTokenAmount params) ->
  exists tx outcome baseMin quoteMin,
    sent (snd (withdrawLiquidity params w)) = sent w ++ [(send_call wallet tx, outcome)]
    /\ fst (withdrawLiquidity params w) = send_result outcome
    /\ omap withdraw_minimums_of tx = [(baseMin, quoteMin)]
    /\ slippage_applied base baseMin slippage
    /\ slippage_applied quote quoteMin slippage.
Proof.
  intros pool wallet slippage supply base quote Hs0 Hs1 Hbase Hquote Hin.
  destruct (muln_slippage_applied _ _ Hbase Hs0 Hs1) as (bm & Hbm & Hbt).
  destruct (muln_slippage_applied _ _ Hquote Hs0 Hs1) as (qm & Hqm & Hqt).
  destruct (withdrawLiquidity_run_amounts params w base quote bm qm)
    as (ub & uq & outcome & Hsent & Hr); [| exact Hbm | exact Hqm |].
  - unfold base, quote, withdraw_requested. fold pool supply.
    destruct (WithdrawLiquidityParams.baseTokenReturnedMin params) as [b|] eqn:Eb,
      (WithdrawLiquidityParams.quoteTokenReturnedMin params) as [q|] eqn:Eq;
      [split; reflexivity | ..];
      (destruct Hin as [[Hb Hq] | (Hsupply & Hvb & Hvq & Ha)]; [congruence|]);
      do 2 eexists; unfold BN.mul;
      (split; [apply div_nonneg; [nia | lia]|]);
      (split; [apply div_nonneg; [nia | lia]|]);
      split; reflexivity.
  - eexists; exists outcome, bm, qm. split; [exact Hsent|]. split; [exact Hr|].
    split; [|split; assumption].
    destruct (WithdrawLiquidityParams.userBaseTokenAccount params),
      (WithdrawLiquidityParams.userQuoteTokenAccount params); reflexivity.
Qed.

(** X8. With a positive supply, vault amounts that are not negative and a
    pool token amount between 0 and the supply, [getMaxWithdrawable]
    returns amounts between 0 and what the vaults hold: the whole vaults for
    the whole supply, and nothing for no pool tokens. *)
Theorem getMaxWithdrawable_within_vaults (params : WithdrawLiquidityParams.t)
    (w : World) :
  let pool := WithdrawLiquidityParams.pool params in
  let supply := mintInfo_supply w (poolMint pool) in
  let baseVaultAmount := tokenAccount_amount w (baseTokenVault pool) in
  let quoteVaultAmount := tokenAccount_amount w (quoteTokenVault pool) in
  let poolTokenAmount := WithdrawLiquidityParams.poolTokenAmount params in
  0 < supply -> 0 <= baseVaultAmount -> 0 <= quoteVaultAmount ->
  0 <= poolTokenAmount <= supply ->
  exists withdrawAmountBase withdrawAmountQuote,
    getMaxWithdrawable params w = (Ok (withdrawAmountBase, withdrawAmountQuote), w)
    /\ 0 <= withdrawAmountBase <= baseVaultAmount
    /\ 0 <= withdrawAmountQuote <= quoteVaultAmount
    /\ (poolTokenAmount = supply ->
        withdrawAmountBase = baseVaultAmount /\ withdrawAmountQuote = quoteVaultAmount)
    /\ (poolTokenAmount = 0 -> withdrawAmountBase = 0 /\ withdrawAmountQuote = 0).
Proof.
  intros pool supply baseVaultAmount quoteVaultAmount poolTokenAmount
    Hsupply Hbase Hquote Hamount.
  unfold getMaxWithdrawable, BN.mul. run.
  fold pool. fold supply. fold baseVaultAmount. fold quoteVaultAmount.
  fold poolTokenAmount.
  rewrite !div_nonneg by nia. cbn.
  do 2 eexists. split; [reflexivity|].
  split; [split; [apply Z.div_pos; nia | apply Z.div_le_upper_bound; nia]|].
  split; [split; [apply Z.div_pos; nia | apply Z.div_le_upper_bound; nia]|].
  split.
  - intros ->. rewrite !Z.div_mul by lia. split; reflexivity.
  - intros ->. rewrite !Z.mul_0_r, Z.div_0_l by lia. split; reflexivity.
Qed.

(** *** The direction of the slippage *)

(** X9. A larger slippage never gives a larger minimum, whatever [muln]
    loses: for slippages s <= s' between 0 and 1 and amounts that are not
    negative, the minimum income of [swap], the creation size of
    [depositLiquidity] and a returned minimum of [withdrawLiquidity] are all
    computed, and those for s' are between 0 and those for s. *)
Theorem larger_slippage_lower_minimum (s s' : Q) :
  (0 <= s)%Q -> (s <= s')%Q -> (s' <= 1)%Q ->
  (forall m, 0 <= m ->
     exists v v',
       swap_minIncomeAmount m s = Ok v /\ swap_minIncomeAmount m s' = Ok v'
       /\ 0 <= v' <= v)
  /\ (forall supply maxBaseTokenAmount amount,
        0 <= supply -> 0 <= maxBaseTokenAmount -> 0 < amount ->
        exists c c',
          deposit_creationSize supply maxBaseTokenAmount amount s = Ok c
          /\ deposit_creationSize supply maxBaseTokenAmount amount s' = Ok c'
          /\ 0 <= c' <= c)
  /\ (forall returnedMin, 0 <= returnedMin ->
        exists r r',
          BN.muln returnedMin (1 - s) = Ok r /\ BN.muln returnedMin (1 - s') = Ok r'
          /\ 0 <= r' <= r).
Proof.
  intros Hs0 Hle Hs1.
  assert (Hword : forall q : Q, (q <= 1000)%Q -> (q < inject_Z BN.word_base)%Q).
  { intros q Hq. unfold BN.word_base.
    change (inject_Z 67108864) with (67108864 # 1)%Q. lra. }
  assert (Hmuln : forall x (q q' : Q), 0 <= x -> (0 <= q')%Q -> (q' <= q)%Q ->
            (q <= 1000)%Q ->
            exists v v', BN.muln x q = Ok v /\ BN.muln x q' = Ok v' /\ 0 <= v' <= v).
  { intros x q q' Hx Hq0 Hqq Hq1.
    destruct (BN.muln x q) as [v|e] eqn:Ev.
    2:{ rewrite muln_Q in Ev; [discriminate | exact Hx | lra | apply Hword; lra]. }
    destruct (BN.muln x q') as [v'|e] eqn:Ev'.
    2:{ rewrite muln_Q in Ev'; [discriminate | exact Hx | lra | apply Hword; lra]. }
    exists v, v'. split; [reflexivity|]. split; [reflexivity|].
    eapply muln_Q_mono; [exact Hx | exact Hq0 | exact Hqq | apply Hword; lra
                        | exact Ev' | exact Ev]. }
  split; [|split].
  - intros m Hm. unfold swap_minIncomeAmount, result_bind.
    destruct (Hmuln m (1000 - s * 1000)%Q (1000 - s' * 1000)%Q Hm)
      as (v & v' & -> & -> & Hv); [lra..|].
    do 2 eexists. split; [reflexivity|]. split; [reflexivity|].
    unfold BN.divn. rewrite !Z.quot_div_nonneg by lia.
    split; [apply Z.div_pos; lia | apply Z.div_le_mono; lia].
  - intros supply maxBase amount Hsupply Hmax Hamount.
    unfold deposit_creationSize, result_bind, BN.mul.
    rewrite div_nonneg by nia.
    apply Hmuln; [apply Z.div_pos; nia | lra..].
  - intros x Hx. apply Hmuln; [exact Hx | lra..].
Qed.

(** *** The referral fee *)


End Amounts.

(** ** The transactions of the pool client *)

Section Orders.
Context {imports : Imports}.

(** X10. [depositLiquidity] throws [Error "Assertion failed"] and submits
    nothing, or it submits one transaction: the creation of the user's pool
    token account under a new key when none was supplied, then the deposit
    instruction, which names the account supplied or the one just created,
    the wallet as authority, and the program and the signer of the pool's
    version.  It returns what the network answers. *)
Theorem deposit_transaction_order (params : DepositLiquidityParams.t) (w : World) :
  let pool := DepositLiquidityParams.pool params in
  let wallet := DepositLiquidityParams.wallet params in
  let programId := getPoolAddress (default V1 (poolVersion pool)) in
  let account :=
    default (keypairs w (generated w))
      (DepositLiquidityParams.userPoolTokenAccount params) in
  let created :=
    match DepositLiquidityParams.userPoolTokenAccount params with
    | None => [CreateTokenAccount (publicKey wallet) (poolMint pool) None None account]
    | Some _ => []
    end in
  (fst (depositLiquidity params w) = Throw (Error "Assertion failed")
   /\ sent (snd (depositLiquidity params w)) = sent w)
  \/ exists creationSize,
       let call :=
         send_call wallet
           (created
            ++ [DepositLiquidity params (publicKey wallet)
                  (findProgramAddress [poolPublicKey pool] programId)
                  account creationSize programId]) in
       fst (depositLiquidity params w) = send_result (accepts w call)
       /\ sent (snd (depositLiquidity params w)) = sent w ++ [(call, accepts w call)].
Proof.
  destruct params as [pool maxBase wallet slip account].
  unfold depositLiquidity, send_call.
  cbn [DepositLiquidityParams.pool DepositLiquidityParams.maxBaseTokenAmount
       DepositLiquidityParams.wallet DepositLiquidityParams.slippage
       DepositLiquidityParams.userPoolTokenAccount].
  run.
  destruct (deposit_creationSize _ _ _ _) as [size|e] eqn:Esize; cbn.
  2:{ left. split; [|reflexivity].
      f_equal. eapply deposit_creationSize_Throw; eassumption. }
  right. exists size.
  destruct account; cbn; destruct (accepts w _); cbn; split; reflexivity.
Qed.

(** X11. [withdrawLiquidity] throws [Error "Assertion failed"] and submits
    nothing, or it submits one transaction: the creation of the user's base
    token account when none was supplied, then that of the quote token
    account when none was supplied, each under a new key (two different
    draws when both are created), then the withdraw instruction, which names
    the accounts supplied or just created, the wallet as authority, and the
    program and the signer of the pool's version.  It returns what the
    network answers. *)
Theorem withdraw_transaction_order (params : WithdrawLiquidityParams.t) (w : World) :
  let pool := WithdrawLiquidityParams.pool params in
  let wallet := WithdrawLiquidityParams.wallet params in
  let programId := getPoolAddress (default V1 (poolVersion pool)) in
  let userBase :=
    default (keypairs w (generated w))
      (WithdrawLiquidityParams.userBaseTokenAccount params) in
  let userQuote :=
    default
      (keypairs w
         (match WithdrawLiquidityParams.userBaseTokenAccount params with
          | None => S (generated w)
          | Some _ => generated w
          end))
      (WithdrawLiquidityParams.userQuoteTokenAccount params) in
  let created :=
    match WithdrawLiquidityParams.userBaseTokenAccount params with
    | None =>
        [CreateTokenAccount (publicKey wallet) (baseTokenMint pool) None None userBase]
    | Some _ => []
    end
    ++ match WithdrawLiquidityParams.userQuoteTokenAccount params with
       | None =>
           [CreateTokenAccount (publicKey wallet) (quoteTokenMint pool) None None
              userQuote]
       | Some _ => []
       end in
  (fst (withdrawLiquidity params w) = Throw (Error "Assertion failed")
   /\ sent (snd (withdrawLiquidity params w)) = sent w)
  \/ exists baseMin quoteMin,
       let call :=
         send_call wallet
           (created
            ++ [WithdrawLiquidity params userBase userQuote baseMin quoteMin
                  (findProgramAddress [poolPublicKey pool] programId)
                  (publicKey wallet) programId]) in
       fst (withdrawLiquidity params w) = send_result (accepts w call)
       /\ sent (snd (withdrawLiquidity params w)) = sent w ++ [(call, accepts w call)].
Proof.
  destruct params as [pool amount slip wallet baseMin quoteMin ub uq].
  unfold withdrawLiquidity, getMaxWithdrawable, send_call.
  cbn [WithdrawLiquidityParams.pool WithdrawLiquidityParams.poolTokenAmount
       WithdrawLiquidityParams.slippage WithdrawLiquidityParams.wallet
       WithdrawLiquidityParams.baseTokenReturnedMin
       WithdrawLiquidityParams.quoteTokenReturnedMin
       WithdrawLiquidityParams.userBaseTokenAccount
       WithdrawLiquidityParams.userQuoteTokenAccount].
  run.
  destruct ub, uq, baseMin, quoteMin; cbn.
  all: repeat match goal with
         | |- context [match BN.div ?x ?y with _ => _ end] =>
             let E := fresh "Ediv" in
             destruct (BN.div x y) eqn:E; cbn;
             [| left; split; [|reflexivity];
                f_equal; f_equal; eapply div_Throw; eassumption]
         end.
  all: repeat match goal with
         | |- context [match BN.muln ?x ?y with _ => _ end] =>
             let E := fresh "Emul" in
             destruct (BN.muln x y) eqn:E; cbn;
             [| left; split; [|reflexivity];
                f_equal; f_equal; eapply muln_Throw; eassumption]
         end.
  all: right;
    match goal with
    | |- context [WithdrawLiquidity _ _ _ ?b ?q _ _ _] => exists b, q
    end.
  all: cbn; destruct (accepts w _); cbn; split; reflexivity.
Qed.

(** Each method builds what it submits for the version the pool states,
    and for version 1 when it states none. *)
Lemma depositLiquidity_treats_as params :
  let pool := DepositLiquidityParams.pool params in
  treats_as (default V1 (poolVersion pool)) pool (depositLiquidity params).
Proof.
  intros pool w.
  destruct (depositLiquidity_run params w)
    as [(size & account & outcome & _ & _ & Hsent & Hr) | (Hsent & Hr & _)].
  - right. eexists. eexists. split; [exact Hsent|]. split; [exact Hr|].
    cbn [send_call send_transaction]. split.
    + apply Exists_app. right. constructor. reflexivity.
    + apply Forall_app. split.
      * destruct (DepositLiquidityParams.userPoolTokenAccount params);
          repeat constructor.
      * repeat constructor.
  - left. split; [exact Hsent|]. eauto.
Qed.

Lemma withdrawLiquidity_treats_as params :
  let pool := WithdrawLiquidityParams.pool params in
  treats_as (default V1 (poolVersion pool)) pool (withdrawLiquidity params).
Proof.
  intros pool w.
  destruct (withdrawLiquidity_run params w)
    as [(ub & uq & b & q & bm & qm & outcome & _ & _ & _ & _ & _ & _ & Hsent & Hr)
       | (Hsent & Hr)].
  - right. eexists. eexists. split; [exact Hsent|]. split; [exact Hr|].
    cbn [send_call send_transaction]. split.
    + apply Exists_app. right. apply Exists_app. right. constructor. reflexivity.
    + repeat (apply Forall_app; split).
      * destruct (WithdrawLiquidityParams.userBaseTokenAccount params);
          repeat constructor.
      * destruct (WithdrawLiquidityParams.userQuoteTokenAccount params);
          repeat constructor.
      * repeat constructor.
  - left. split; [exact Hsent|]. eauto.
Qed.

Lemma swap_treats_as params :
  let pool := SwapParams.pool params in
  treats_as (default V1 (poolVersion pool)) pool (swap params).
Proof.
  intros pool w.
  destruct (swap_run params w)
    as [(tx & outcome & Htx & Hsent & Hr) | [(Hsent & Hr & _) | (Hsent & Hr & _)]].
  - right. eexists. eexists. split; [exact Hsent|]. split; [exact Hr|].
    destruct Htx as (ub & uq & mi & dst & fee & _ & _ & _ & _ & ->).
    cbn [send_call send_transaction].
    unfold swap_head, swap_head_with, swap_referral_part, swap_tail. fold pool. split.
    + apply Exists_app. left. apply Exists_app. right. apply Exists_app. right.
      constructor. reflexivity.
    + repeat (apply Forall_app; split).
      * destruct (SwapParams.userBaseTokenAccount params); repeat constructor.
      * destruct (SwapParams.userQuoteTokenAccount params); repeat constructor.
      * repeat constructor.
      * destruct (SwapParams.referralParams params); [|constructor].
        apply Forall_app. split; [|repeat constructor].
        destruct (referral_account_created params w); repeat constructor.
      * destruct (String.eqb _ _); repeat constructor.
      * destruct (String.eqb _ _); repeat constructor.
  - left. split; [exact Hsent|]. eauto.
  - left. split; [exact Hsent|]. eauto.
Qed.

(** X12. [depositLiquidity], [withdrawLiquidity] and [swap] treat a pool as
    the version it states, and as version 1 when it states none: whatever
    they submit is one transaction with an instruction for the pools
    program, built with the signer derived from the program address of that
    version, and naming that program (or, for [swap], that version). *)
Theorem pool_version_honoured :
  (forall params,
      let pool := DepositLiquidityParams.pool params in
      treats_as (default V1 (poolVersion pool)) pool (depositLiquidity params))
  /\ (forall params,
        let pool := WithdrawLiquidityParams.pool params in
        treats_as (default V1 (poolVersion pool)) pool (withdrawLiquidity params))
  /\ (forall params,
        let pool := SwapParams.pool params in
        treats_as (default V1 (poolVersion pool)) pool (swap params)).
Proof.
  split; [|split]; intros params.
  - apply depositLiquidity_treats_as.
  - apply withdrawLiquidity_treats_as.
  - apply swap_treats_as.
Qed.

(** A method that treats the pool as a version and throws no [Error]
    submits for that version. *)
Lemma treats_as_submits version pool (m : M string) (w : World) :
  treats_as version pool m ->
  (forall message, fst (m w) <> Throw (Error message)) ->
  submits_for version pool m w.
Proof.
  intros H Hrun. destruct (H w) as [(_ & message & Hm) | Hsub].
  - exfalso. exact (Hrun message Hm).
  - exact Hsub.
Qed.

Lemma send_result_no_Error outcome message :
  send_result outcome <> Throw (Error message).
Proof. destruct outcome; discriminate. Qed.

(** The calls that are carried through throw no [Error]. *)
Lemma deposit_ready_runs params w message :
  deposit_ready params w -> fst (depositLiquidity params w) <> Throw (Error message).
Proof.
  intros (Hamount & Hs0 & Hs1).
  destruct (depositLiquidity_run params w)
    as [(size & account & outcome & _ & _ & _ & ->) | (_ & _ & e & He)].
  - apply send_result_no_Error.
  - exfalso. unfold deposit_creationSize, result_bind, BN.div in He.
    destruct (Z.eqb_spec
                (tokenAccount_amount w
                   (baseTokenVault (DepositLiquidityParams.pool params))) 0)
      as [E|_]; [contradiction|].
    match type of He with BN.muln ?x ?q = _ =>
      destruct (muln_Ok x q) as (v & Hv) end.
    + lra.
    + unfold BN.word_base. change (inject_Z 67108864) with (67108864 # 1)%Q. lra.
    + congruence.
Qed.

Lemma withdraw_ready_runs params w message :
  withdraw_ready params w -> fst (withdrawLiquidity params w) <> Throw (Error message).
Proof.
  intros (Hs0 & Hs1 & Hin).
  set (slippage := default (1 # 1000)%Q (WithdrawLiquidityParams.slippage params)) in *.
  assert (Hmul : forall x, exists v, BN.muln x (1 - slippage)%Q = Ok v).
  { intros x. apply muln_Ok; [lra|].
    unfold BN.word_base. change (inject_Z 67108864) with (67108864 # 1)%Q. lra. }
  set (pool := WithdrawLiquidityParams.pool params) in *.
  set (whole :=
         (default
            (Z.quot (tokenAccount_amount w (baseTokenVault pool)
                     * WithdrawLiquidityParams.poolTokenAmount params)
               (mintInfo_supply w (poolMint pool)))
            (WithdrawLiquidityParams.baseTokenReturnedMin params),
          default
            (Z.quot (tokenAccount_amount w (quoteTokenVault pool)
                     * WithdrawLiquidityParams.poolTokenAmount params)
               (mintInfo_supply w (poolMint pool)))
            (WithdrawLiquidityParams.quoteTokenReturnedMin params))).
  destruct (Hmul (fst whole)) as (bm & Hbm), (Hmul (snd whole)) as (qm & Hqm).
  destruct (withdrawLiquidity_run_amounts params w (fst whole) (snd whole) bm qm)
    as (ub & uq & outcome & _ & ->); [| exact Hbm | exact Hqm |].
  - unfold whole. fold pool.
    destruct (WithdrawLiquidityParams.baseTokenReturnedMin params) as [b|] eqn:Eb,
      (WithdrawLiquidityParams.quoteTokenReturnedMin params) as [q|] eqn:Eq;
      [split; reflexivity | ..];
      (destruct Hin as [[Hb Hq] | Hsupply]; [congruence|]);
      do 2 eexists; unfold BN.div, BN.mul;
      (destruct (Z.eqb_spec (mintInfo_supply w (poolMint pool)) 0) as [E|_];
       [contradiction|]);
      repeat split; reflexivity.
  - apply send_result_no_Error.
Qed.

Lemma swap_ready_runs params w message :
  swap_ready params w -> fst (swap params w) <> Throw (Error message).
Proof.
  intros (Hs0 & Hs1 & Href).
  destruct (swap_minIncomeAmount_Ok (SwapParams.minIncomeAmount params) _ Hs0 Hs1)
    as (v & Hv).
  destruct (swap_run params w)
    as [(tx & outcome & _ & _ & ->)
       | [(_ & _ & Hcause) | (_ & _ & Hsome & Hdest & Hnot)]].
  - apply send_result_no_Error.
  - exfalso.
    destruct Hcause
      as [(e & He)
         | [(mi & p & e & Hmi & Hp & He) | (mi & p & fee & Hmi & Hp & He & Hbig & _)]].
    + congruence.
    + rewrite Hp in Href. destruct Href as ([Hm0 Hm1] & Hp0 & Hp1 & HP & _).
      destruct (swap_amounts_in_range _ _ _ Hm0 Hs0 Hs1 Hp0 Hp1 HP)
        as (v' & f & Hv' & Hf & _).
      congruence.
    + rewrite Hp in Href. destruct Href as ([Hm0 Hm1] & Hp0 & Hp1 & HP & _).
      destruct (swap_amounts_in_range _ _ _ Hm0 Hs0 Hs1 Hp0 Hp1 HP)
        as (v' & f & Hv' & Hf & Hrange & Hle).
      assert (mi = v') by congruence. subst mi.
      assert (fee = f) by congruence. subst fee. lia.
  - exfalso. destruct (SwapParams.referralParams params) as [r|] eqn:Er;
      [|congruence].
    destruct Href as (_ & _ & _ & _ & [Hd|Hc]); [congruence|].
    unfold referral_account_created in Hnot. rewrite Er, Hdest in Hnot. congruence.
Qed.

(** C8. [getPoolAddress] returns [POOLS_PROGRAM_ADDRESS] exactly when the
    version is 1 (the two addresses being different) and
    [POOLS_V2_PROGRAM_ADDRESS] otherwise.  For a pool without [poolVersion],
    [depositLiquidity], [withdrawLiquidity] and [swap] treat the pool as
    version 1: whatever they submit is built for version 1, and a call that
    is carried through (a slippage between 0 and 1; for a deposit a base
    vault that is not empty; for a withdrawal both minimums given or a
    supply that is not zero; for a swap with a referral an amount below
    2^53, a percent between 0 and 100 and a token account of the referral)
    does submit one transaction, with the instruction for the pools program
    built for version 1 in it. *)
Theorem pool_version_default :
  POOLS_PROGRAM_ADDRESS <> POOLS_V2_PROGRAM_ADDRESS ->
  (forall version,
      (getPoolAddress version = POOLS_PROGRAM_ADDRESS <-> version = V1)
      /\ (version <> V1 -> getPoolAddress version = POOLS_V2_PROGRAM_ADDRESS))
  /\ (forall params,
        let pool := DepositLiquidityParams.pool params in
        poolVersion pool = None ->
        treats_as V1 pool (depositLiquidity params)
        /\ forall w, deposit_ready params w ->
                     submits_for V1 pool (depositLiquidity params) w)
  /\ (forall params,
        let pool := WithdrawLiquidityParams.pool params in
        poolVersion pool = None ->
        treats_as V1 pool (withdrawLiquidity params)
        /\ forall w, withdraw_ready params w ->
                     submits_for V1 pool (withdrawLiquidity params) w)
  /\ (forall params,
        let pool := SwapParams.pool params in
        poolVersion pool = None ->
        treats_as V1 pool (swap params)
        /\ forall w, swap_ready params w -> submits_for V1 pool (swap params) w).
Proof.
  intros Hdiff. split; [|split; [|split]].
  - intros [|]; cbn; split; try tauto; try congruence.
    split; [intros H; congruence | discriminate].
  - intros params pool Hv.
    pose proof (depositLiquidity_treats_as params) as H. cbv zeta in H.
    fold pool in H. rewrite Hv in H. cbn [default] in H.
    split; [exact H|]. intros w Hready. apply treats_as_submits; [exact H|].
    intros message. apply deposit_ready_runs. exact Hready.
  - intros params pool Hv.
    pose proof (withdrawLiquidity_treats_as params) as H. cbv zeta in H.
    fold pool in H. rewrite Hv in H. cbn [default] in H.
    split; [exact H|]. intros w Hready. apply treats_as_submits; [exact H|].
    intros message. apply withdraw_ready_runs. exact Hready.
  - intros params pool Hv.
    pose proof (swap_treats_as params) as H. cbv zeta in H.
    fold pool in H. rewrite Hv in H. cbn [default] in H.
    split; [exact H|]. intros w Hready. apply treats_as_submits; [exact H|].
    intros message. apply swap_ready_runs. exact Hready.
Qed.

End Orders.

(** ** One submission, no second attempt *)

Section Submissions.
Context {imports : Imports}.

Lemma silent_ret {A} (a : A) : silent (ret a).
Proof. intros w. cbn. repeat split. discriminate. Qed.

Lemma silent_throw {A} message : silent (@throw A (Error message)).
Proof. intros w. cbn. repeat split. intros e [= <-]. exact I. Qed.

Lemma silent_lift {A} (r : Result A) :
  (forall e, r = Throw e -> e = Error "Assertion failed") -> silent (lift r).
Proof.
  intros H w. cbn. repeat split. intros e He. rewrite (H e He). exact I.
Qed.

Lemma silent_bind {A B} (m : M A) (k : A -> M B) :
  silent m -> (forall a, silent (k a)) -> silent (bind m k).
Proof.
  intros Hm Hk w. unfold bind. destruct (Hm w) as (Hs & Ha & He).
  destruct (m w) as [[a|e] w1]; cbn in *.
  - destruct (Hk a w1) as (Hs' & Ha' & He').
    split; [congruence|]. split; [congruence | exact He'].
  - split; [exact Hs|]. split; [exact Ha|].
    intros e0 [= <-]. now apply He.
Qed.

Lemma silent_getProgramAccounts programId commitment filters :
  silent (getProgramAccounts programId commitment filters).
Proof. intros w. cbn. repeat split. discriminate. Qed.

Lemma silent_getParsedTokenAccountsByOwner owner :
  silent (getParsedTokenAccountsByOwner owner).
Proof. intros w. cbn. repeat split. discriminate. Qed.

Lemma silent_getMintInfo mint : silent (getMintInfo mint).
Proof. intros w. cbn. repeat split. discriminate. Qed.

Lemma silent_getTokenAccount account : silent (getTokenAccount account).
Proof. intros w. cbn. repeat split. discriminate. Qed.

Lemma silent_getStakingPoolInfo : silent getStakingPoolInfo.
Proof. intros w. cbn. repeat split. discriminate. Qed.

Lemma silent_Keypair_generate : silent Keypair_generate.
Proof. intros w. cbn. repeat split. discriminate. Qed.

Lemma once_sendTransaction wallet transaction partialSigners :
  submits_at_most_once (sendTransaction wallet transaction partialSigners).
Proof.
  intros w. right.
  exists {| send_wallet := wallet; send_transaction := transaction;
            send_partialSigners := partialSigners |}.
  unfold sendTransaction. cbn. destruct (accepts w _); split; reflexivity.
Qed.

Lemma once_throw message : submits_at_most_once (throw (Error message)).
Proof.
  intros w. left. cbn. split; [reflexivity|].
  eexists. split; [reflexivity | exact I].
Qed.

Lemma once_throw_TypeError property :
  submits_at_most_once (throw (TypeError_undefined property)).
Proof.
  intros w. left. cbn. split; [reflexivity|].
  eexists. split; [reflexivity | exact I].
Qed.

Lemma once_bind {A} (m : M A) (k : A -> M string) :
  silent m -> (forall a, submits_at_most_once (k a)) ->
  submits_at_most_once (bind m k).
Proof.
  intros Hm Hk w. unfold bind. destruct (Hm w) as (Hs & Ha & He).
  destruct (m w) as [[a|e] w1]; cbn in *.
  - destruct (Hk a w1) as [(Hs' & e & Hr & Hsimple) | (call & Hs' & Hr)].
    + left. split; [congruence|]. eauto.
    + right. exists call. rewrite <- Ha, <- Hs. split; assumption.
  - left. split; [exact Hs|]. exists e. split; [reflexivity | now apply He].
Qed.

Create HintDb quiet.
Hint Resolve silent_ret silent_throw silent_getProgramAccounts
  silent_getParsedTokenAccountsByOwner silent_getMintInfo silent_getTokenAccount
  silent_getStakingPoolInfo silent_Keypair_generate once_sendTransaction once_throw
  once_throw_TypeError : quiet.

Ltac quiet :=
  repeat first
    [ solve [auto with quiet]
    | apply silent_bind; [|intros ?]
    | apply once_bind; [|intros ?]
    | apply silent_lift;
      first [ apply muln_Throw | apply div_Throw | apply of_number_Throw
            | apply swap_minIncomeAmount_Throw
            | apply swap_refFeeAmount_Throw | apply deposit_creationSize_Throw ]
    | match goal with
      | |- silent (match ?x with _ => _ end) => destruct x
      | |- submits_at_most_once (match ?x with _ => _ end) => destruct x
      end
    | progress cbv zeta ].

Lemma silent_createTokenAccountTransaction owner mint amount payer :
  silent (createTokenAccountTransaction owner mint amount payer).
Proof. unfold createTokenAccountTransaction. quiet. Qed.

Hint Resolve silent_createTokenAccountTransaction : quiet.

(** X13. Each of [depositLiquidity], [withdrawLiquidity] and [swap] hands
    at most one transaction to [sendTransaction] in a call: either it throws
    an error of its own, and has submitted nothing, or it has submitted one
    transaction and returns what the network answered to it, the
    transaction id or the rejection; a rejected transaction is not
    submitted again. *)
Theorem pool_client_submits_once :
  (forall params, submits_at_most_once (depositLiquidity params))
  /\ (forall params, submits_at_most_once (withdrawLiquidity params))
  /\ (forall params, submits_at_most_once (swap params)).
Proof.
  split; [|split]; intros params.
  - unfold depositLiquidity. quiet.
  - unfold withdrawLiquidity, getMaxWithdrawable. quiet.
  - unfold swap. quiet.
Qed.

(** X14. The same for [startStaking], [endStakingTicket] and [claim]: at
    most one transaction in a call, nothing submitted when the method throws
    an error of its own, and no second attempt after a rejection. *)
Theorem staking_client_submits_once :
  (forall params, submits_at_most_once (startStaking params))
  /\ (forall params, submits_at_most_once (endStakingTicket params))
  /\ (forall params, submits_at_most_once (claim params)).
Proof.
  split; [|split]; intros params.
  - unfold startStaking, createAccountInstruction. quiet.
  - unfold endStakingTicket. quiet.
  - unfold claim, getStakingState. quiet.
Qed.

End Submissions.

(** ** The transactions of the staking client *)

Section Staking_transactions.
Context {imports : Imports}.

(** X15. [startStaking] looks for the wallet's token account first: without
    one it throws [Error "No account - cannot stake!"], whatever the farming
    list; with one, it throws [Error "Dont have any farming tickets - cannot
    stake!"] when the pool has no farming list and [Error "Dont have farming
    item - cannot stake!"] when no farming state is open.  Otherwise it
    submits one transaction, signed also by the new ticket's key: the
    creation of the ticket account (of the ticket layout's size, owned by
    the staking program) and the staking instruction from the wallet's
    first token account of the pool mint into the first open farming state;
    it returns what the network answers. *)
Theorem startStaking_transaction (params : StartStakingParams.t) (w : World) :
  let wallet := StartStakingParams.wallet params in
  let stakingPool := stakingPoolInfo w in
  let stakingTicket := keypairs w (generated w) in
  let result := fst (startStaking params w) in
  let w' := snd (startStaking params w) in
  match staking_token_account w wallet with
  | None => result = Throw (Error "No account - cannot stake!") /\ sent w' = sent w
  | Some tokenAccount =>
      match farming stakingPool with
      | None =>
          result = Throw (Error "Dont have any farming tickets - cannot stake!")
          /\ sent w' = sent w
      | Some farmingList =>
          match List.find farming_open farmingList with
          | None =>
              result = Throw (Error "Dont have farming item - cannot stake!")
              /\ sent w' = sent w
          | Some farmingStateItem =>
              let call :=
                {| send_wallet := wallet;
                   send_transaction :=
                     [ CreateAccount (span STAKING_TICKET_LAYOUT) wallet
                         STAKING_PROGRAM_ADDRESS stakingTicket;
                       Staking (swapToken stakingPool) (farmingState farmingStateItem)
                         (stakingVault stakingPool) (token_pubkey tokenAccount)
                         (publicKey wallet) (StartStakingParams.tokenAmount params)
                         stakingTicket STAKING_PROGRAM_ADDRESS ];
                   send_partialSigners := [stakingTicket] |} in
              result = send_result (accepts w call)
              /\ sent w' = sent w ++ [(call, accepts w call)]
          end
      end
  end.
Proof.
  cbv zeta. unfold startStaking, staking_token_account. run.
  destruct (List.find _ (parsedTokenAccountsByOwner w _)) as [tokenAccount|]; cbn;
    [|split; reflexivity].
  destruct (farming (stakingPoolInfo w)) as [farmingList|]; cbn; [|split; reflexivity].
  destruct (List.find farming_open farmingList) as [item|]; cbn; [|split; reflexivity].
  destruct (accepts w _); cbn; split; reflexivity.
Qed.

(** X16. [endStaking] never submits the creation of a token account: every
    transaction it submits consists of exactly one instruction, an
    unstaking instruction.  The instruction pays into the wallet's token
    account of the pool mint, and, when the wallet has none, into the key of
    the account that [createTokenAccountTransaction] was asked for, whose
    transaction is dropped. *)
Theorem endStaking_creates_no_account (params : EndStakingParams.t) (w : World) :
  let wallet := EndStakingParams.wallet params in
  exists added,
    sent (snd (endStaking params w)) = sent w ++ added
    /\ Forall
         (fun entry =>
            exists instruction,
              send_transaction (fst entry) = [instruction]
              /\ created_account instruction = None
              /\ unstaking_account instruction = Some (user_staking_account w wallet))
         added
    /\ (staking_token_account w wallet = None ->
        user_staking_account w wallet = keypairs w (generated w)).
Proof.
  intros wallet.
  assert (Hfresh : staking_token_account w wallet = None ->
                   user_staking_account w wallet = keypairs w (generated w)).
  { unfold user_staking_account. now intros ->. }
  assert (Hafter : sent (after_token_account w wallet) = sent w
                   /\ accepts (after_token_account w wallet) = accepts w).
  { unfold after_token_account.
    destruct (staking_token_account w wallet); split; reflexivity. }
  destruct (farming (stakingPoolInfo w)) as [farmingList|] eqn:Efarm.
  2:{ exists []. unfold endStaking. run. rewrite Efarm. cbn.
      rewrite app_nil_r. repeat split; [constructor | exact Hfresh]. }
  destruct (List.find farming_open farmingList) as [item|] eqn:Efind.
  2:{ exists []. unfold endStaking. run. rewrite Efarm, Efind. cbn.
      rewrite app_nil_r. repeat split; [constructor | exact Hfresh]. }
  rewrite (endStaking_run params w farmingList item Efarm Efind). fold wallet.
  destruct (List.filter _ _) as [|ticket tickets] eqn:Efilter.
  { exists []. cbn. rewrite app_nil_r. repeat split;
      [apply Hafter | constructor | exact Hfresh]. }
  destruct (Promise_all_sends (ticket :: tickets)
              (unstaking_call wallet (stakingPoolInfo w) item
                 (user_staking_account w wallet))
              (after_token_account w wallet)) as (Hsent & _).
  cbv zeta in Hsent. rewrite Hsent. cbn [sent set_sent].
  destruct Hafter as [-> _].
  eexists. split; [reflexivity|]. split; [|exact Hfresh].
  apply Forall_forall. intros entry Hin.
  apply list_elem_of_In, in_map_iff in Hin. destruct Hin as (t & <- & _).
  eexists. split; [reflexivity|]. split; reflexivity.
Qed.

Lemma filter_map_swap {T U} (f : T -> U) (p : U -> bool) (l : list T) :
  List.filter p (List.map f l) = List.map f (List.filter (fun x => p (f x)) l).
Proof.
  induction l as [|x l IH]; cbn; [reflexivity|].
  destruct (p (f x)); cbn; now rewrite IH.
Qed.

Lemma find_filter_implied {T} (p q : T -> bool) (l : list T) :
  (forall x, In x l -> p x = true -> q x = true) ->
  List.find p (List.filter q l) = List.find p l.
Proof.
  induction l as [|x l IH]; intros H; cbn; [reflexivity|].
  assert (IH' : List.find p (List.filter q l) = List.find p l).
  { apply IH. intros y Hy. apply H. now right. }
  destruct (q x) eqn:Eq; cbn.
  - now rewrite IH'.
  - destruct (p x) eqn:Ep; [|exact IH'].
    rewrite (H x (or_introl eq_refl) Ep) in Eq. discriminate.
Qed.

(** Keeping the calc accounts of the known states before the search
    changes nothing: a state's first calc account is the same among all. *)
Lemma claim_farmingCalcs_first (states : list StakingState)
    (calcAccounts : list FarmingCalc) :
  claim_farmingCalcs states calcAccounts
  = List.map (fun state => (state, first_calc_of calcAccounts state))
      (List.filter (claimable calcAccounts) states).
Proof.
  unfold claim_farmingCalcs.
  set (stateKeys := List.map statePublicKey states).
  set (kept := List.filter _ calcAccounts).
  assert (E : forall state, In state states ->
            List.find (fun ca => String.eqb (calc_farmingState (calc_data ca))
                                   (statePublicKey state)) kept
            = first_calc_of calcAccounts state).
  { intros state Hin. unfold kept, first_calc_of. apply find_filter_implied.
    intros ca _ Hca. apply String.eqb_eq in Hca.
    apply existsb_exists. exists (statePublicKey state). split.
    - unfold stateKeys. now apply in_map.
    - rewrite Hca. apply String.eqb_refl. }
  rewrite (List.map_ext_in _ (fun state => (state, first_calc_of calcAccounts state)))
    by (intros state Hin; now rewrite E).
  rewrite filter_map_swap. f_equal.
  apply List.filter_ext. intros state. unfold claimable. cbn.
  destruct (first_calc_of calcAccounts state); [|reflexivity].
  unfold BN.gtn. apply Z.gtb_ltb.
Qed.

(** X17. The farming calcs that [claim] keeps are, in the order of the
    states, the states whose first calc account (the first, among all the
    calc accounts the node lists, that names the state) holds a positive
    amount, each with that calc account.  A state whose first calc account
    holds nothing is left out, whatever its other calc accounts hold, and
    keeping the calc accounts of the known states beforehand does not change
    the result. *)
Theorem claim_farmingCalcs_first_calc (states : list StakingState)
    (calcAccounts : list FarmingCalc) :
  claim_farmingCalcs states calcAccounts
  = List.map (fun state => (state, first_calc_of calcAccounts state))
      (List.filter (claimable calcAccounts) states)
  /\ List.map fst (claim_farmingCalcs states calcAccounts)
     = List.filter (claimable calcAccounts) states.
Proof.
  split; [apply claim_farmingCalcs_first|].
  rewrite claim_farmingCalcs_first, map_map. cbn. apply map_id.
Qed.

(** X18. When the staking pool of the parameters has an open farming state,
    [claim] fails by the [TypeError] of reading [farmingCalcs[0].state] and
    submits nothing if no farming state of the pool can be claimed from;
    otherwise it submits one transaction with one withdraw-farmed
    instruction and returns what the network answers.  The instruction
    names the first open farming state of the pool's list and its token
    vault, as farming calc the key of the first state that can be claimed
    from (the state's key, not the calc account's), and as the user's
    account the wallet's first token account of the pool mint, or, when
    there is none, the key of an account that nothing in the transaction
    creates. *)
Theorem claim_transaction (params : ClaimParams.t) (w : World) farmingList item :
  let stakingPool := ClaimParams.stakingPool params in
  let wallet := ClaimParams.wallet params in
  let account :=
    claim_token_account w (publicKey wallet) (poolTokenMint stakingPool) in
  farming stakingPool = Some farmingList ->
  List.find farming_open farmingList = Some item ->
  match List.filter (claimable (calc_accounts_of w))
          (states_of w (swapToken stakingPool)) with
  | [] =>
      fst (claim params w) = Throw (TypeError_undefined "state")
      /\ sent (snd (claim params w)) = sent w
  | state :: _ =>
      let call :=
        send_call wallet
          [ WithdrawFarmed (swapToken stakingPool) (farmingState item)
              (farmingTokenVault item) (statePublicKey state) account
              (findProgramAddress [swapToken stakingPool] STAKING_PROGRAM_ADDRESS)
              (publicKey wallet) STAKING_PROGRAM_ADDRESS ] in
      fst (claim params w) = send_result (accepts w call)
      /\ sent (snd (claim params w)) = sent w ++ [(call, accepts w call)]
      /\ omap created_account (send_transaction call) = []
  end.
Proof.
  intros stakingPool wallet account Hfarm Hfind.
  unfold account, claim_token_account, token_account_for, states_of, calc_accounts_of.
  unfold claim, getStakingState, send_call. run. fold stakingPool wallet.
  rewrite Hfarm, Hfind.
  destruct (List.find _ (parsedTokenAccountsByOwner w (publicKey wallet)));
    cbn; rewrite claim_farmingCalcs_first;
    destruct (List.filter _ _) as [|state rest]; cbn;
    try (split; reflexivity);
    destruct (accepts _ _); cbn; repeat split; reflexivity.
Qed.

End Staking_transactions.

(** ** The properties on the sample values *)

Section Samples.
Import Sample.
Local Open Scope string_scope.
Local Open Scope Z_scope.

Ltac in_range :=
  first [ reflexivity | discriminate | lia
        | unfold Qle; cbn; lia | unfold Qlt; cbn; lia
        | unfold BN.word_base; cbn; lia ].

Lemma getMaxWithdrawable_floor_witness :
  getMaxWithdrawable (withdraw_params None None) world
  = (Ok (250000 * 40 / 1000000, 250000 * 40 / 1000000), world).
Proof.
  apply (getMaxWithdrawable_floor (withdraw_params None None) world); cbn; lia.
Defined.

(** Alice deposits, withdraws and swaps (with carol as referral) in the
    pool RIN_USDC, which states no version: each call submits one
    transaction built for version 1. *)
Lemma pool_version_default_witness :
  submits_for (imports := imports) V1 RIN_USDC
    (depositLiquidity (imports := imports) (deposit_params 1000)) world
  /\ submits_for (imports := imports) V1 RIN_USDC
       (withdrawLiquidity (imports := imports) (withdraw_params None None)) world
  /\ submits_for (imports := imports) V1 RIN_USDC
       (swap (imports := imports)
          (swap_params (Some (referral "carol" false)) None 1000))
       world_with_carol.
Proof.
  assert (Hdiff : POOLS_PROGRAM_ADDRESS (Imports := imports)
                  <> POOLS_V2_PROGRAM_ADDRESS (Imports := imports))
    by discriminate.
  destruct (pool_version_default (imports := imports) Hdiff)
    as (_ & Hdeposit & Hwithdraw & Hswap).
  split; [|split].
  - apply (Hdeposit (deposit_params 1000)); [reflexivity|].
    repeat split; in_range.
  - apply (Hwithdraw (withdraw_params None None)); [reflexivity|].
    split; [in_range|]. split; [in_range|]. right. cbn. lia.
  - apply (Hswap (swap_params (Some (referral "carol" false)) None 1000));
      [reflexivity|].
    split; [in_range|]. split; [in_range|]. cbn.
    repeat split; try in_range. left. discriminate.
Defined.



(** C3, as stated, fails for [getV2Pools]: the second pool that the node
    returns is decoded with the stable curve, and the record keeps it. *)
Lemma getV2Pools_curveType_stated_fails :
  exists pools,
    getV2Pools (imports := imports) {| GetPoolsParams.mint := None |} world
    = (Ok pools, world)
    /\ ~ Forall2 (v2_pool_of_account_stated (imports := imports))
           (programAccounts world (POOLS_V2_PROGRAM_ADDRESS (Imports := imports)) None
              [ dataSize (span (POOL_V2_LAYOUT (Imports := imports)));
                memcmp 0 (base58_encode (Imports := imports)
                            (accountDiscriminator (Imports := imports) "Pool")) ])
           pools.
Proof.
  eexists. split; [vm_compute; reflexivity|].
  intros H. inversion H as [|a r l l' _ Hrest]; subst.
  inversion Hrest as [|a' r' l2 l2' (_ & _ & _ & Hcurve) _]; subst.
  vm_compute in Hcurve. discriminate Hcurve.
Qed.

Lemma endStaking_fan_out_witness :
  fst (endStaking (imports := imports) {| EndStakingParams.wallet := alice |} world)
  = Ok ["txid"; "txid"].
Proof.
  assert (Hticket : exists ticket,
             In ticket (tickets_of (imports := imports) world alice)
             /\ ticket_qualifies (imports := imports) (now world) ticket).
  { exists {| ticket_data := ((1, 9223372036854775807) : StakingTicketData (Imports := imports));
              stakingTicketPublicKey := "ticket1" |}.
    split; [left; reflexivity|]. split; vm_compute; reflexivity. }
  destruct (endStaking_fan_out (imports := imports)
              {| EndStakingParams.wallet := alice |} world _ _
              eq_refl eq_refl ltac:(cbn; lia) Hticket)
    as (_ & _ & _ & Hok & _).
  rewrite Hok; [reflexivity|]. intros ticket _. discriminate.
Defined.

(** Bob owns no token account for the staking pool's mint. *)
Lemma staking_failures_witness :
  exists e,
    fst (startStaking (imports := imports)
           {| StartStakingParams.wallet := {| publicKey := "bob" |};
              StartStakingParams.tokenAmount := 10 |} world) = Throw e
    /\ simple_error e.
Proof.
  destruct (proj1 (staking_failures (imports := imports) world)
              {| StartStakingParams.wallet := {| publicKey := "bob" |};
                 StartStakingParams.tokenAmount := 10 |}
              (or_introl eq_refl))
    as (e & He & _ & Hsimple & _).
  exists e. split; assumption.
Defined.


(** C4, at failing inputs: a deposit whose share of the pool tokens is
    2^26, one whose share is 10^12, and a withdrawal with minimums 2^26 and
    2^27.  [muln] truncates the product of each 26-bit word and the factor,
    so the creation size is 0 where the specification has 66437775, and
    989933562224 where it has 990000000000; the minimums are 0 and 2^26
    where it has 67041755 and 134083510. *)
Theorem liquidity_slippage_fraction_lost :
  sent_amounts (snd (depositLiquidity (imports := imports)
                       (deposit_params 16777216) world)) = [0]
  /\ creationSize_stated 1000000 16777216 250000 (1 # 100) = 66437775
  /\ sent_amounts (snd (depositLiquidity (imports := imports)
                          (deposit_params 250000000000) world)) = [989933562224]
  /\ creationSize_stated 1000000 250000000000 250000 (1 # 100) = 990000000000
  /\ sent_amounts (snd (withdrawLiquidity (imports := imports)
                          (withdraw_params (Some 67108864) (Some 134217728)) world))
     = [0; 67108864]
  /\ returnedMin_stated 67108864 (1 # 1000) = 67041755
  /\ returnedMin_stated 134217728 (1 # 1000) = 134083510.
Proof. repeat split; vm_compute; reflexivity. Qed.

(** C9, at failing inputs: a minimum income of 2^26 + 1, and one of 10^12,
    with a slippage of 0.0015.  The factor 998.5 is applied to each 26-bit
    word and the fraction of each product is lost where the word stands, so
    the swap instruction carries 66974647 where the specification has
    67008201, and 998499966445 where it has 998500000000. *)
Theorem swap_min_income_fraction_lost :
  sent_amounts (snd (swap (imports := imports)
                       (swap_params None (Some (3 # 2000)%Q) 67108865) world))
  = [66974647]
  /\ minIncome_stated 67108865 (3 # 2000) = 67008201
  /\ sent_amounts (snd (swap (imports := imports)
                          (swap_params None (Some (3 # 2000)%Q) 1000000000000) world))
     = [998499966445]
  /\ minIncome_stated 1000000000000 (3 # 2000) = 998500000000.
Proof. repeat split; vm_compute; reflexivity. Qed.

(** On these inputs binary64 gives what the exact rationals give: the
    factors of the default slippages, and of 0.0015, applied by [muln]. *)
Lemma binary64_agrees :
  Binary64.muln 67108864 (Binary64.one_minus 1 100) = BN.muln 67108864 (1 - (1 # 100))
  /\ Binary64.muln 1000000000000 (Binary64.one_minus 1 100)
     = BN.muln 1000000000000 (1 - (1 # 100))
  /\ Binary64.muln 67108864 (Binary64.one_minus 1 1000)
     = BN.muln 67108864 (1 - (1 # 1000))
  /\ Binary64.muln 134217728 (Binary64.one_minus 1 1000)
     = BN.muln 134217728 (1 - (1 # 1000))
  /\ Binary64.muln 67108865 (Binary64.thousand_minus 3 2000)
     = BN.muln 67108865 (1000 - (3 # 2000) * 1000)
  /\ Binary64.muln 1000000000000 (Binary64.thousand_minus 3 2000)
     = BN.muln 1000000000000 (1000 - (3 # 2000) * 1000)
  /\ Binary64.muln 1000000000000 (Binary64.thousand_minus 1 1000)
     = BN.muln 1000000000000 (1000 - (1 # 1000) * 1000)
  /\ PrimFloat.eqb (Binary64.thousand_minus 1 1000) (Binary64.of_integer 999) = true.
Proof. repeat split; vm_compute; reflexivity. Qed.

(** For every slippage of a whole number j of thousandths, from 0 to 1 and
    written j / 1000, binary64 makes the whole number 1000 - j of
    [1000 - slippage * 1000]. *)
Lemma binary64_whole_thousandths :
  forallb
    (fun j =>
       PrimFloat.eqb (Binary64.thousand_minus j 1000) (Binary64.of_integer (1000 - j)))
    (List.map Z.of_nat (seq 0 1001))
  = true.
Proof. vm_compute. reflexivity. Qed.

(** Whole numbers as binary64 holds them, against the floats of the
    kernel: 2^53 + 1 is held as 2^53, and the lamports of an account funded
    with that outcome amount are 2^53 + 2040000. *)
Lemma binary64_whole_agrees :
  Binary64.trunc (Binary64.of_integer 9007199254740993) = Binary64.whole 9007199254740993
  /\ Binary64.whole 9007199254740993 = 9007199254740992
  /\ Binary64.trunc (Binary64.of_integer 9007199254740995) = Binary64.whole 9007199254740995
  /\ Binary64.trunc (Binary64.of_integer 1000000000000000001)
     = Binary64.whole 1000000000000000001
  /\ Binary64.trunc
       (PrimFloat.add (Binary64.of_integer 9007199254740993) (Binary64.of_integer 2040000))
     = Number_add (parseInt 9007199254740993) TOKEN_ACCOUNT_RENT_LAMPORTS
  /\ Number_add (parseInt 9007199254740993) TOKEN_ACCOUNT_RENT_LAMPORTS
     = 9007199256780992.
Proof. repeat split; vm_compute; reflexivity. Qed.


(** A deposit into a pool whose base vault is empty. *)
Lemma deposit_empty_vault_witness :
  depositLiquidity (imports := imports) (deposit_params 1000)
    (world_with_amounts 1000000 0)
  = (Throw (Error "Assertion failed"), world_with_amounts 1000000 0).
Proof.
  apply (deposit_empty_vault (imports := imports) (deposit_params 1000)
           (world_with_amounts 1000000 0)).
  reflexivity.
Defined.

(** A deposit whose share of the pool tokens is 4000: with the default
    slippage the creation size is 3960, give or take one. *)
Lemma deposit_creation_size_range_witness :
  exists tx outcome creationSize,
    sent (snd (depositLiquidity (imports := imports) (deposit_params 1000) world))
    = [(send_call alice tx, outcome)]
    /\ omap deposit_creationSize_of tx = [creationSize]
    /\ 3959 <= creationSize <= 3961.
Proof.
  destruct (deposit_creation_size_range (imports := imports) (deposit_params 1000) world)
    as (tx & outcome & c & Hsent & _ & Hc & _ & _ & _ & Hword); [in_range..|].
  exists tx, outcome, c. split; [exact Hsent|]. split; [exact Hc|].
  exact (Hword eq_refl).
Defined.

(** A withdrawal without minimums from a pool mint without supply. *)
Lemma withdraw_zero_supply_witness :
  fst (withdrawLiquidity (imports := imports) (withdraw_params None None)
         (world_with_amounts 0 250000))
  = Throw (Error "Assertion failed").
Proof.
  apply (withdraw_zero_supply (imports := imports) (withdraw_params None None)
           (world_with_amounts 0 250000)); [reflexivity | left; reflexivity].
Defined.

(** A withdrawal without minimums: 40 pool tokens stand for 10 of each
    vault, and with the default slippage the minimums are 9, give or take
    one. *)
Lemma withdraw_minimums_range_witness :
  exists tx outcome baseMin quoteMin,
    sent (snd (withdrawLiquidity (imports := imports) (withdraw_params None None) world))
    = [(send_call alice tx, outcome)]
    /\ omap withdraw_minimums_of tx = [(baseMin, quoteMin)]
    /\ 8 <= baseMin <= 10 /\ 8 <= quoteMin <= 10.
Proof.
  destruct (withdraw_minimums_range (imports := imports) (withdraw_params None None)
              world)
    as (tx & outcome & bm & qm & Hsent & _ & Hm & (_ & _ & _ & Hb) & (_ & _ & _ & Hq));
    [first [in_range | cbn; lia]..|].
  exists tx, outcome, bm, qm. split; [exact Hsent|]. split; [exact Hm|].
  split; [exact (Hb eq_refl) | exact (Hq eq_refl)].
Defined.

Lemma getMaxWithdrawable_within_vaults_witness :
  exists withdrawAmountBase withdrawAmountQuote,
    getMaxWithdrawable (withdraw_params None None) world
    = (Ok (withdrawAmountBase, withdrawAmountQuote), world)
    /\ 0 <= withdrawAmountBase <= 250000
    /\ 0 <= withdrawAmountQuote <= 250000.
Proof.
  destruct (getMaxWithdrawable_within_vaults (withdraw_params None None) world)
    as (b & q & H & Hb & Hq & _); try (cbn; lia).
  exists b, q. split; [exact H|]. split; assumption.
Defined.

(** A minimum income of 1000001 with a slippage of 0.0015: the floor of
    998500.9985 is 998500, and the instruction carries it, give or take
    one. *)
Lemma swap_min_income_range_witness :
  exists tx outcome minIncome,
    sent (snd (swap (imports := imports)
                 (swap_params None (Some (3 # 2000)%Q) 1000001) world))
    = [(send_call alice tx, outcome)]
    /\ omap swap_minIncome_of tx = [minIncome]
    /\ 998000 <= minIncome <= 999000
    /\ 998499 <= minIncome <= 998501.
Proof.
  destruct (swap_min_income_range (imports := imports)
              (swap_params None (Some (3 # 2000)%Q) 1000001) world)
    as [(Href & _) | (tx & outcome & v & Hsent & _ & Hv & Hlo & Hhi & _ & Hword)];
    [in_range.. | exfalso; apply Href; reflexivity |].
  exists tx, outcome, v. split; [exact Hsent|]. split; [exact Hv|].
  split; [split; [exact Hlo | exact Hhi] | exact (Hword eq_refl)].
Defined.

(** The default slippage against 0.0015, on a minimum income of 2^26 + 1. *)
Lemma larger_slippage_lower_minimum_witness :
  exists v v',
    swap_minIncomeAmount 67108865 (1 # 1000) = Ok v
    /\ swap_minIncomeAmount 67108865 (3 # 2000) = Ok v'
    /\ 0 <= v' <= v.
Proof.
  destruct (larger_slippage_lower_minimum (1 # 1000) (3 # 2000)) as (H & _);
    [in_range..|].
  apply H. lia.
Defined.

(** The fee of carol, who owns a token account of the income mint. *)
Lemma swap_fee_within_income_witness :
  exists tx outcome minIncome fee,
    sent (snd (swap (imports := imports)
                 (swap_params (Some (referral "carol" false)) None 1000000)
                 world_with_carol))
    = [(send_call alice tx, outcome)]
    /\ omap swap_minIncome_of tx = [minIncome]
    /\ omap transfer_amount_of tx = [fee]
    /\ 0 <= fee <= minIncome /\ minIncome <= 1000000.
Proof.
  destruct (swap_fee_within_income (imports := imports)
              (swap_params (Some (referral "carol" false)) None 1000000)
              (referral "carol" false) world_with_carol)
    as [(_ & _ & Hdest & _) | [(_ & _ & Hbig) | H]]; [in_range.. | | |].
  - vm_compute in Hdest. discriminate Hdest.
  - vm_compute in Hbig. exfalso. apply Hbig. reflexivity.
  - destruct H as (tx & outcome & mi & fee & Hsent & _ & Hmi & Hfee & Hrange & Hle & _).
    exists tx, outcome, mi, fee. repeat split; try assumption; apply Hrange.
Defined.

(** Alice stakes 10 tokens: the ticket account is created under the next
    key, which also signs. *)
Lemma startStaking_transaction_witness :
  fst (startStaking (imports := imports)
         {| StartStakingParams.wallet := alice; StartStakingParams.tokenAmount := 10 |}
         world) = Ok "txid"
  /\ sent (snd (startStaking (imports := imports)
                  {| StartStakingParams.wallet := alice;
                     StartStakingParams.tokenAmount := 10 |} world))
     = [({| send_wallet := alice;
            send_transaction :=
              [ CreateAccount 2 alice "rinajRPUgiiW2rG6uieXvcNNQNaWr9ZcMmqo28VvXfa" "key0";
                Staking "stakingPool" "state2" "vault" "aliceRIN" "alice" 10 "key0"
                  "rinajRPUgiiW2rG6uieXvcNNQNaWr9ZcMmqo28VvXfa" ];
            send_partialSigners := ["key0"] |}, Some "txid")].
Proof.
  exact (startStaking_transaction (imports := imports)
           {| StartStakingParams.wallet := alice; StartStakingParams.tokenAmount := 10 |}
           world).
Defined.

(** Bob closes two tickets: each transaction is one unstaking instruction
    that pays into the account of the next key, which no transaction
    creates. *)
Lemma endStaking_creates_no_account_witness :
  exists first second,
    sent (snd (endStaking (imports := imports) {| EndStakingParams.wallet := bob |} world))
    = [first; second]
    /\ Forall
         (fun entry =>
            exists instruction,
              send_transaction (fst entry) = [instruction]
              /\ created_account instruction = None
              /\ unstaking_account instruction = Some "key0")
         [first; second].
Proof.
  destruct (endStaking_creates_no_account (imports := imports)
              {| EndStakingParams.wallet := bob |} world)
    as (added & Hsent & Hall & Hfresh).
  rewrite (Hfresh eq_refl) in Hall.
  destruct added as [|first [|second [|third added]]];
    try (vm_compute in Hsent; discriminate Hsent).
  exists first, second. split; [exact Hsent | exact Hall].
Defined.

(** Alice claims: the second farming state is the open one and the one
    with a calc account that holds tokens. *)
Lemma claim_transaction_witness :
  fst (claim (imports := imports) claim_params world) = Ok "txid"
  /\ exists account signer,
       sent (snd (claim (imports := imports) claim_params world))
       = [(send_call alice
             [WithdrawFarmed "stakingPool" "state2" "rewards2" "state2" account signer
                "alice" "rinajRPUgiiW2rG6uieXvcNNQNaWr9ZcMmqo28VvXfa"],
           Some "txid")].
Proof.
  pose proof (claim_transaction (imports := imports) claim_params world _ _
                eq_refl eq_refl) as H.
  cbn in H. destruct H as (Hr & Hsent & _).
  split; [exact Hr|]. do 2 eexists. exact Hsent.
Defined.


End Samples.
